(** * Spermatogenesis lottery: a shallow embedding of [spermatogenesis_model.py]

    The model follows the Python source function by function.

    - A proteome (a Python [dict] from transcript ID to count) is a
      [gmap string Z]; iterating the dict ([for i in d], [d.values()])
      visits the entries in the order of [map_to_list].  The source is
      Python 2 code: [d.values()] is a list, which is what
      [np.array(mother_prot.values())] needs.
    - Python floats are IEEE-754 binary64 values, embedded bit for bit as
      [spec_float] with the operations of the Standard Library's
      [SpecFloat] at precision 53 and maximal exponent 1024.
    - The global generator [np.random] is an explicit state: a tape of fair
      coin flips (the Bernoulli samples of [np.random.binomial(1, 0.5, n)])
      and a tape of standard normal deviates (from which
      [np.random.normal(loc, scale)] returns [loc + scale * z]), each with a
      cursor.
    - Exceptions are values of [exn]; a method is a function from the
      generator state to either a result with the new state or a raised
      exception.
    - Counts and reference counts are Python integers, [Z]; a count reaches
      [is_viable] as a numpy integer, which numpy converts to a double
      before comparing it with a float.
    - [assert] statements are executed (the interpreter does not run with
      [-O]).  Memory exhaustion is not modelled, and counts are unbounded
      integers (a count is far below 2^63 whenever [np.random.binomial] can
      allocate that many samples).  The file output of [run_and_save] is
      left out. *)

From Stdlib Require Import ZArith Bool Lia.
From Stdlib Require Import Floats.SpecFloat.
From stdpp Require Import gmap strings list fin_maps.

Local Open Scope Z_scope.

(** ** Exceptions and the generator-state monad *)

Inductive exn : Set :=
| AssertionError
| ValueError
| ZeroDivisionError
| KeyError
| OverflowError
| AttributeError
(* error kinds that only the specification names; no code path raises them *)
| InvalidProteomeState
| InvalidConfiguration.

Inductive result (A : Type) : Type :=
| Ok (a : A)
| Raise (e : exn).
Arguments Ok {A} a.
Arguments Raise {A} e.

Definition float := spec_float.

Record RandomState : Type := mkRandomState {
  coins : nat -> bool;       (* outcomes of the Bernoulli(0.5) samples *)
  coin_pos : nat;            (* how many of them were consumed *)
  gauss : nat -> float;      (* standard normal deviates *)
  gauss_pos : nat            (* how many of them were consumed *)
}.

Definition M (A : Type) : Type := RandomState -> result (A * RandomState).

Definition ret {A} (a : A) : M A := fun g => Ok (a, g).

Definition bind {A B} (m : M A) (k : A -> M B) : M B :=
  fun g => match m g with
           | Ok (a, g') => k a g'
           | Raise e => Raise e
           end.

Definition raise {A} (e : exn) : M A := fun _ => Raise e.

Definition lift {A} (r : result A) : M A :=
  fun g => match r with Ok a => Ok (a, g) | Raise e => Raise e end.

#[global] Instance M_ret : MRet M := @ret.
#[global] Instance M_bind : MBind M := fun A B k m => bind m k.

(** [[f(x) for x in l]] with [f] effectful: left to right. *)
Fixpoint mapM {A B} (f : A -> M B) (l : list A) : M (list B) :=
  match l with
  | [] => mret []
  | x :: l' => y ← f x; ys ← mapM f l'; mret (y :: ys)
  end.

(** ** Binary64 arithmetic as Python uses it *)

Definition prec : Z := 53.
Definition emax : Z := 1024.

Definition fmul : float -> float -> float := SFmul prec emax.
Definition fadd : float -> float -> float := SFadd prec emax.
Definition fdiv : float -> float -> float := SFdiv prec emax.
(** [x >= y] on floats: false as soon as one side is NaN. *)
Definition fge (x y : float) : bool := SFleb y x.

(** Nearest binary64 value of an integer (ties to even). *)
Definition float_of_Z (z : Z) : float := binary_normalize prec emax z 0 false.

(** Python's conversion of an [int] operand to [float]: correctly rounded,
    [OverflowError] when the integer is beyond the range of a double. *)
Definition py_float_of_int (z : Z) : result float :=
  match float_of_Z z with
  | S754_infinity _ => Raise OverflowError
  | f => Ok f
  end.

(** Python's [int(x)] on a float: truncation toward zero. *)
Definition py_int_of_float (x : float) : result Z :=
  match x with
  | S754_nan => Raise ValueError
  | S754_infinity _ => Raise OverflowError
  | S754_zero _ => Ok 0
  | S754_finite s m e =>
      let a := Z.shiftl (Zpos m) e in
      Ok (if s then - a else a)
  end.

(** The sign bit, as [np.signbit] reads it. *)
Definition signbit (x : float) : bool :=
  match x with
  | S754_zero s | S754_infinity s | S754_finite s _ _ => s
  | S754_nan => false
  end.

(** ** The two samplers of [np.random] *)

Fixpoint count_heads (c : nat -> bool) (start n : nat) : Z :=
  match n with
  | O => 0
  | S n' => (if c start then 1 else 0) + count_heads c (S start) n'
  end.

(** [np.random.binomial(1, 0.5, n).sum()]: [n] Bernoulli samples, summed.
    A negative [n] is a negative array dimension: [ValueError]. *)
Definition binomial_sum (n : Z) : M Z := fun g =>
  if n <? 0 then Raise ValueError
  else
    let k := Z.to_nat n in
    Ok (count_heads (coins g) (coin_pos g) k,
        mkRandomState (coins g) (coin_pos g + k)%nat (gauss g) (gauss_pos g)).

(** [np.random.normal(loc, scale)]: [ValueError] when the sign bit of
    [scale] is set, else [loc + scale * z] for the next deviate [z]. *)
Definition normal (loc scale : float) : M float := fun g =>
  if signbit scale then Raise ValueError
  else
    Ok (fadd loc (fmul scale (gauss g (gauss_pos g))),
        mkRandomState (coins g) (coin_pos g) (gauss g) (S (gauss_pos g))).

(** ** Cells and the simulator object *)

Record Cell : Type := mkCell { proteome : gmap string Z }.

(** [for i, j in zip(keys, vals): d[i] = j], starting from [d = {}]. *)
Definition dict_of_zip (ks : list string) (vs : list Z) : gmap string Z :=
  foldl (fun d ij => <[ij.1 := ij.2]> d) ∅ (zip ks vs).

Definition keys (d : gmap string Z) : list string := (map_to_list d).*1.
Definition values (d : gmap string Z) : list Z := (map_to_list d).*2.

(** [fission]: the first daughter gets a binomial share of every count, the
    second daughter the elementwise difference. *)
Definition fission (mother_prot : gmap string Z) : M (Cell * Cell) :=
  daughter_1_prot ← mapM binomial_sum (values mother_prot);
  let daughter_1_transcript := dict_of_zip (keys mother_prot) daughter_1_prot in
  let daughter_1 := mkCell daughter_1_transcript in
  let daughter_2_prot := zip_with Z.sub (values mother_prot) daughter_1_prot in
  let daughter_2_transcript := dict_of_zip (keys mother_prot) daughter_2_prot in
  let daughter_2 := mkCell daughter_2_transcript in
  mret (daughter_1, daughter_2).

(** The attributes of a [Spermatogenesis] object.  [load] exists only after
    [make_sperms] has run. *)
Record Spermatogenesis : Type := mkSpermatogenesis {
  ref : gmap string Z;
  cv : float;
  spermatogonia : Cell;
  cutoff : float;
  crucial_prot : float;
  load : option (list Cell)
}.

(** The Python values a caller may pass for [cutoff] and [crucial_prot]. *)
Inductive pyobj : Type :=
| PyNone
| PyBool (b : bool)
| PyInt (z : Z)
| PyFloat (x : float)
| PyStr (s : string)
| NpFloat64 (x : float).

(** [type(v) is float] *)
Definition type_is_float (v : pyobj) : bool :=
  match v with PyFloat _ => true | _ => false end.

#[global] Instance result_ret : MRet result := @Ok.
#[global] Instance result_bind : MBind result := fun A B k r =>
  match r with Ok a => k a | Raise e => Raise e end.

(** [for x in l: acc = body(acc, x)] with an effectful body. *)
Fixpoint foldM {A B} (body : B -> A -> M B) (acc : B) (l : list A) : M B :=
  match l with
  | [] => mret acc
  | x :: l' => acc' ← body acc x; foldM body acc' l'
  end.

Fixpoint foldR {A B} (body : B -> A -> result B) (acc : B) (l : list A)
  : result B :=
  match l with
  | [] => mret acc
  | x :: l' => acc' ← body acc x; foldR body acc' l'
  end.

(** [d[i]] *)
Definition getitem (d : gmap string Z) (i : string) : result Z :=
  match d !! i with
  | Some v => Ok v
  | None => Raise KeyError
  end.

(** One pass of the loop body of [randomize_proteome]:
    [mean = ref[i]; std = mean * cv; int(np.random.normal(mean, std))]. *)
Definition draw_count (self_ref : gmap string Z) (self_cv : float)
  (i : string) : M Z :=
  mean ← lift (getitem self_ref i);
  mean_f ← lift (py_float_of_int mean);
  let std := fmul mean_f self_cv in
  x ← normal mean_f std;
  lift (py_int_of_float x).

Definition randomize_proteome (self_ref : gmap string Z) (self_cv : float)
  : M (gmap string Z) :=
  foldM (fun random_proteome i =>
           n ← draw_count self_ref self_cv i;
           mret (<[i := n]> random_proteome))
        ∅ (keys self_ref).

Definition generate_spermatogonia (self : Spermatogenesis)
  (proteome : gmap string Z) : Spermatogenesis :=
  mkSpermatogenesis (ref self) (cv self) (mkCell proteome)
    (cutoff self) (crucial_prot self) (load self).

(** [Spermatogenesis(ref, cutoff, crucial_prot, cv)] *)
Definition __init__ (ref0 : gmap string Z) (cutoff0 crucial_prot0 : pyobj)
  (cv0 : float) : M Spermatogenesis :=
  match cutoff0 with
  | PyFloat c =>
      match crucial_prot0 with
      | PyFloat p =>
          random_proteome ← randomize_proteome ref0 cv0;
          mret (mkSpermatogenesis ref0 cv0 (mkCell random_proteome) c p None)
      | _ => raise AssertionError
      end
  | _ => raise AssertionError
  end.

Definition do_meiosis (self : Spermatogenesis) : M (list Cell) :=
  '(c1, c2) ← fission (proteome (spermatogonia self));
  '(s1, s2) ← fission (proteome c1);
  '(s3, s4) ← fission (proteome c2);
  mret [s1; s2; s3; s4].

(** [a / b] with a float divisor *)
Definition py_truediv (a b : float) : result float :=
  match b with
  | S754_zero _ => Raise ZeroDivisionError
  | _ => Ok (fdiv a b)
  end.

(** The test [sperm.proteome[i] >= self.cutoff * self.ref[i]].  The count is
    a numpy integer, compared with the float after conversion to double. *)
Definition functional (self : Spermatogenesis) (sperm : Cell) (i : string)
  : result bool :=
  g ← getitem (proteome sperm) i;
  r ← getitem (ref self) i;
  r_f ← py_float_of_int r;
  mret (fge (float_of_Z g) (fmul (cutoff self) r_f)).

Definition is_viable (self : Spermatogenesis) (sperm : Cell) : result bool :=
  let viable := false in
  prot_count ← foldR (fun (prot_count : Z) i =>
                        b ← functional self sperm i;
                        mret (if b : bool then prot_count + 1 else prot_count))
                     0 (keys (proteome sperm));
  n ← py_float_of_int (Z.of_nat (length (keys (proteome sperm))));
  c ← py_float_of_int prot_count;
  prot_prop ← py_truediv c n;
  let viable := if fge prot_prop (crucial_prot self) then true else viable in
  mret viable.

(** The loop of [make_sperms], [n] rounds from the current object and the
    gametes collected so far. *)
Fixpoint make_sperms_loop (n : nat) (self : Spermatogenesis)
  (sperms : list Cell) : M (Spermatogenesis * list Cell) :=
  match n with
  | O => mret (self, sperms)
  | S n' =>
      one_round ← do_meiosis self;
      let sperms := sperms ++ one_round in
      random_proteome ← randomize_proteome (ref self) (cv self);
      let self := generate_spermatogonia self random_proteome in
      make_sperms_loop n' self sperms
  end.

Definition make_sperms (self : Spermatogenesis) (t : Z) : M Spermatogenesis :=
  let sperms := [] in
  '(self, sperms) ← make_sperms_loop (Z.to_nat t) self sperms;
  mret (mkSpermatogenesis (ref self) (cv self) (spermatogonia self)
          (cutoff self) (crucial_prot self) (Some sperms)).

Fixpoint mapR {A B} (f : A -> result B) (l : list A) : result (list B) :=
  match l with
  | [] => mret []
  | x :: l' => y ← f x; ys ← mapR f l'; mret (y :: ys)
  end.

(** [sum] of a list of booleans *)
Definition sum_bools (l : list bool) : Z :=
  foldl (fun acc (b : bool) => acc + (if b then 1 else 0)) 0 l.

Definition get_viable_sprems (self : Spermatogenesis) : result Z :=
  match load self with
  | None => Raise AttributeError
  | Some sperms =>
      viable ← mapR (is_viable self) sperms;
      mret (sum_bools viable)
  end.

(** ** Concrete inputs used by the examples below *)

(** A generator whose coins alternate heads and tails and whose normal
    deviates are all zero. *)
Definition g0 : RandomState :=
  mkRandomState (fun n => Nat.even n) 0 (fun _ => S754_zero false) 0.

Definition P0 : gmap string Z := {[ "A" := 100; "B" := 7 ]}.

Definition P_neg : gmap string Z := {[ "A" := -1 ]}.

(** 0.5, 0.2 and 2.0 as doubles *)
Definition f_half : float := Eval vm_compute in fdiv (float_of_Z 1) (float_of_Z 2).
Definition f_fifth : float := Eval vm_compute in fdiv (float_of_Z 1) (float_of_Z 5).
Definition f_two : float := Eval vm_compute in float_of_Z 2.

(** An object as [__init__] leaves it for the reference [P0], thresholds
    0.5 and 0.5, and the default [cv] of 0.2, when the founder is drawn
    with zero deviates. *)
Definition s0 : Spermatogenesis :=
  mkSpermatogenesis P0 f_fifth (mkCell P0) f_half f_half None.

Definition P_zero : gmap string Z := {[ "A" := 0 ]}.

(** ** Predicates used in the statements *)

(** Every count of a proteome is non-negative: a valid [Cell]. *)
Definition nonneg (P : gmap string Z) : Prop := map_Forall (fun _ n => 0 <= n) P.

(** Whatever the cursors, drawing a founder count from the tape of normal
    deviates of [g] succeeds with a non-negative count, for every protein of
    the reference. *)
Definition valid_founders (self_ref : gmap string Z) (self_cv : float)
  (g : RandomState) : Prop :=
  forall g' i, gauss g' = gauss g -> i ∈ keys self_ref ->
    exists n g'', draw_count self_ref self_cv i g' = Ok (n, g'') /\ 0 <= n.

(** The number of gamete cells an object holds on to. *)
Definition retained (self : Spermatogenesis) : nat :=
  match load self with
  | Some sperms => length sperms
  | None => O
  end.

(** Every count converts to a double (none is beyond the range of doubles). *)
Definition convertible (P : gmap string Z) : Prop :=
  map_Forall (fun _ r => exists f, py_float_of_int r = Ok f) P.

(** The same simulator with another [cutoff]. *)
Definition with_cutoff (self : Spermatogenesis) (c : float) : Spermatogenesis :=
  mkSpermatogenesis (ref self) (cv self) (spermatogonia self) c
    (crucial_prot self) (load self).

(** ** The classifier in the words of the specification *)

(** Protein [i] is functional: [gamete[i] >= cutoff * reference[i]]. *)
Definition spec_functional (reference : gmap string Z) (cutoff0 : float)
  (gamete : gmap string Z) (i : string) : bool :=
  match gamete !! i, reference !! i with
  | Some g, Some r => fge (float_of_Z g) (fmul cutoff0 (float_of_Z r))
  | _, _ => false
  end.

(** [count(functional) / totalProteinTypes] *)
Definition spec_proportion (reference : gmap string Z) (cutoff0 : float)
  (gamete : gmap string Z) : float :=
  fdiv
    (float_of_Z (Z.of_nat (length
       (filter (fun i => spec_functional reference cutoff0 gamete i = true)
               (keys gamete)))))
    (float_of_Z (Z.of_nat (size gamete))).

(** Viable iff [proportion >= crucial_prot]. *)
Definition spec_is_viable (reference : gmap string Z)
  (cutoff0 crucial_prot0 : float) (gamete : gmap string Z) : bool :=
  fge (spec_proportion reference cutoff0 gamete) crucial_prot0.

(** The reference has a convertible count for every protein of the gamete. *)
Definition covered (reference gamete : gmap string Z) : Prop :=
  forall i, is_Some (gamete !! i) ->
    exists r rf, reference !! i = Some r /\ py_float_of_int r = Ok rf.

(** What [run_and_save] writes to its file: the count of viable gametes
    after [make_sperms]. *)
Definition viable_after (self : Spermatogenesis) (t : Z) : M Z :=
  self' ← make_sperms self t;
  lift (get_viable_sprems self').

(** Two runs agree up to a relation on their results: both return, with
    related values, or both raise the same exception. *)
Definition agree {A} (R : A -> A -> Prop) (r1 r2 : result A) : Prop :=
  (exists a1 a2, r1 = Ok a1 /\ r2 = Ok a2 /\ R a1 a2)
  \/ (exists e, r1 = Raise e /\ r2 = Raise e).

(** A gamete at both thresholds of [s0]: 50 copies of A against 0.5 * 100,
    and one functional protein out of two against 0.5. *)
Definition sperm_boundary : Cell := mkCell {[ "A" := 50; "B" := 3 ]}.

(** [s0] holding three gametes. *)
Definition s0_loaded : Spermatogenesis :=
  mkSpermatogenesis P0 f_fifth (mkCell P0) f_half f_half
    (Some [sperm_boundary; mkCell {[ "A" := 49; "B" := 4 ]};
           mkCell {[ "A" := 60; "B" := 5 ]}]).

(** -0.2 *)
Definition f_minus_fifth : float := Eval vm_compute in SFopp f_fifth.

(** 0.1 *)
Definition f_tenth : float :=
  Eval vm_compute in fdiv (float_of_Z 1) (float_of_Z 10).

(** ** Auxiliary notions for the analysis of rounding *)

(** The fraction [A / B] lies in [[m, m + 1)], at the place [l] says. *)
Definition loc_frac (m : Z) (l : location) (A B : Z) : Prop :=
  m * B <= A < (m + 1) * B /\
  match l with
  | loc_Exact => A = m * B
  | loc_Inexact c => m * B < A /\ (2 * A ?= (2 * m + 1) * B) = c
  end.

(** The integer nearest to [A / B], ties to even. *)
Definition rne (A B : Z) : Z :=
  let q := A / B in
  match 2 * (A mod B) ?= B with
  | Lt => q
  | Gt => q + 1
  | Eq => if Z.even q then q else q + 1
  end.

(** The float with sign [s], mantissa [M <= 2^prec] and exponent [E]. *)
Definition pack (s : bool) (M E : Z) : float :=
  match M with
  | Zpos p =>
      if M <? 2 ^ prec then
        if E <=? emax - prec then S754_finite s p E else S754_infinity s
      else
        if E + 1 <=? emax - prec
        then S754_finite s (Z.to_pos (2 ^ (prec - 1))) (E + 1)
        else S754_infinity s
  | Z0 => S754_zero s
  | Zneg _ => S754_nan
  end.

(** [f] is the rounding, with sign [s], of the number [(A / D) * 2^E], whose
    exponent is [E]: the quotient is below [2^53], and at least [2^52]
    unless [E] is the least exponent. *)
Definition rounded (f : float) (s : bool) (A D E : Z) : Prop :=
  f = pack s (rne A D) E
  /\ 0 < D /\ 0 <= A < 2 ^ 53 * D /\ -1074 <= E
  /\ (-1074 < E -> 2 ^ 52 * D <= A).

(** [(A / D) * 2^E = N / Q], without leaving the integers. *)
Definition val_eq (A D E N Q : Z) : Prop :=
  exists a b, 0 <= a /\ 0 <= b /\ E = a - b
              /\ A * Q * 2 ^ a = N * D * 2 ^ b.

(** ** Further notions used in the statements *)

(** The number of protein copies of a proteome: the sum of its counts. *)
Definition total (P : gmap string Z) : Z := foldr Z.add 0 (values P).

(** A finite double: neither NaN nor an infinity. *)
Definition is_finite (x : float) : bool :=
  match x with
  | S754_zero _ | S754_finite _ _ _ => true
  | _ => false
  end.

(** Every deviate of the tape is a finite number, as standard normal
    deviates are. *)
Definition finite_deviates (g : RandomState) : Prop :=
  forall k, is_finite (gauss g k) = true.

(** Counts that doubles hold exactly. *)
Definition exact_counts (P : gmap string Z) : Prop :=
  map_Forall (fun _ n => 0 <= n < 2 ^ 53) P.

(** The generator after [k] more normal deviates were consumed. *)
Definition skip_gauss (k : nat) (g : RandomState) : RandomState :=
  mkRandomState (coins g) (coin_pos g) (gauss g) (gauss_pos g + k).

(** The same simulator with another [crucial_prot]. *)
Definition with_crucial_prot (self : Spermatogenesis) (p : float)
  : Spermatogenesis :=
  mkSpermatogenesis (ref self) (cv self) (spermatogonia self) (cutoff self)
    p (load self).

(** The same simulator holding the gametes [sperms]. *)
Definition with_load (self : Spermatogenesis) (sperms : list Cell)
  : Spermatogenesis :=
  mkSpermatogenesis (ref self) (cv self) (spermatogonia self) (cutoff self)
    (crucial_prot self) (Some sperms).

(** The number of functional proteins of a gamete, as [is_viable] counts
    them. *)
Definition functional_count (self : Spermatogenesis) (sperm : Cell) : Z :=
  Z.of_nat (length
    (filter (fun i => spec_functional (ref self) (cutoff self)
                        (proteome sperm) i = true)
            (keys (proteome sperm)))).

(** The largest double below 1.0 *)
Definition f_below_one : float := S754_finite false 9007199254740991 (-53).

(** ** Further concrete inputs *)

Definition P_one : gmap string Z := {[ "A" := 1 ]}.

(** A reference count beyond the range of doubles. *)
Definition P_huge : gmap string Z := {[ "A" := 10 ^ 400 ]}.

(** -1.0 and 1.0 *)
Definition f_minus_one : float := Eval vm_compute in float_of_Z (-1).
Definition f_one : float := Eval vm_compute in float_of_Z 1.

(** A generator whose normal deviates are all -1.0. *)
Definition g_minus : RandomState :=
  mkRandomState (fun n => Nat.even n) 0 (fun _ => f_minus_one) 0.

(** A simulator whose reference holds a protein with count 0. *)
Definition s_zero : Spermatogenesis :=
  mkSpermatogenesis P_zero f_fifth (mkCell P_zero) f_half f_half None.

(** A gamete with more copies than [sperm_boundary], and one with a protein
    that the reference [P0] lacks. *)
Definition sperm_more : Cell := mkCell {[ "A" := 60; "B" := 5 ]}.
Definition sperm_unknown : Cell := mkCell {[ "A" := 60; "C" := 1 ]}.

(** [s0] with [crucial_prot = 1.0]. *)
Definition s0_strict : Spermatogenesis := with_crucial_prot s0 f_one.

(** * Properties *)

(** ** The monad *)

Lemma bind_eq {A B} (m : M A) (k : A -> M B) g :
  (m ≫= k) g = match m g with Ok (a, g') => k a g' | Raise e => Raise e end.
Proof. reflexivity. Qed.

Lemma lift_eq {A} (r : result A) g :
  lift r g = match r with Ok a => Ok (a, g) | Raise e => Raise e end.
Proof. reflexivity. Qed.

Lemma result_bind_eq {A B} (r : result A) (k : A -> result B) :
  (r ≫= k) = match r with Ok a => k a | Raise e => Raise e end.
Proof. reflexivity. Qed.

Lemma foldR_cons {A B} (body : B -> A -> result B) acc x l :
  foldR body acc (x :: l)
  = match body acc x with
    | Ok acc' => foldR body acc' l
    | Raise e => Raise e
    end.
Proof. reflexivity. Qed.

Lemma foldR_cons_ok {A B} (body : B -> A -> result B) acc x l acc' :
  body acc x = Ok acc' -> foldR body acc (x :: l) = foldR body acc' l.
Proof. intros H. by rewrite foldR_cons, H. Qed.

Lemma foldR_cons_raise {A B} (body : B -> A -> result B) acc x l e :
  body acc x = Raise e -> foldR body acc (x :: l) = Raise e.
Proof. intros H. by rewrite foldR_cons, H. Qed.

Lemma mapR_cons {A B} (f : A -> result B) x l :
  mapR f (x :: l)
  = match f x with
    | Ok y => match mapR f l with
              | Ok ys => Ok (y :: ys)
              | Raise e => Raise e
              end
    | Raise e => Raise e
    end.
Proof. reflexivity. Qed.

Lemma foldM_cons_raise {A B} (body : B -> A -> M B) acc x l g e :
  body acc x g = Raise e -> foldM body acc (x :: l) g = Raise e.
Proof. intros H. simpl foldM. by rewrite bind_eq, H. Qed.

(** ** The binomial sampler and the dictionaries of [fission] *)

Lemma count_heads_bounds c s n : 0 <= count_heads c s n <= Z.of_nat n.
Proof.
  revert s; induction n as [|n IH]; intros s; simpl count_heads; [lia|].
  specialize (IH (S s)). destruct (c s); lia.
Qed.

Lemma binomial_sum_ok n g :
  0 <= n ->
  exists d g', binomial_sum n g = Ok (d, g') /\ 0 <= d <= n.
Proof.
  intros Hn. unfold binomial_sum.
  destruct (Z.ltb_spec n 0) as [?|_]; [lia|].
  eexists _, _; split; [reflexivity|].
  pose proof (count_heads_bounds (coins g) (coin_pos g) (Z.to_nat n)). lia.
Qed.

Lemma binomial_sum_neg n g : n < 0 -> binomial_sum n g = Raise ValueError.
Proof.
  intros Hn. unfold binomial_sum. destruct (Z.ltb_spec n 0); [done|lia].
Qed.

Lemma mapM_binomial_ok vs g :
  Forall (fun v => 0 <= v) vs ->
  exists ds g', mapM binomial_sum vs g = Ok (ds, g')
                /\ Forall2 (fun v d => 0 <= d <= v) vs ds.
Proof.
  intros Hvs; revert g; induction Hvs as [|v vs Hv _ IH]; intros g.
  - by exists [], g.
  - destruct (binomial_sum_ok v g Hv) as (d & g1 & Hd & Hb).
    destruct (IH g1) as (ds & g2 & Hds & Hall).
    exists (d :: ds), g2. split; [|by constructor].
    simpl mapM. rewrite bind_eq, Hd, bind_eq, Hds. reflexivity.
Qed.

Lemma foldl_insert_lookup (l : list (string * Z)) (m : gmap string Z) i :
  NoDup l.*1 ->
  foldl (fun d ij => <[ij.1 := ij.2]> d) m l !! i
  = match (list_to_map l : gmap string Z) !! i with
    | Some v => Some v
    | None => m !! i
    end.
Proof.
  revert m; induction l as [|[k v] l IH]; intros m Hnd; simpl.
  - by rewrite lookup_empty.
  - apply NoDup_cons in Hnd as [Hk Hnd]. rewrite IH by done.
    destruct (decide (k = i)) as [->|Hne].
    + rewrite lookup_insert_eq.
      rewrite (not_elem_of_list_to_map_1 _ i Hk). by rewrite lookup_insert_eq.
    + rewrite !lookup_insert_ne by done. reflexivity.
Qed.

Lemma dict_of_zip_lookup ks vs j i v :
  NoDup ks -> length ks = length vs ->
  ks !! j = Some i -> vs !! j = Some v ->
  dict_of_zip ks vs !! i = Some v.
Proof.
  intros Hnd Hlen Hk Hv. unfold dict_of_zip.
  rewrite foldl_insert_lookup by (rewrite fst_zip by lia; done).
  erewrite elem_of_list_to_map_1; [reflexivity|by rewrite fst_zip by lia|].
  apply list_elem_of_lookup. exists j.
  rewrite lookup_zip_with, Hk. simpl. by rewrite Hv.
Qed.

Lemma keys_values_lookup (P : gmap string Z) i n :
  P !! i = Some n ->
  exists j, keys P !! j = Some i /\ values P !! j = Some n.
Proof.
  intros Hi. apply elem_of_map_to_list, list_elem_of_lookup in Hi as [j Hj].
  exists j. unfold keys, values. rewrite !list_lookup_fmap, Hj. done.
Qed.

Lemma keys_NoDup (P : gmap string Z) : NoDup (keys P).
Proof. apply NoDup_fst_map_to_list. Qed.

Lemma keys_values_length (P : gmap string Z) : length (keys P) = length (values P).
Proof. unfold keys, values. by rewrite !length_fmap. Qed.

Lemma binomial_sum_inv n g d g' :
  binomial_sum n g = Ok (d, g') -> 0 <= d <= n.
Proof.
  unfold binomial_sum. destruct (Z.ltb_spec n 0) as [?|Hn]; [done|].
  intros [= <- _].
  pose proof (count_heads_bounds (coins g) (coin_pos g) (Z.to_nat n)). lia.
Qed.

Lemma mapM_binomial_inv vs g ds g' :
  mapM binomial_sum vs g = Ok (ds, g') ->
  Forall2 (fun v d => 0 <= d <= v) vs ds.
Proof.
  revert g ds; induction vs as [|v vs IH]; intros g ds; simpl mapM.
  - intros [= <- _]. constructor.
  - rewrite bind_eq. destruct (binomial_sum v g) as [[d g1]|e] eqn:Hd; [|done].
    rewrite bind_eq. destruct (mapM binomial_sum vs g1) as [[ds' g2]|e] eqn:Hds; [|done].
    intros [= <- <-]. constructor; [eapply binomial_sum_inv|eapply IH]; eassumption.
Qed.

Lemma fission_inv (P : gmap string Z) g d1 d2 g' :
  fission P g = Ok (d1, d2, g') ->
  exists ds, Forall2 (fun v d => 0 <= d <= v) (values P) ds
    /\ proteome d1 = dict_of_zip (keys P) ds
    /\ proteome d2 = dict_of_zip (keys P) (zip_with Z.sub (values P) ds).
Proof.
  unfold fission. rewrite bind_eq.
  destruct (mapM binomial_sum (values P) g) as [[ds g1]|e] eqn:Hds; [|done].
  intros [= <- <- _]. exists ds. eauto using mapM_binomial_inv.
Qed.

Lemma fission_shares (P : gmap string Z) g d1 d2 g' i n :
  fission P g = Ok (d1, d2, g') ->
  P !! i = Some n ->
  exists a, 0 <= a <= n /\ proteome d1 !! i = Some a
            /\ proteome d2 !! i = Some (n - a).
Proof.
  intros (ds & Hall & -> & ->)%fission_inv Hi.
  destruct (keys_values_lookup P i n Hi) as (j & Hk & Hv).
  pose proof (Forall2_length _ _ _ Hall) as Hlen.
  destruct (Forall2_lookup_l _ _ _ _ _ Hall Hv) as (a & Ha & Hb).
  pose proof (keys_values_length P) as Hkv.
  exists a. split; [done|]. split.
  - eapply dict_of_zip_lookup; eauto using keys_NoDup. congruence.
  - eapply dict_of_zip_lookup; eauto using keys_NoDup.
    + rewrite length_zip_with. lia.
    + rewrite lookup_zip_with, Hv. simpl. by rewrite Ha.
Qed.

Lemma fission_ok (P : gmap string Z) g :
  nonneg P ->
  exists d1 d2 g', fission P g = Ok (d1, d2, g').
Proof.
  intros HP.
  destruct (mapM_binomial_ok (values P) g) as (ds & g1 & Hds & _).
  { apply Forall_forall. intros n Hn. unfold values in Hn.
    apply list_elem_of_fmap in Hn as ([i n'] & -> & Hin).
    apply elem_of_map_to_list in Hin. exact (HP i n' Hin). }
  unfold fission. rewrite bind_eq, Hds. eauto.
Qed.

(** C1 (conservation): whenever a call to [fission] returns, for every
    protein of the parent the counts of the two daughters add up to the
    parent's count; and the call does return on every parent proteome whose
    counts are non-negative. *)
Theorem fission_conserves (P : gmap string Z) (g : RandomState) :
  (forall d1 d2 g', fission P g = Ok (d1, d2, g') ->
     forall i n, P !! i = Some n ->
       exists a b, proteome d1 !! i = Some a /\ proteome d2 !! i = Some b
                   /\ a + b = n)
  /\ (nonneg P -> exists d1 d2 g', fission P g = Ok (d1, d2, g')).
Proof.
  split; [|apply fission_ok].
  intros d1 d2 g' Hf i n Hi.
  destruct (fission_shares P g d1 d2 g' i n Hf Hi) as (a & _ & H1 & H2).
  exists a, (n - a). repeat split; [done..|lia].
Qed.

Lemma dict_of_zip_lookup_inv ks vs i v :
  NoDup ks -> length ks = length vs ->
  dict_of_zip ks vs !! i = Some v ->
  exists j, ks !! j = Some i /\ vs !! j = Some v.
Proof.
  intros Hnd Hlen. unfold dict_of_zip.
  rewrite foldl_insert_lookup by (rewrite fst_zip by lia; done).
  rewrite lookup_empty.
  destruct (list_to_map (zip ks vs) !! i) as [w|] eqn:Hw; [|done].
  intros [= ->]. apply elem_of_list_to_map_2, list_elem_of_lookup in Hw as [j Hj].
  exists j. rewrite lookup_zip_with in Hj.
  destruct (ks !! j) as [k|]; [|done]. simpl in Hj.
  destruct (vs !! j) as [w|]; [|done]. simpl in Hj. by injection Hj as -> ->.
Qed.

Lemma fission_nonneg (P : gmap string Z) g d1 d2 g' :
  fission P g = Ok (d1, d2, g') ->
  nonneg (proteome d1) /\ nonneg (proteome d2).
Proof.
  intros (ds & Hall & -> & ->)%fission_inv.
  pose proof (Forall2_length _ _ _ Hall) as Hlen.
  pose proof (keys_values_length P) as Hkv.
  split; intros i v Hi.
  - apply dict_of_zip_lookup_inv in Hi as (j & _ & Hj);
      [|apply keys_NoDup|congruence].
    destruct (Forall2_lookup_r _ _ _ _ _ Hall Hj) as (n & _ & Hb). lia.
  - apply dict_of_zip_lookup_inv in Hi as (j & _ & Hj);
      [|apply keys_NoDup|rewrite length_zip_with; lia].
    rewrite lookup_zip_with in Hj.
    destruct (values P !! j) as [n|] eqn:Hn; [|done]. simpl in Hj.
    destruct (ds !! j) as [a|] eqn:Ha; [|done]. simpl in Hj. injection Hj as <-.
    destruct (Forall2_lookup_l _ _ _ _ _ Hall Hn) as (a' & Ha' & Hb).
    assert (a' = a) by congruence. lia.
Qed.

Lemma mapM_binomial_neg vs g :
  Exists (fun v => v < 0) vs -> mapM binomial_sum vs g = Raise ValueError.
Proof.
  intros Hex; revert g; induction Hex as [v vs Hv|v vs _ IH]; intros g;
    simpl mapM; rewrite bind_eq.
  - by rewrite binomial_sum_neg.
  - unfold binomial_sum at 1. destruct (v <? 0); [done|].
    by rewrite bind_eq, IH.
Qed.

Lemma fission_negative (P : gmap string Z) i n g :
  P !! i = Some n -> n < 0 -> fission P g = Raise ValueError.
Proof.
  intros Hi Hn. unfold fission. rewrite bind_eq, mapM_binomial_neg; [done|].
  apply Exists_exists. exists n. split; [|done].
  destruct (keys_values_lookup P i n Hi) as (j & _ & Hj).
  apply list_elem_of_lookup. eauto.
Qed.

(** C8 (zero count): a protein whose count in the parent is 0 gets 0 copies
    in both daughters of every returning call, whatever the generator
    state; and a count of 0 raises nothing: the call returns whenever no
    count is negative. *)
Theorem fission_zero_count (P : gmap string Z) (i : string) (g : RandomState) :
  P !! i = Some 0 ->
  (forall d1 d2 g', fission P g = Ok (d1, d2, g') ->
     proteome d1 !! i = Some 0 /\ proteome d2 !! i = Some 0)
  /\ (nonneg P -> exists d1 d2 g', fission P g = Ok (d1, d2, g')).
Proof.
  intros Hi. split; [|apply fission_ok].
  intros d1 d2 g' Hf.
  destruct (fission_shares P g d1 d2 g' i 0 Hf Hi) as (a & Ha & H1 & H2).
  by assert (a = 0) as -> by lia.
Qed.

(** ** Sampling founders *)

Lemma draw_count_gauss self_ref self_cv i g n g' :
  draw_count self_ref self_cv i g = Ok (n, g') -> gauss g' = gauss g.
Proof.
  unfold draw_count. rewrite bind_eq, lift_eq.
  destruct (getitem self_ref i) as [mean|]; [|done].
  rewrite bind_eq, lift_eq.
  destruct (py_float_of_int mean) as [mean_f|]; [|done].
  rewrite bind_eq. unfold normal.
  destruct (signbit _); [done|]. rewrite lift_eq.
  destruct (py_int_of_float _); [|done]. by intros [= _ <-].
Qed.

Section ValidFounders.

(** A reference, a coefficient of variation and a tape of deviates that
    only yields valid founders. *)
Context (self_ref : gmap string Z) (self_cv : float) (g_tape : RandomState).
Hypothesis founders_valid : valid_founders self_ref self_cv g_tape.

Lemma randomize_fold_ok l acc g :
  l ⊆ keys self_ref -> nonneg acc -> gauss g = gauss g_tape ->
  exists rp g',
    foldM (fun random_proteome i =>
             n ← draw_count self_ref self_cv i;
             mret (<[i := n]> random_proteome)) acc l g = Ok (rp, g')
    /\ nonneg rp /\ gauss g' = gauss g_tape.
Proof.
  revert acc g.
  induction l as [|i l IH]; intros acc g Hl Hacc Hg; simpl foldM.
  - by exists acc, g.
  - destruct (founders_valid g i Hg) as (n & g1 & Hd & Hn); [set_solver|].
    rewrite bind_eq, bind_eq, Hd. simpl.
    apply IH; [set_solver| |].
    + by apply map_Forall_insert_2.
    + rewrite <- Hg. eapply draw_count_gauss; eassumption.
Qed.

(** Sampling a founder succeeds, with a valid cell. *)
Lemma randomize_proteome_ok g :
  gauss g = gauss g_tape ->
  exists rp g',
    randomize_proteome self_ref self_cv g = Ok (rp, g')
    /\ nonneg rp /\ gauss g' = gauss g_tape.
Proof.
  intros Hg. apply randomize_fold_ok; [done| |done].
  apply map_Forall_empty.
Qed.

End ValidFounders.

Lemma binomial_sum_gauss n g d g' :
  binomial_sum n g = Ok (d, g') -> gauss g' = gauss g.
Proof.
  unfold binomial_sum. destruct (n <? 0); [done|]. by intros [= _ <-].
Qed.

Lemma mapM_binomial_gauss vs g ds g' :
  mapM binomial_sum vs g = Ok (ds, g') -> gauss g' = gauss g.
Proof.
  revert g ds g'; induction vs as [|v vs IH]; intros g ds g'; simpl mapM.
  - by intros [= _ <-].
  - rewrite bind_eq. destruct (binomial_sum v g) as [[d g1]|e] eqn:Hd; [|done].
    rewrite bind_eq. destruct (mapM binomial_sum vs g1) as [[ds' g2]|e] eqn:Hds; [|done].
    intros [= _ <-]. rewrite (IH _ _ _ Hds). eapply binomial_sum_gauss; eassumption.
Qed.

Lemma fission_gauss (P : gmap string Z) g d1 d2 g' :
  fission P g = Ok (d1, d2, g') -> gauss g' = gauss g.
Proof.
  unfold fission. rewrite bind_eq.
  destruct (mapM binomial_sum (values P) g) as [[ds g1]|e] eqn:Hds; [|done].
  intros [= _ _ <-]. eapply mapM_binomial_gauss; eassumption.
Qed.

(** ** Meiosis and the population driver *)

(** One round of meiosis on a valid founder: four gametes, same tape. *)
Lemma do_meiosis_ok self g :
  nonneg (proteome (spermatogonia self)) ->
  exists one_round g', do_meiosis self g = Ok (one_round, g')
    /\ length one_round = 4%nat /\ gauss g' = gauss g.
Proof.
  intros H0.
  destruct (fission_ok _ g H0) as (c1 & c2 & g1 & Hf1).
  destruct (fission_nonneg _ _ _ _ _ Hf1) as [Hc1 Hc2].
  destruct (fission_ok _ g1 Hc1) as (s1 & s2 & g2 & Hf2).
  destruct (fission_ok _ g2 Hc2) as (s3 & s4 & g3 & Hf3).
  exists [s1; s2; s3; s4], g3. split; [|split; [done|]].
  - unfold do_meiosis. rewrite bind_eq, Hf1. simpl. rewrite bind_eq, Hf2. simpl.
    rewrite bind_eq, Hf3. reflexivity.
  - rewrite (fission_gauss _ _ _ _ _ Hf3), (fission_gauss _ _ _ _ _ Hf2).
    eapply fission_gauss; eassumption.
Qed.

Lemma do_meiosis_inv self g gametes g' :
  do_meiosis self g = Ok (gametes, g') ->
  exists c1 c2 s1 s2 s3 s4 g1 g2,
    fission (proteome (spermatogonia self)) g = Ok (c1, c2, g1)
    /\ fission (proteome c1) g1 = Ok (s1, s2, g2)
    /\ fission (proteome c2) g2 = Ok (s3, s4, g')
    /\ gametes = [s1; s2; s3; s4].
Proof.
  unfold do_meiosis. rewrite bind_eq.
  destruct (fission (proteome (spermatogonia self)) g)
    as [[[c1 c2] g1]|e] eqn:Hf1; [|done].
  simpl. rewrite bind_eq.
  destruct (fission (proteome c1) g1) as [[[s1 s2] g2]|e] eqn:Hf2; [|done].
  simpl. rewrite bind_eq.
  destruct (fission (proteome c2) g2) as [[[s3 s4] g3]|e] eqn:Hf3; [|done].
  intros [= <- <-]. by exists c1, c2, s1, s2, s3, s4, g1, g2.
Qed.

(** C2 (meiosis): every returning call of [do_meiosis] splits the founder
    into [c1], [c2], then [c1] into [s1], [s2] and [c2] into [s3], [s4],
    threading the generator in that order, and returns exactly the four
    gametes [s1; s2; s3; s4] in this order; the call returns for every
    founder with non-negative counts. *)
Theorem do_meiosis_four (self : Spermatogenesis) (g : RandomState) :
  (forall gametes g', do_meiosis self g = Ok (gametes, g') ->
     exists c1 c2 s1 s2 s3 s4 g1 g2,
       fission (proteome (spermatogonia self)) g = Ok (c1, c2, g1)
       /\ fission (proteome c1) g1 = Ok (s1, s2, g2)
       /\ fission (proteome c2) g2 = Ok (s3, s4, g')
       /\ gametes = [s1; s2; s3; s4])
  /\ (nonneg (proteome (spermatogonia self)) ->
      exists gametes g', do_meiosis self g = Ok (gametes, g')).
Proof.
  split; [apply do_meiosis_inv|].
  intros H0. destruct (do_meiosis_ok self g H0) as (l & g' & Hm & _). eauto.
Qed.

Lemma make_sperms_loop_ok n self sperms g :
  nonneg (proteome (spermatogonia self)) ->
  valid_founders (ref self) (cv self) g ->
  exists self' sperms' g',
    make_sperms_loop n self sperms g = Ok (self', sperms', g')
    /\ length sperms' = (length sperms + 4 * n)%nat
    /\ nonneg (proteome (spermatogonia self'))
    /\ ref self' = ref self /\ cv self' = cv self
    /\ cutoff self' = cutoff self /\ crucial_prot self' = crucial_prot self
    /\ gauss g' = gauss g.
Proof.
  revert self sperms g; induction n as [|n IH]; intros self sperms g H0 Hv.
  - exists self, sperms, g. simpl. repeat split; try done; lia.
  - destruct (do_meiosis_ok self g H0) as (one_round & g1 & Hm & Hlen & Hg1).
    destruct (randomize_proteome_ok (ref self) (cv self) g Hv g1 Hg1)
      as (rp & g2 & Hr & Hrp & Hg2).
    destruct (IH (generate_spermatogonia self rp) (sperms ++ one_round) g2)
      as (self' & sperms' & g' & Hl & Hlen' & H0' & ? & ? & ? & ? & Hg');
      [done| |].
    { intros g3 i Hg3. apply Hv. congruence. }
    exists self', sperms', g'. simpl make_sperms_loop.
    rewrite bind_eq, Hm, bind_eq, Hr. repeat split; try done.
    + rewrite Hlen', length_app, Hlen. lia.
    + congruence.
Qed.

Lemma make_sperms_loop_length n self sperms g self' sperms' g' :
  make_sperms_loop n self sperms g = Ok (self', sperms', g') ->
  length sperms' = (length sperms + 4 * n)%nat.
Proof.
  revert self sperms g; induction n as [|n IH]; intros self sperms g;
    simpl make_sperms_loop.
  - intros [= _ <- _]. lia.
  - rewrite bind_eq.
    destruct (do_meiosis self g) as [[one_round g1]|e] eqn:Hm; [|done].
    apply do_meiosis_inv in Hm
      as (c1 & c2 & s1 & s2 & s3 & s4 & g1' & g2' & _ & _ & _ & ->).
    rewrite bind_eq.
    destruct (randomize_proteome (ref self) (cv self) g1) as [[rp g2]|e]; [|done].
    intros H. apply IH in H. rewrite H, length_app. simpl. lia.
Qed.

(** C4 (gamete count): for every positive [t], every completed run of
    [make_sperms t] leaves exactly [4 * t] gametes in [load], four per
    trial; and the run completes when the founder is a valid cell and the
    tape of deviates only yields valid founders. *)
Theorem make_sperms_count (self : Spermatogenesis) (t : Z) (g : RandomState) :
  0 < t ->
  (forall self' g', make_sperms self t g = Ok (self', g') ->
     exists sperms, load self' = Some sperms
                    /\ Z.of_nat (length sperms) = 4 * t)
  /\ (nonneg (proteome (spermatogonia self)) ->
      valid_founders (ref self) (cv self) g ->
      exists self' g', make_sperms self t g = Ok (self', g')).
Proof.
  intros Ht. split.
  - intros self' g'. unfold make_sperms. rewrite bind_eq.
    destruct (make_sperms_loop (Z.to_nat t) self [] g)
      as [[[self1 sperms1] g1]|e] eqn:Hl; [|done].
    intros [= <- _]. exists sperms1. split; [reflexivity|].
    apply make_sperms_loop_length in Hl. rewrite Hl. simpl. lia.
  - intros H0 Hv.
    destruct (make_sperms_loop_ok (Z.to_nat t) self [] g H0 Hv)
      as (self' & sperms' & g' & Hl & _).
    eexists _, g'. unfold make_sperms. rewrite bind_eq, Hl. reflexivity.
Qed.




(** ** Construction *)

Lemma draw_count_raises self_ref self_cv i g e :
  draw_count self_ref self_cv i g = Raise e ->
  e = KeyError \/ e = OverflowError \/ e = ValueError.
Proof.
  unfold draw_count. rewrite bind_eq, lift_eq. unfold getitem.
  destruct (self_ref !! i) as [mean|]; [|intros [= <-]; auto].
  rewrite bind_eq, lift_eq. unfold py_float_of_int.
  destruct (float_of_Z mean) as [s|s| |s m ex] eqn:Hm;
    try (intros [= <-]; by auto);
    rewrite bind_eq; unfold normal;
    (destruct (signbit _); [intros [= <-]; by auto|]);
    rewrite lift_eq; unfold py_int_of_float;
    (destruct (fadd _ _); intros [= <-] || intros [=]; auto).
Qed.

Lemma randomize_fold_raises self_ref self_cv l (acc : gmap string Z) g e :
  foldM (fun random_proteome i =>
           n ← draw_count self_ref self_cv i;
           mret (<[i := n]> random_proteome)) acc l g = Raise e ->
  e = KeyError \/ e = OverflowError \/ e = ValueError.
Proof.
  revert acc g; induction l as [|i l IH]; intros acc g; simpl foldM; [done|].
  rewrite !bind_eq.
  destruct (draw_count self_ref self_cv i g) as [[n g1]|e1] eqn:Hd.
  - apply IH.
  - intros [= <-]. eapply draw_count_raises; eassumption.
Qed.

Lemma randomize_proteome_raises self_ref self_cv g e :
  randomize_proteome self_ref self_cv g = Raise e ->
  e = KeyError \/ e = OverflowError \/ e = ValueError.
Proof. apply randomize_fold_raises. Qed.

Lemma init_float ref0 x y cv0 g :
  __init__ ref0 (PyFloat x) (PyFloat y) cv0 g
  = match randomize_proteome ref0 cv0 g with
    | Ok (random_proteome, g') =>
        Ok (mkSpermatogenesis ref0 cv0 (mkCell random_proteome) x y None, g')
    | Raise e => Raise e
    end.
Proof. reflexivity. Qed.

(** C10 (type assertions): construction raises [AssertionError] as soon as
    [cutoff] or [crucial_prot] is not exactly a [float], in particular for
    the integer 1, and never raises it for two floats, whatever their
    values. *)
Theorem init_asserts_float_type (ref0 : gmap string Z) (cv0 : float)
  (g : RandomState) :
  (forall c p, type_is_float c && type_is_float p = false ->
     __init__ ref0 c p cv0 g = Raise AssertionError)
  /\ (forall p, __init__ ref0 (PyInt 1) p cv0 g = Raise AssertionError)
  /\ (forall c, __init__ ref0 c (PyInt 1) cv0 g = Raise AssertionError)
  /\ (forall x y, __init__ ref0 (PyFloat x) (PyFloat y) cv0 g
                  <> Raise AssertionError).
Proof.
  split; [|split; [|split]].
  - by intros [] [] H.
  - reflexivity.
  - by intros [].
  - intros x y. rewrite init_float.
    destruct (randomize_proteome ref0 cv0 g) as [[rp g']|e] eqn:Hr; [done|].
    intros [= ->]. by destruct (randomize_proteome_raises _ _ _ _ Hr) as [?|[?|?]].
Qed.

(** * Binary64 rounding *)

(** ** Binary digits *)

Lemma digits2_pos_bounds p :
  2 ^ (Zpos (digits2_pos p) - 1) <= Zpos p < 2 ^ Zpos (digits2_pos p).
Proof.
  induction p as [p IH|p IH|]; simpl digits2_pos;
    rewrite ?Pos2Z.inj_succ.
  - replace (Z.succ (Z.pos (digits2_pos p)) - 1) with (Z.succ (Z.pos (digits2_pos p) - 1)) by lia.
    rewrite !Z.pow_succ_r by lia. lia.
  - replace (Z.succ (Z.pos (digits2_pos p)) - 1) with (Z.succ (Z.pos (digits2_pos p) - 1)) by lia.
    rewrite !Z.pow_succ_r by lia. lia.
  - simpl. lia.
Qed.

Lemma Zdigits2_bounds m :
  0 < m -> 2 ^ (Zdigits2 m - 1) <= m < 2 ^ Zdigits2 m.
Proof. destruct m as [|p|p]; try lia. intros _. apply digits2_pos_bounds. Qed.

Lemma Zdigits2_nonneg m : 0 <= Zdigits2 m.
Proof. destruct m; simpl; lia. Qed.

Lemma Zdigits2_pos m : 0 < m -> 0 < Zdigits2 m.
Proof. destruct m; simpl; lia. Qed.

(** [d] is the number of digits as soon as [2^(d-1) <= m < 2^d]. *)
Lemma Zdigits2_unique m d :
  2 ^ (d - 1) <= m < 2 ^ d -> 0 < m -> Zdigits2 m = d.
Proof.
  intros Hd Hm. pose proof (Zdigits2_bounds m Hm) as Hb.
  pose proof (Zdigits2_pos m Hm).
  assert (0 < d).
  { destruct (Z.le_gt_cases d 0) as [Hle|]; [|done].
    assert (2 ^ d <= 2 ^ 0) by (apply Z.pow_le_mono_r; lia). simpl in *. lia. }
  destruct (Z.lt_trichotomy (Zdigits2 m) d) as [Hlt|[->|Hgt]]; [|done|].
  - assert (2 ^ Zdigits2 m <= 2 ^ (d - 1)) by (apply Z.pow_le_mono_r; lia). lia.
  - assert (2 ^ d <= 2 ^ (Zdigits2 m - 1)) by (apply Z.pow_le_mono_r; lia). lia.
Qed.

Lemma Zdigits2_le m d : 0 < m -> m < 2 ^ d -> 0 <= d -> Zdigits2 m <= d.
Proof.
  intros Hm Hd H0. pose proof (Zdigits2_bounds m Hm) as Hb.
  destruct (Z.le_gt_cases (Zdigits2 m) d) as [|Hgt]; [done|].
  assert (2 ^ d <= 2 ^ (Zdigits2 m - 1)) by (apply Z.pow_le_mono_r; lia). lia.
Qed.

Lemma Zdigits2_ge m d : 2 ^ (d - 1) <= m -> 0 < m -> d <= Zdigits2 m.
Proof.
  intros Hd Hm. pose proof (Zdigits2_bounds m Hm) as Hb.
  pose proof (Zdigits2_pos m Hm).
  destruct (Z.le_gt_cases d (Zdigits2 m)) as [|Hgt]; [done|].
  assert (2 ^ Zdigits2 m <= 2 ^ (d - 1)) by (apply Z.pow_le_mono_r; lia). lia.
Qed.

(** ** Shifting the mantissa right *)

Lemma shr_1_spec m r s :
  0 <= m ->
  shr_1 (Build_shr_record m r s) = Build_shr_record (m / 2) (Z.odd m) (r || s).
Proof.
  intros Hm. destruct m as [|[p|p|]|]; try lia; simpl shr_1; f_equal.
  - rewrite Pos2Z.inj_xI. apply Z.div_unique with 1; lia.
  - rewrite Pos2Z.inj_xO. apply Z.div_unique with 0; lia.
Qed.

Lemma shr_1_loc m r s A B :
  0 <= m -> 0 < B ->
  loc_frac m (loc_of_shr_record (Build_shr_record m r s)) A B ->
  let mrs := shr_1 (Build_shr_record m r s) in
  0 <= shr_m mrs /\ loc_frac (shr_m mrs) (loc_of_shr_record mrs) A (2 * B).
Proof.
  intros Hm HB Hloc. rewrite shr_1_spec by done. simpl.
  pose proof (Z.div_mod m 2 ltac:(lia)) as Hdm.
  pose proof (Z.mod_pos_bound m 2 ltac:(lia)) as Hmod.
  rewrite Zmod_odd in Hdm.
  split; [apply Z.div_pos; lia|].
  set (q := m / 2) in *. clearbody q.
  unfold loc_frac in *. destruct Hloc as [Hin Hl].
  destruct (Z.odd m), r, s; simpl in *; subst m;
    repeat match goal with
    | H : _ /\ _ |- _ => destruct H
    | H : (_ ?= _) = Eq |- _ => apply Z.compare_eq in H
    | H : (_ ?= _) = Lt |- _ => apply Z.compare_lt_iff in H
    | H : (_ ?= _) = Gt |- _ => apply Z.compare_gt_iff in H
    end;
    repeat match goal with
    | |- _ /\ _ => split
    | |- (_ ?= _) = Eq => apply Z.compare_eq_iff
    | |- (_ ?= _) = Lt => apply Z.compare_lt_iff
    | |- (_ ?= _) = Gt => apply Z.compare_gt_iff
    end; try lia.
Qed.

Lemma shr_loc_frac p mrs A B :
  0 <= shr_m mrs -> 0 < B ->
  loc_frac (shr_m mrs) (loc_of_shr_record mrs) A B ->
  let mrs' := SpecFloat.iter_pos shr_1 p mrs in
  0 <= shr_m mrs'
  /\ loc_frac (shr_m mrs') (loc_of_shr_record mrs') A (B * 2 ^ Zpos p).
Proof.
  revert mrs B; induction p as [p IH|p IH|]; intros mrs B Hm HB Hloc;
    simpl SpecFloat.iter_pos.
  - destruct mrs as [m r s]. simpl shr_m in Hm, Hloc.
    destruct (shr_1_loc m r s A B Hm HB Hloc) as [Hm1 Hloc1].
    destruct (IH _ (2 * B) Hm1 ltac:(lia) Hloc1) as [Hm2 Hloc2].
    assert (0 < 2 ^ Zpos p) by (apply Z.pow_pos_nonneg; lia).
    destruct (IH _ (2 * B * 2 ^ Zpos p) Hm2 ltac:(nia) Hloc2) as [Hm3 Hloc3].
    split; [done|].
    replace (B * 2 ^ Z.pos p~1) with (2 * B * 2 ^ Z.pos p * 2 ^ Z.pos p); [done|].
    rewrite Pos2Z.inj_xI.
    replace (2 * Z.pos p + 1) with (1 + Z.pos p + Z.pos p) by lia.
    rewrite !Z.pow_add_r by lia. change (2 ^ 1) with 2. ring.
  - destruct (IH _ B Hm HB Hloc) as [Hm2 Hloc2].
    assert (0 < 2 ^ Zpos p) by (apply Z.pow_pos_nonneg; lia).
    destruct (IH _ (B * 2 ^ Zpos p) Hm2 ltac:(nia) Hloc2) as [Hm3 Hloc3].
    split; [done|].
    replace (B * 2 ^ Z.pos p~0) with (B * 2 ^ Z.pos p * 2 ^ Z.pos p); [done|].
    rewrite <- Z.mul_assoc, <- Z.pow_add_r by lia.
    do 2 f_equal. lia.
  - destruct mrs as [m r s]. replace (B * 2 ^ 1) with (2 * B) by lia.
    apply shr_1_loc; done.
Qed.

(** ** Rounding a fraction to the nearest integer *)

Lemma rne_spec A B :
  0 < B ->
  let k := rne A B in
  (2 * k - 1) * B <= 2 * A <= (2 * k + 1) * B
  /\ (2 * A = (2 * k - 1) * B -> Z.even k = true)
  /\ (2 * A = (2 * k + 1) * B -> Z.even k = true).
Proof.
  intros HB. unfold rne.
  pose proof (Z.div_mod A B ltac:(lia)) as Hdm.
  pose proof (Z.mod_pos_bound A B HB) as Hmod.
  set (q := A / B) in *. set (r := A mod B) in *. clearbody q r. subst A.
    destruct (Z.compare_spec (2 * r) B) as [Heq|Hlt|Hgt].
  - destruct (Z.even q) eqn:Hev.
    + repeat split; try nia; by intros _.
    + repeat split; try nia; intros _; by rewrite Z.even_add, Hev.
  - repeat split; try nia; intros; exfalso; nia.
  - repeat split; try nia; intros; exfalso; nia.
Qed.

Lemma rne_mono A1 B1 A2 B2 :
  0 < B1 -> 0 < B2 -> A1 * B2 <= A2 * B1 -> rne A1 B1 <= rne A2 B2.
Proof.
  intros H1 H2 Hle.
  destruct (rne_spec A1 B1 H1) as ([L1 U1] & E1 & _).
  destruct (rne_spec A2 B2 H2) as ([L2 U2] & _ & E2).
  set (k1 := rne A1 B1) in *. set (k2 := rne A2 B2) in *. clearbody k1 k2.
  destruct (Z.le_gt_cases k1 k2) as [|Hgt]; [done|exfalso].
  assert (Ha : (2 * k1 - 1) * B1 * B2 <= 2 * A1 * B2) by nia.
  assert (Hb : 2 * A2 * B1 <= (2 * k2 + 1) * B2 * B1) by nia.
  assert (Hc : (2 * k2 + 1) * (B1 * B2) <= (2 * k1 - 1) * (B1 * B2)) by nia.
  assert (Hk : k1 = k2 + 1) by nia. subst k1.
  assert (Hd : 2 * A1 = (2 * (k2 + 1) - 1) * B1) by nia.
  assert (He : 2 * A2 = (2 * k2 + 1) * B2) by nia.
  specialize (E1 Hd). specialize (E2 He).
  rewrite Z.even_add, E2 in E1. discriminate.
Qed.

Lemma rne_upper A B K : 0 < B -> A < K * B -> rne A B <= K.
Proof.
  intros HB HA. destruct (rne_spec A B HB) as ([L U] & _). nia.
Qed.

Lemma rne_lower A B K : 0 < B -> K * B <= A -> K <= rne A B.
Proof.
  intros HB HA. destruct (rne_spec A B HB) as ([L U] & _). nia.
Qed.

Lemma rne_exact K B : 0 < B -> rne (K * B) B = K.
Proof.
  intros HB. pose proof (rne_lower (K * B) B K HB ltac:(lia)).
  destruct (rne_spec (K * B) B HB) as ([L U] & _). nia.
Qed.

Lemma rne_loc m l A B :
  0 < B -> loc_frac m l A B -> round_nearest_even m l = rne A B.
Proof.
  intros HB [Hin Hl]. unfold rne.
  assert (Hq : A / B = m) by (symmetry; apply Z.div_unique with (A - m * B); lia).
  assert (Hr : A mod B = A - m * B) by (symmetry; apply Z.mod_unique with m; lia).
  rewrite Hq, Hr. destruct l as [|c]; simpl.
  - subst A. replace (2 * (m * B - m * B)) with 0 by lia.
    destruct (Z.compare_spec 0 B); lia || reflexivity.
  - destruct Hl as [Hlt Hc].
    replace (2 * (A - m * B) ?= B) with (2 * A ?= (2 * m + 1) * B).
    + rewrite Hc. by destruct c.
    + destruct (Z.compare_spec (2 * A) ((2 * m + 1) * B));
        destruct (Z.compare_spec (2 * (A - m * B)) B); lia || reflexivity.
Qed.

Lemma loc_of_record_of_loc m l :
  loc_of_shr_record (shr_record_of_loc m l) = l
  /\ shr_m (shr_record_of_loc m l) = m.
Proof. by destruct l as [|[]]. Qed.

Lemma fexp_eq x : fexp prec emax x = Z.max (x - 53) (-1074).
Proof. reflexivity. Qed.

(** The shift that brings a mantissa to its exponent, and the rounding. *)
Lemma shr_fexp_round m e l A B :
  0 <= m -> 0 < B -> loc_frac m l A B ->
  e <= fexp prec emax (Zdigits2 m + e) ->
  let E := fexp prec emax (Zdigits2 m + e) in
  exists mrs, shr_fexp prec emax m e l = (mrs, E)
    /\ round_nearest_even (shr_m mrs) (loc_of_shr_record mrs)
       = rne A (B * 2 ^ (E - e)).
Proof.
  intros Hm HB Hloc He E. unfold shr_fexp. fold E.
  destruct (loc_of_record_of_loc m l) as [Hl Hsm].
  destruct (E - e) as [|p|p] eqn:Hn; try lia.
  - exists (shr_record_of_loc m l). simpl. split; [f_equal; lia|].
    rewrite Hl, Hsm, Z.mul_1_r. by apply rne_loc.
  - exists (SpecFloat.iter_pos shr_1 p (shr_record_of_loc m l)).
    simpl shr. split; [f_equal; lia|].
    destruct (shr_loc_frac p (shr_record_of_loc m l) A B) as [H1 H2];
      [by rewrite Hsm|done|by rewrite Hl, Hsm|].
    apply rne_loc; [|done].
    assert (0 < 2 ^ Zpos p) by (apply Z.pow_pos_nonneg; lia). nia.
Qed.

Lemma shr_fexp_exact_small M E :
  0 <= M < 2 ^ 53 -> -1074 <= E ->
  shr_fexp prec emax M E loc_Exact = (Build_shr_record M false false, E).
Proof.
  intros HM HE. unfold shr_fexp. rewrite fexp_eq.
  assert (Hd : Zdigits2 M <= 53).
  { destruct (Z.eq_dec M 0) as [->|]; [simpl; lia|].
    apply Zdigits2_le; lia. }
  destruct (Z.max (Zdigits2 M + E - 53) (-1074) - E) as [|p|p] eqn:Hn;
    try lia; reflexivity.
Qed.

Lemma shr_fexp_exact_top E :
  -1074 <= E ->
  shr_fexp prec emax (2 ^ 53) E loc_Exact
  = (Build_shr_record (2 ^ 52) false false, E + 1).
Proof.
  intros HE. unfold shr_fexp. rewrite fexp_eq.
  change (Zdigits2 (2 ^ 53)) with 54.
  replace (Z.max (54 + E - 53) (-1074) - E) with 1 by lia.
  reflexivity.
Qed.

(** What [binary_round_aux] computes, for a mantissa that is not shorter
    than its exponent allows. *)
Lemma binary_round_aux_spec s m e l A B :
  0 <= m -> 0 < B -> loc_frac m l A B ->
  e <= fexp prec emax (Zdigits2 m + e) ->
  let E := fexp prec emax (Zdigits2 m + e) in
  let D := B * 2 ^ (E - e) in
  binary_round_aux prec emax s m e l = pack s (rne A D) E
  /\ 0 < D /\ 0 <= A < 2 ^ 53 * D /\ (-1074 < E -> 2 ^ 52 * D <= A).
Proof.
  intros Hm HB Hloc He E D.
  assert (HE : -1074 <= E) by (unfold E; rewrite fexp_eq; lia).
  assert (Hpow : 0 < 2 ^ (E - e)) by (apply Z.pow_pos_nonneg; lia).
  assert (HD : 0 < D) by (unfold D; nia).
  destruct Hloc as [Hin Hl0]. pose proof (conj Hin Hl0) as Hloc.
  assert (HA : 0 <= A < 2 ^ 53 * D).
  { split; [nia|].
    destruct (Z.eq_dec m 0) as [->|Hm0].
    - assert (1 <= 2 ^ 53 * 2 ^ (E - e)) by lia. unfold D. nia.
    - pose proof (Zdigits2_bounds m ltac:(lia)) as Hb.
      pose proof (Zdigits2_pos m ltac:(lia)) as Hdp.
      assert (2 ^ Zdigits2 m <= 2 ^ (53 + (E - e))).
      { apply Z.pow_le_mono_r; [lia|]. unfold E. rewrite fexp_eq. lia. }
      rewrite Z.pow_add_r in * by lia. unfold D. nia. }
  assert (Hlow : -1074 < E -> 2 ^ 52 * D <= A).
  { intros HE1. unfold E in HE1. rewrite fexp_eq in HE1.
    destruct (Z.eq_dec m 0) as [->|Hm0].
    - simpl Zdigits2 in *. unfold E in He. rewrite fexp_eq in He. simpl in He. lia.
    - pose proof (Zdigits2_bounds m ltac:(lia)) as Hb.
      assert (HEe : E - e = Zdigits2 m - 53) by (unfold E; rewrite fexp_eq; lia).
      replace (Zdigits2 m - 1) with (52 + (E - e)) in Hb by lia.
      rewrite Z.pow_add_r in Hb by lia. unfold D. nia. }
  split; [|done].
  unfold binary_round_aux.
  destruct (shr_fexp_round m e l A B Hm HB Hloc He) as (mrs & -> & ->).
  fold E. fold D.
  assert (HM : 0 <= rne A D <= 2 ^ 53).
  { split; [apply rne_lower; lia|apply rne_upper; lia]. }
  destruct (Z.eq_dec (rne A D) (2 ^ 53)) as [Htop|Hnt].
  - rewrite Htop, shr_fexp_exact_top by done. reflexivity.
  - rewrite shr_fexp_exact_small by lia. simpl shr_m. unfold pack.
    destruct (rne A D) as [|p|p] eqn:HMp; [done| |lia].
    destruct (Z.ltb_spec (Z.pos p) (2 ^ prec)) as [|Hge]; [done|].
    change (2 ^ prec) with (2 ^ 53) in Hge. lia.
Qed.

Lemma binary_round_aux_rounded s m e l A B :
  0 <= m -> 0 < B -> loc_frac m l A B ->
  e <= fexp prec emax (Zdigits2 m + e) ->
  rounded (binary_round_aux prec emax s m e l) s A
    (B * 2 ^ (fexp prec emax (Zdigits2 m + e) - e))
    (fexp prec emax (Zdigits2 m + e)).
Proof.
  intros Hm HB Hloc He.
  destruct (binary_round_aux_spec s m e l A B Hm HB Hloc He) as (? & ? & ? & ?).
  unfold rounded. split; [done|]. split; [done|]. split; [done|].
  split; [rewrite fexp_eq; lia|done].
Qed.

Lemma loc_frac_exact m : loc_frac m loc_Exact m 1.
Proof. unfold loc_frac. lia. Qed.

Lemma Pos_iter_xO p d : Zpos (Pos.iter xO p d) = Zpos p * 2 ^ Zpos d.
Proof.
  induction d as [|d IH] using Pos.peano_ind.
  - simpl. lia.
  - rewrite Pos.iter_succ, Pos2Z.inj_xO, IH, Pos2Z.inj_succ, Z.pow_succ_r by lia. ring.
Qed.

Lemma Zdigits2_shift m k :
  0 < m -> 0 <= k -> Zdigits2 (m * 2 ^ k) = Zdigits2 m + k.
Proof.
  intros Hm Hk. pose proof (Zdigits2_bounds m Hm) as Hb.
  pose proof (Zdigits2_pos m Hm).
  assert (0 < 2 ^ k) by (apply Z.pow_pos_nonneg; lia).
  apply Zdigits2_unique; [|nia].
  replace (Zdigits2 m + k - 1) with (Zdigits2 m - 1 + k) by lia.
  rewrite !Z.pow_add_r by lia. nia.
Qed.

(** The conversion of a positive integer. *)
Lemma float_of_Z_rounded z :
  0 < z ->
  exists A D, rounded (float_of_Z z) false A D (Zdigits2 z - 53)
              /\ val_eq A D (Zdigits2 z - 53) z 1.
Proof.
  intros Hz. destruct z as [|p|p]; try lia.
  unfold float_of_Z, binary_normalize, binary_round, shl_align.
  rewrite fexp_eq. pose proof (Zdigits2_pos (Zpos p) Hz) as Hd.
  change (Z.pos (digits2_pos p)) with (Zdigits2 (Zpos p)).
  replace (Z.max (Zdigits2 (Zpos p) + 0 - 53) (-1074)) with (Zdigits2 (Zpos p) - 53) by lia.
  set (d := Zdigits2 (Zpos p)) in *.
  destruct (d - 53 - 0) as [|k|k] eqn:Hk.
  - (* exactly 53 digits *)
    pose proof (binary_round_aux_rounded false (Zpos p) 0 loc_Exact (Zpos p) 1
                  ltac:(lia) ltac:(lia) (loc_frac_exact _)) as Hr.
    rewrite fexp_eq in Hr. fold d in Hr.
    replace (Z.max (d + 0 - 53) (-1074)) with (d - 53) in Hr by lia.
    eexists _, _. split; [apply Hr; lia|].
    exists 0, 0. replace (d - 53 - 0) with 0 by lia. simpl. lia.
  - (* more than 53 digits: the mantissa is rounded *)
    pose proof (binary_round_aux_rounded false (Zpos p) 0 loc_Exact (Zpos p) 1
                  ltac:(lia) ltac:(lia) (loc_frac_exact _)) as Hr.
    rewrite fexp_eq in Hr. fold d in Hr.
    replace (Z.max (d + 0 - 53) (-1074)) with (d - 53) in Hr by lia.
    eexists _, _. split; [apply Hr; lia|].
    exists (d - 53), 0. repeat split; try lia.
    replace (d - 53 - 0) with (d - 53) by lia. simpl. lia.
  - (* fewer than 53 digits: the mantissa is shifted left, exactly *)
    assert (Hdig : Zdigits2 (Zpos (Pos.iter xO p k)) = 53).
    { rewrite Pos_iter_xO, Zdigits2_shift by lia. fold d. lia. }
    pose proof (binary_round_aux_rounded false (Zpos (Pos.iter xO p k)) (d - 53)
                  loc_Exact (Zpos (Pos.iter xO p k)) 1
                  ltac:(lia) ltac:(lia) (loc_frac_exact _)) as Hr.
    rewrite fexp_eq, Hdig in Hr.
    replace (Z.max (53 + (d - 53) - 53) (-1074)) with (d - 53) in Hr by lia.
    eexists _, _. split; [apply Hr; lia|].
    exists 0, (Zpos k). repeat split; try lia.
    rewrite Pos_iter_xO. replace (d - 53 - (d - 53)) with 0 by lia.
    simpl (2 ^ 0). lia.
Qed.

(** ** The order of floats *)

Lemma SFleb_finite_pos m1 e1 m2 e2 :
  SFleb (S754_finite false m1 e1) (S754_finite false m2 e2) = true
  <-> e1 < e2 \/ (e1 = e2 /\ Zpos m1 <= Zpos m2).
Proof.
  unfold SFleb, SFcompare.
  change (Pos.compare_cont Eq m1 m2) with (Pos.compare m1 m2).
  destruct (Z.compare_spec e1 e2); destruct (Pos.compare_spec m1 m2);
    split; intros; try done; try lia.
Qed.

Lemma pack_le M1 E1 M2 E2 :
  0 <= M1 <= 2 ^ 53 -> 0 <= M2 <= 2 ^ 53 ->
  (E1 = E2 /\ M1 <= M2) \/ (E1 < E2 /\ 2 ^ 52 <= M2) ->
  SFleb (pack false M1 E1) (pack false M2 E2) = true.
Proof.
  intros H1 H2 Hle. unfold pack.
  change (2 ^ prec) with (2 ^ 53). change (2 ^ (prec - 1)) with (2 ^ 52).
  change (emax - prec) with 971.
  destruct M1 as [|p1|p1]; [|destruct M2 as [|p2|p2]|]; try lia.
  - destruct M2 as [|p2|p2]; try lia; [done|].
    repeat case_match; reflexivity.
  - repeat match goal with
    | |- context [Z.ltb ?a ?b] => destruct (Z.ltb_spec a b)
    | |- context [Z.leb ?a ?b] => destruct (Z.leb_spec a b)
    end; try reflexivity; try lia;
    apply SFleb_finite_pos; change (Z.pos (Z.to_pos (2 ^ 52))) with (2 ^ 52); lia.
Qed.

Lemma rounded_rne_bounds f s A D E :
  rounded f s A D E ->
  0 <= rne A D <= 2 ^ 53 /\ (-1074 < E -> 2 ^ 52 <= rne A D).
Proof.
  intros (_ & HD & HA & _ & Hlow). split; [split|].
  - apply rne_lower; lia.
  - apply rne_upper; lia.
  - intros HE. apply rne_lower; [done|]. by apply Hlow.
Qed.

(** The two values compared after clearing the denominators. *)
Lemma val_eq_cross A1 D1 N1 Q1 a1 b1 A2 D2 N2 Q2 a2 b2 :
  0 <= a1 -> 0 <= b1 -> 0 <= a2 -> 0 <= b2 ->
  0 < D1 -> 0 < D2 -> 0 < Q1 -> 0 < Q2 ->
  A1 * Q1 * 2 ^ a1 = N1 * D1 * 2 ^ b1 ->
  A2 * Q2 * 2 ^ a2 = N2 * D2 * 2 ^ b2 ->
  N1 * Q2 <= N2 * Q1 ->
  A1 * D2 * 2 ^ (a1 + b2) <= A2 * D1 * 2 ^ (a2 + b1).
Proof.
  intros Ha1 Hb1 Ha2 Hb2 HD1 HD2 HQ1 HQ2 V1 V2 Hle.
  rewrite !Z.pow_add_r by lia.
  assert (0 < 2 ^ a1) by (apply Z.pow_pos_nonneg; lia).
  assert (0 < 2 ^ b1) by (apply Z.pow_pos_nonneg; lia).
  assert (0 < 2 ^ a2) by (apply Z.pow_pos_nonneg; lia).
  assert (0 < 2 ^ b2) by (apply Z.pow_pos_nonneg; lia).
  set (p1 := 2 ^ a1) in *. set (r1 := 2 ^ b1) in *.
  set (p2 := 2 ^ a2) in *. set (r2 := 2 ^ b2) in *.
  clearbody p1 r1 p2 r2.
  apply Z.mul_le_mono_pos_r with (p := Q1 * Q2); [nia|].
  replace (A1 * D2 * (p1 * r2) * (Q1 * Q2))
    with ((A1 * Q1 * p1) * (D2 * r2 * Q2)) by ring.
  replace (A2 * D1 * (p2 * r1) * (Q1 * Q2))
    with ((A2 * Q2 * p2) * (D1 * r1 * Q1)) by ring.
  rewrite V1, V2.
  replace (N1 * D1 * r1 * (D2 * r2 * Q2))
    with ((N1 * Q2) * (D1 * D2 * r1 * r2)) by ring.
  replace (N2 * D2 * r2 * (D1 * r1 * Q1))
    with ((N2 * Q1) * (D1 * D2 * r1 * r2)) by ring.
  apply Z.mul_le_mono_nonneg_r; [|done].
  assert (0 < D1 * D2) by nia. assert (0 < r1 * r2) by nia. nia.
Qed.

(** Rounding is monotone. *)
Lemma rounded_mono f1 f2 A1 D1 E1 A2 D2 E2 N1 Q1 N2 Q2 :
  rounded f1 false A1 D1 E1 -> rounded f2 false A2 D2 E2 ->
  val_eq A1 D1 E1 N1 Q1 -> val_eq A2 D2 E2 N2 Q2 ->
  0 < Q1 -> 0 < Q2 -> N1 * Q2 <= N2 * Q1 ->
  SFleb f1 f2 = true.
Proof.
  intros R1 R2 (a1 & b1 & Ha1 & Hb1 & HE1 & V1) (a2 & b2 & Ha2 & Hb2 & HE2 & V2)
    HQ1 HQ2 Hle.
  destruct (rounded_rne_bounds _ _ _ _ _ R1) as [HM1 _].
  destruct (rounded_rne_bounds _ _ _ _ _ R2) as [HM2 HL2].
  destruct R1 as (-> & HD1 & HA1 & HEm1 & Hlow1).
  destruct R2 as (-> & HD2 & HA2 & HEm2 & Hlow2).
  pose proof (val_eq_cross _ _ _ _ _ _ _ _ _ _ _ _ Ha1 Hb1 Ha2 Hb2
                HD1 HD2 HQ1 HQ2 V1 V2 Hle) as Hx.
  apply pack_le; [done|done|].
  destruct (Z.lt_trichotomy E1 E2) as [Hlt|[Heq|Hgt]].
  - right. split; [done|]. apply HL2. lia.
  - left. split; [done|]. apply rne_mono; [done|done|].
    replace (a1 + b2) with (a2 + b1) in Hx by lia.
    assert (0 < 2 ^ (a2 + b1)) by (apply Z.pow_pos_nonneg; lia).
    nia.
  - exfalso.
    replace (a1 + b2) with ((a2 + b1) + (a1 + b2 - a2 - b1)) in Hx by lia.
    rewrite Z.pow_add_r in Hx by lia.
    assert (0 < 2 ^ (a2 + b1)) by (apply Z.pow_pos_nonneg; lia).
    assert (2 ^ 1 <= 2 ^ (a1 + b2 - a2 - b1)) by (apply Z.pow_le_mono_r; lia).
    change (2 ^ 1) with 2 in *.
    specialize (Hlow1 ltac:(lia)).
    set (P := 2 ^ (a2 + b1)) in *. set (K := 2 ^ (a1 + b2 - a2 - b1)) in *.
    clearbody P K.
    change (2 ^ 52) with 4503599627370496 in *.
    change (2 ^ 53) with 9007199254740992 in *.
    assert (0 < D2 * P) by nia. assert (0 < D1 * P) by nia.
    assert (S1 : 4503599627370496 * D1 * (D2 * P * 2) <= A1 * (D2 * P * 2))
      by (apply Z.mul_le_mono_nonneg_r; lia).
    assert (S2 : A1 * (D2 * P * 2) <= A1 * (D2 * P * K))
      by (apply Z.mul_le_mono_nonneg_l; nia).
    assert (S3 : A2 * (D1 * P) < 9007199254740992 * D2 * (D1 * P))
      by (apply Z.mul_lt_mono_pos_r; lia).
    replace (A1 * D2 * (P * K)) with (A1 * (D2 * P * K)) in Hx by ring.
    replace (A2 * D1 * P) with (A2 * (D1 * P)) in Hx by ring.
    replace (4503599627370496 * D1 * (D2 * P * 2))
      with (9007199254740992 * D2 * (D1 * P)) in S1 by ring.
    lia.
Qed.

(** ** Valid floats *)

Lemma valid_finite_inv s m e :
  valid_binary prec emax (S754_finite s m e) = true ->
  -1074 <= e <= 971 /\ Zpos m < 2 ^ 53 /\ (-1074 < e -> 2 ^ 52 <= Zpos m).
Proof.
  simpl. unfold bounded, canonical_mantissa. rewrite fexp_eq.
  change (Z.pos (digits2_pos m)) with (Zdigits2 (Zpos m)).
  change (emax - prec) with 971.
  intros [Hc He]%andb_prop. apply Z.eqb_eq in Hc. apply Z.leb_le in He.
  pose proof (Zdigits2_bounds (Zpos m) ltac:(lia)) as Hb.
  split; [lia|]. split.
  - assert (2 ^ Zdigits2 (Zpos m) <= 2 ^ 53) by (apply Z.pow_le_mono_r; lia). lia.
  - intros Hlt. replace (Zdigits2 (Zpos m) - 1) with 52 in Hb by lia. lia.
Qed.

Lemma valid_finite_intro s m e :
  -1074 <= e <= 971 -> Zpos m < 2 ^ 53 -> (-1074 < e -> 2 ^ 52 <= Zpos m) ->
  valid_binary prec emax (S754_finite s m e) = true.
Proof.
  intros He Hm Hlow. simpl. unfold bounded, canonical_mantissa.
  rewrite fexp_eq. change (Z.pos (digits2_pos m)) with (Zdigits2 (Zpos m)).
  change (emax - prec) with 971.
  apply andb_true_intro. split; [apply Z.eqb_eq|apply Z.leb_le; lia].
  pose proof (Zdigits2_le (Zpos m) 53 ltac:(lia) Hm ltac:(lia)).
  destruct (Z.eq_dec e (-1074)) as [->|Hne]; [lia|].
  pose proof (Zdigits2_ge (Zpos m) 53 ltac:(apply Hlow; lia) ltac:(lia)). lia.
Qed.

Lemma rounded_valid f s A D E :
  rounded f s A D E -> valid_binary prec emax f = true.
Proof.
  intros R. destruct (rounded_rne_bounds _ _ _ _ _ R) as [HM HL].
  destruct R as (-> & HD & HA & HE & Hlow). unfold pack.
  change (2 ^ prec) with (2 ^ 53). change (2 ^ (prec - 1)) with (2 ^ 52).
  change (emax - prec) with 971.
  destruct (rne A D) as [|p|p]; [done| |done].
  destruct (Z.ltb_spec (Zpos p) (2 ^ 53)).
  - destruct (Z.leb_spec E 971); [|done].
    apply valid_finite_intro; [lia|done|done].
  - destruct (Z.leb_spec (E + 1) 971); [|done].
    apply valid_finite_intro; [lia|done|done].
Qed.

(** ** The value of a finite float as a fraction *)

Lemma finite_val m e :
  exists N Q, 0 < Q /\ 0 < N /\ val_eq (Zpos m) 1 e N Q.
Proof.
  exists (Zpos m * 2 ^ Z.max e 0), (2 ^ Z.max (- e) 0).
  assert (0 < 2 ^ Z.max e 0) by (apply Z.pow_pos_nonneg; lia).
  assert (0 < 2 ^ Z.max (-e) 0) by (apply Z.pow_pos_nonneg; lia).
  split; [done|]. split; [nia|].
  exists (Z.max e 0), (Z.max (- e) 0). repeat split; try lia.
Qed.

Lemma val_eq_cross_rev A1 D1 N1 Q1 a1 b1 A2 D2 N2 Q2 a2 b2 :
  0 <= a1 -> 0 <= b1 -> 0 <= a2 -> 0 <= b2 ->
  0 < D1 -> 0 < D2 -> 0 < Q1 -> 0 < Q2 ->
  A1 * Q1 * 2 ^ a1 = N1 * D1 * 2 ^ b1 ->
  A2 * Q2 * 2 ^ a2 = N2 * D2 * 2 ^ b2 ->
  A1 * D2 * 2 ^ (a1 + b2) <= A2 * D1 * 2 ^ (a2 + b1) ->
  N1 * Q2 <= N2 * Q1.
Proof.
  intros Ha1 Hb1 Ha2 Hb2 HD1 HD2 HQ1 HQ2 V1 V2 Hle.
  rewrite !Z.pow_add_r in Hle by lia.
  assert (0 < 2 ^ a1) by (apply Z.pow_pos_nonneg; lia).
  assert (0 < 2 ^ b1) by (apply Z.pow_pos_nonneg; lia).
  assert (0 < 2 ^ a2) by (apply Z.pow_pos_nonneg; lia).
  assert (0 < 2 ^ b2) by (apply Z.pow_pos_nonneg; lia).
  set (p1 := 2 ^ a1) in *. set (r1 := 2 ^ b1) in *.
  set (p2 := 2 ^ a2) in *. set (r2 := 2 ^ b2) in *.
  clearbody p1 r1 p2 r2.
  assert (0 < D1 * D2) by nia. assert (0 < r1 * r2) by nia.
  apply Z.mul_le_mono_pos_r with (p := (D1 * D2) * (r1 * r2)); [nia|].
  replace (N1 * Q2 * (D1 * D2 * (r1 * r2)))
    with ((N1 * D1 * r1) * (D2 * r2 * Q2)) by ring.
  replace (N2 * Q1 * (D1 * D2 * (r1 * r2)))
    with ((N2 * D2 * r2) * (D1 * r1 * Q1)) by ring.
  rewrite <- V1, <- V2.
  replace (A1 * Q1 * p1 * (D2 * r2 * Q2))
    with ((A1 * D2 * (p1 * r2)) * (Q1 * Q2)) by ring.
  replace (A2 * Q2 * p2 * (D1 * r1 * Q1))
    with ((A2 * D1 * (p2 * r1)) * (Q1 * Q2)) by ring.
  apply Z.mul_le_mono_nonneg_r; [nia|done].
Qed.

(** On valid floats the order of [SFleb] is the order of the values. *)
Lemma SFleb_val m1 e1 m2 e2 N1 Q1 N2 Q2 :
  valid_binary prec emax (S754_finite false m1 e1) = true ->
  valid_binary prec emax (S754_finite false m2 e2) = true ->
  SFleb (S754_finite false m1 e1) (S754_finite false m2 e2) = true ->
  val_eq (Zpos m1) 1 e1 N1 Q1 -> val_eq (Zpos m2) 1 e2 N2 Q2 ->
  0 < Q1 -> 0 < Q2 ->
  N1 * Q2 <= N2 * Q1.
Proof.
  intros (He1 & Hm1 & Hl1)%valid_finite_inv (He2 & Hm2 & Hl2)%valid_finite_inv
    Hle%SFleb_finite_pos (a1 & b1 & Ha1 & Hb1 & HE1 & V1)
    (a2 & b2 & Ha2 & Hb2 & HE2 & V2) HQ1 HQ2.
  eapply (val_eq_cross_rev (Zpos m1) 1 N1 Q1 a1 b1 (Zpos m2) 1 N2 Q2 a2 b2);
    try done.
  rewrite !Z.mul_1_r.
  assert (0 < 2 ^ (a1 + b2)) by (apply Z.pow_pos_nonneg; lia).
  destruct Hle as [Hlt|[Heq Hm]].
  - replace (a2 + b1) with ((a1 + b2) + (a2 + b1 - a1 - b2)) by lia.
    rewrite (Z.pow_add_r 2 (a1 + b2) (a2 + b1 - a1 - b2)) by lia.
    assert (2 ^ 1 <= 2 ^ (a2 + b1 - a1 - b2)) by (apply Z.pow_le_mono_r; lia).
    change (2 ^ 1) with 2 in *. specialize (Hl2 ltac:(lia)).
    change (2 ^ 52) with 4503599627370496 in *.
    change (2 ^ 53) with 9007199254740992 in *.
    set (P := 2 ^ (a1 + b2)) in *. set (K := 2 ^ (a2 + b1 - a1 - b2)) in *.
    clearbody P K.
    assert (Z.pos m1 * P <= 9007199254740992 * P)
      by (apply Z.mul_le_mono_nonneg_r; lia).
    assert (4503599627370496 * (P * 2) <= Z.pos m2 * (P * 2))
      by (apply Z.mul_le_mono_nonneg_r; lia).
    assert (Z.pos m2 * (P * 2) <= Z.pos m2 * (P * K))
      by (apply Z.mul_le_mono_nonneg_l; nia).
    lia.
  - replace (a2 + b1) with (a1 + b2) by lia. nia.
Qed.

(** ** Multiplication *)

Lemma Zdigits2_mul_ge m1 m2 k1 k2 :
  2 ^ k1 <= m1 -> 2 ^ k2 <= m2 -> 0 <= k1 -> 0 <= k2 ->
  k1 + k2 + 1 <= Zdigits2 (m1 * m2).
Proof.
  intros H1 H2 Hk1 Hk2.
  assert (0 < 2 ^ k1) by (apply Z.pow_pos_nonneg; lia).
  assert (0 < 2 ^ k2) by (apply Z.pow_pos_nonneg; lia).
  apply Zdigits2_ge; [|nia].
  replace (k1 + k2 + 1 - 1) with (k1 + k2) by lia.
  rewrite Z.pow_add_r by lia. nia.
Qed.

Lemma fmul_rounded sc mc ec sr mr er N Q N' Q' :
  valid_binary prec emax (S754_finite sc mc ec) = true ->
  valid_binary prec emax (S754_finite sr mr er) = true ->
  val_eq (Zpos mc) 1 ec N Q -> val_eq (Zpos mr) 1 er N' Q' ->
  exists A D E,
    rounded (fmul (S754_finite sc mc ec) (S754_finite sr mr er))
      (xorb sc sr) A D E
    /\ val_eq A D E (N * N') (Q * Q').
Proof.
  intros (Hec & Hmc & Hlc)%valid_finite_inv (Her & Hmr & Hlr)%valid_finite_inv
    (ac & bc & Hac & Hbc & HEc & Vc) (ar & br & Har & Hbr & HEr & Vr).
  unfold fmul, SFmul. rewrite Pos2Z.inj_mul.
  set (m := Zpos mc * Zpos mr). set (e := ec + er).
  assert (He : e <= fexp prec emax (Zdigits2 m + e)).
  { rewrite fexp_eq.
    destruct (Z.le_gt_cases e (-1074)) as [|Hgt]; [lia|].
    assert (53 <= Zdigits2 m); [|lia].
    destruct (Z.eq_dec ec (-1074)) as [Hc|Hc];
      destruct (Z.eq_dec er (-1074)) as [Hr|Hr].
    - unfold e in Hgt. lia.
    - pose proof (Zdigits2_mul_ge (Zpos mc) (Zpos mr) 0 52
                    ltac:(simpl; lia) ltac:(apply Hlr; lia) ltac:(lia) ltac:(lia))
        as Hd.
      fold m in Hd. lia.
    - pose proof (Zdigits2_mul_ge (Zpos mc) (Zpos mr) 52 0
                    ltac:(apply Hlc; lia) ltac:(simpl; lia) ltac:(lia) ltac:(lia))
        as Hd.
      fold m in Hd. lia.
    - pose proof (Zdigits2_mul_ge (Zpos mc) (Zpos mr) 52 52
                    ltac:(apply Hlc; lia) ltac:(apply Hlr; lia) ltac:(lia) ltac:(lia))
        as Hd.
      fold m in Hd. lia. }
  pose proof (binary_round_aux_rounded (xorb sc sr) m e loc_Exact m 1
                ltac:(unfold m; lia) ltac:(lia) (loc_frac_exact _) He) as Hr.
  set (E := fexp prec emax (Zdigits2 m + e)) in *.
  eexists _, _, _. split; [exact Hr|].
  exists (ac + ar + (E - e)), (bc + br). repeat split; try lia.
  rewrite !Z.pow_add_r by lia. unfold m. rewrite Z.mul_1_l.
  rewrite Z.mul_1_r in Vc, Vr.
  replace (Z.pos mc * Z.pos mr * (Q * Q') * (2 ^ ac * 2 ^ ar * 2 ^ (E - e)))
    with ((Z.pos mc * Q * 2 ^ ac) * (Z.pos mr * Q' * 2 ^ ar) * 2 ^ (E - e)) by ring.
  rewrite Vc, Vr. ring.
Qed.

(** ** Division *)

Lemma new_location_frac q r m2 :
  0 < m2 -> 0 <= r < m2 ->
  loc_frac q (new_location m2 r) (q * m2 + r) m2.
Proof.
  intros Hm Hr. unfold new_location, new_location_even, new_location_odd, loc_frac.
  split; [lia|].
  destruct (Z.even m2) eqn:Hev; destruct (Z.eqb_spec r 0) as [->|Hr0];
    try lia.
  - split; [lia|].
    destruct (Z.compare_spec (2 * r) m2);
      [apply Z.compare_eq_iff|apply Z.compare_lt_iff|apply Z.compare_gt_iff]; lia.
  - split; [lia|].
    assert (Hodd : Z.odd m2 = true) by (by rewrite <- Z.negb_even, Hev).
    apply Z.odd_spec in Hodd as [k Hk].
    destruct (Z.compare_spec (2 * r + 1) m2);
      [apply Z.compare_lt_iff|apply Z.compare_lt_iff|apply Z.compare_gt_iff]; lia.
Qed.

Lemma div_core_digits m1 m2 s :
  0 < m1 -> 0 < m2 -> 0 <= s ->
  Zdigits2 m1 + s - Zdigits2 m2 <= Zdigits2 (m1 * 2 ^ s / m2).
Proof.
  intros H1 H2 Hs.
  pose proof (Zdigits2_bounds m1 H1) as B1.
  pose proof (Zdigits2_bounds m2 H2) as B2.
  pose proof (Zdigits2_pos m1 H1). pose proof (Zdigits2_pos m2 H2).
  pose proof (Zdigits2_nonneg (m1 * 2 ^ s / m2)).
  set (k := Zdigits2 m1 + s - Zdigits2 m2).
  destruct (Z.le_gt_cases k 0) as [|Hk]; [lia|].
  assert (Hq : 2 ^ (k - 1) <= m1 * 2 ^ s / m2).
  { apply Z.div_le_lower_bound; [done|].
    assert (0 < 2 ^ s) by (apply Z.pow_pos_nonneg; lia).
    assert (0 < 2 ^ (k - 1)) by (apply Z.pow_pos_nonneg; lia).
    assert (Hup : m2 * 2 ^ (k - 1) <= 2 ^ Zdigits2 m2 * 2 ^ (k - 1))
      by (apply Z.mul_le_mono_nonneg_r; lia).
    rewrite <- Z.pow_add_r in Hup by lia.
    replace (Zdigits2 m2 + (k - 1)) with ((Zdigits2 m1 - 1) + s) in Hup by lia.
    rewrite Z.pow_add_r in Hup by lia.
    assert (2 ^ (Zdigits2 m1 - 1) * 2 ^ s <= m1 * 2 ^ s)
      by (apply Z.mul_le_mono_nonneg_r; lia).
    lia. }
  apply Zdigits2_ge; [done|].
  assert (0 < 2 ^ (k - 1)) by (apply Z.pow_pos_nonneg; lia). lia.
Qed.

Lemma fdiv_rounded sa ma ea sn mn en N Q N' Q' :
  val_eq (Zpos ma) 1 ea N Q -> val_eq (Zpos mn) 1 en N' Q' ->
  exists A D E,
    rounded (fdiv (S754_finite sa ma ea) (S754_finite sn mn en))
      (xorb sa sn) A D E
    /\ val_eq A D E (N * Q') (Q * N').
Proof.
  intros (aa & ba & Haa & Hba & HEa & Va) (an & bn & Han & Hbn & HEn & Vn).
  unfold fdiv, SFdiv, SFdiv_core_binary.
  set (d1 := Zdigits2 (Zpos ma)). set (d2 := Zdigits2 (Zpos mn)).
  set (e' := Z.min (fexp prec emax (d1 + ea - (d2 + en))) (ea - en)).
  set (s := ea - en - e').
  assert (Hs : 0 <= s) by (unfold s, e'; lia).
  set (m' := match s with
             | 0 => Zpos ma
             | Zpos _ => Z.shiftl (Zpos ma) s
             | Zneg _ => 0
             end).
  assert (Hm' : m' = Zpos ma * 2 ^ s).
  { unfold m'. destruct s as [|p|p] eqn:Hsp; [simpl; lia| |lia].
    rewrite Z.shiftl_mul_pow2; lia. }
  clearbody m'.
  pose proof (Z_div_mod m' (Zpos mn) ltac:(lia)) as Hdm.
  assert (Hq : fst (Z.div_eucl m' (Zpos mn)) = m' / Zpos mn) by reflexivity.
  destruct (Z.div_eucl m' (Zpos mn)) as [q r]. simpl in Hq.
  destruct Hdm as [Hdm Hr].
  assert (0 < 2 ^ s) by (apply Z.pow_pos_nonneg; lia).
  assert (Hq0 : 0 <= q) by (rewrite Hq; apply Z.div_pos; nia).
  assert (Hloc : loc_frac q (new_location (Zpos mn) r) m' (Zpos mn)).
  { assert (Heq : m' = q * Zpos mn + r) by lia.
    rewrite Heq. apply new_location_frac; lia. }
  assert (He : e' <= fexp prec emax (Zdigits2 q + e')).
  { pose proof (div_core_digits (Zpos ma) (Zpos mn) s ltac:(lia) ltac:(lia) Hs) as Hd.
    rewrite <- Hm', <- Hq in Hd. fold d1 d2 in Hd.
    unfold e' at 1. rewrite !fexp_eq.
    assert (d1 + ea - (d2 + en) <= Zdigits2 q + e') by (unfold s in Hd; lia).
    lia. }
  pose proof (binary_round_aux_rounded (xorb sa sn) q e' _ m' (Zpos mn)
                Hq0 ltac:(lia) Hloc He) as HR.
  set (E := fexp prec emax (Zdigits2 q + e')) in *.
  eexists _, _, _. split; [exact HR|].
  exists (aa + bn + (E - e')), (s + an + ba). split; [lia|]. split; [lia|].
  split; [unfold s; lia|].
  rewrite !Z.pow_add_r by lia. rewrite Hm'.
  rewrite Z.mul_1_r in Va, Vn.
  assert (0 < 2 ^ ba) by (apply Z.pow_pos_nonneg; lia).
  assert (0 < 2 ^ bn) by (apply Z.pow_pos_nonneg; lia).
  apply Z.mul_reg_r with (p := 2 ^ ba * 2 ^ bn); [nia|].
  replace (Z.pos ma * 2 ^ s * (Q * N') * (2 ^ aa * 2 ^ bn * 2 ^ (E - e')) * (2 ^ ba * 2 ^ bn))
    with ((Z.pos ma * Q * 2 ^ aa) * (N' * 2 ^ bn) * (2 ^ s * 2 ^ bn * 2 ^ (E - e') * 2 ^ ba)) by ring.
  replace (N * Q' * (Z.pos mn * 2 ^ (E - e')) * (2 ^ s * 2 ^ an * 2 ^ ba) * (2 ^ ba * 2 ^ bn))
    with ((N * 2 ^ ba) * (Z.pos mn * Q' * 2 ^ an) * (2 ^ s * 2 ^ bn * 2 ^ (E - e') * 2 ^ ba)) by ring.
  rewrite Va, Vn. reflexivity.
Qed.

Ltac compare_cases :=
  repeat match goal with
  | H : context [Z.compare ?a ?b] |- _ => destruct (Z.compare_spec a b)
  | |- context [Z.compare ?a ?b] => destruct (Z.compare_spec a b)
  | H : context [Pos.compare_cont Eq ?a ?b] |- _ =>
      change (Pos.compare_cont Eq a b) with (Pos.compare a b) in H
  | |- context [Pos.compare_cont Eq ?a ?b] =>
      change (Pos.compare_cont Eq a b) with (Pos.compare a b)
  | H : context [Pos.compare ?a ?b] |- _ => destruct (Pos.compare_spec a b)
  | |- context [Pos.compare ?a ?b] => destruct (Pos.compare_spec a b)
  end.

Lemma SFleb_trans x y z :
  SFleb x y = true -> SFleb y z = true -> SFleb x z = true.
Proof.
  unfold SFleb, SFcompare.
  destruct x as [[]|[]| |[] mx ex], y as [[]|[]| |[] my ey],
    z as [[]|[]| |[] mz ez]; try done;
    intros H1 H2; compare_cases; simpl in *; try done; lia.
Qed.

Lemma SFleb_refl x : x <> S754_nan -> SFleb x x = true.
Proof.
  unfold SFleb, SFcompare. destruct x as [[]|[]| |[] mx ex]; try done;
    intros _; compare_cases; simpl; try done; lia.
Qed.

(** [x == y] implies [x >= y] and [y >= x]. *)
Lemma SFeqb_fge x y : SFeqb x y = true -> fge x y = true /\ fge y x = true.
Proof.
  unfold fge, SFeqb, SFleb, SFcompare.
  destruct x as [[]|[]| |[] mx ex], y as [[]|[]| |[] my ey]; try done;
    intros H; compare_cases; simpl in *; try done; lia.
Qed.

(** ** Shapes of rounded results *)

Lemma rounded_cases f s A D E :
  rounded f s A D E ->
  f = S754_zero s \/ f = S754_infinity s
  \/ exists m e, f = S754_finite s m e.
Proof.
  intros R. destruct (rounded_rne_bounds _ _ _ _ _ R) as [HM _].
  destruct R as (-> & _). unfold pack.
  destruct (rne A D) as [|p|p]; [auto| |lia].
  repeat case_match; eauto.
Qed.

Lemma rounded_normal_cases f s A D E :
  rounded f s A D E -> -1074 < E ->
  f = S754_infinity s \/ exists m e, f = S754_finite s m e.
Proof.
  intros R HE. destruct (rounded_rne_bounds _ _ _ _ _ R) as [HM HL].
  specialize (HL HE). destruct R as (-> & _). unfold pack.
  change (2 ^ 52) with 4503599627370496 in HL.
  destruct (rne A D) as [|p|p]; [lia| |lia].
  repeat case_match; eauto.
Qed.

Lemma SFleb_zero_rounded s0 f A D E :
  rounded f false A D E -> SFleb (S754_zero s0) f = true.
Proof.
  intros [->|[->|(m & e & ->)]]%rounded_cases; reflexivity.
Qed.

Lemma SFleb_rounded_inf f A D E :
  rounded f false A D E -> SFleb f (S754_infinity false) = true.
Proof.
  intros [->|[->|(m & e & ->)]]%rounded_cases; reflexivity.
Qed.

(** ** Conversion of integers *)

Lemma float_of_Z_pos_cases z :
  0 < z ->
  float_of_Z z = S754_infinity false
  \/ exists m e, float_of_Z z = S754_finite false m e
                 /\ valid_binary prec emax (S754_finite false m e) = true.
Proof.
  intros Hz. destruct (float_of_Z_rounded z Hz) as (A & D & R & _).
  pose proof (Zdigits2_pos z Hz).
  destruct (rounded_normal_cases _ _ _ _ _ R ltac:(lia)) as [?|(m & e & Hf)];
    [by left|right].
  exists m, e. split; [done|]. rewrite <- Hf. eapply rounded_valid; eassumption.
Qed.

Lemma float_of_Z_small z :
  0 < z < 2 ^ 63 ->
  exists m e, float_of_Z z = S754_finite false m e.
Proof.
  intros Hz. destruct (float_of_Z_rounded z ltac:(lia)) as (A & D & R & _).
  pose proof (Zdigits2_pos z ltac:(lia)).
  pose proof (Zdigits2_le z 63 ltac:(lia) ltac:(lia) ltac:(lia)).
  destruct (rounded_rne_bounds _ _ _ _ _ R) as [HM HL].
  specialize (HL ltac:(lia)). destruct R as (-> & _). unfold pack.
  change (2 ^ 52) with 4503599627370496 in HL.
  change (emax - prec) with 971.
  destruct (rne A D) as [|p|p]; [lia| |lia].
  destruct (Z.ltb_spec (Zpos p) (2 ^ prec)).
  - destruct (Z.leb_spec (Zdigits2 z - 53) 971); [eauto|lia].
  - destruct (Z.leb_spec (Zdigits2 z - 53 + 1) 971); [eauto|lia].
Qed.

Lemma float_of_Z_mono a b :
  0 <= a <= b -> SFleb (float_of_Z a) (float_of_Z b) = true.
Proof.
  intros Hab. destruct (Z.eq_dec a 0) as [->|Ha].
  - destruct (Z.eq_dec b 0) as [->|Hb]; [reflexivity|].
    destruct (float_of_Z_rounded b ltac:(lia)) as (A & D & R & _).
    change (float_of_Z 0) with (S754_zero false).
    eapply SFleb_zero_rounded; eassumption.
  - destruct (float_of_Z_rounded a ltac:(lia)) as (A1 & D1 & R1 & V1).
    destruct (float_of_Z_rounded b ltac:(lia)) as (A2 & D2 & R2 & V2).
    eapply rounded_mono; try eassumption; lia.
Qed.

(** A count that is not above a convertible one is convertible. *)
Lemma py_float_of_int_below a b bf :
  0 <= a <= b -> py_float_of_int b = Ok bf ->
  py_float_of_int a = Ok (float_of_Z a) /\ bf = float_of_Z b.
Proof.
  intros Hab Hb. pose proof (float_of_Z_mono a b Hab) as Hle.
  unfold py_float_of_int in *.
  destruct (Z.eq_dec a 0) as [->|Ha]; [split; [done|by repeat case_match; simplify_eq]|].
  destruct (float_of_Z_pos_cases a ltac:(lia)) as [Hi|(m & e & Hf & _)];
    destruct (float_of_Z_pos_cases b ltac:(lia)) as [Hi'|(m' & e' & Hf' & _)];
    rewrite ?Hi, ?Hi', ?Hf, ?Hf' in *; try done.
  - split; [done|]. by injection Hb.
Qed.

Lemma py_float_of_int_Ok z f :
  py_float_of_int z = Ok f -> f = float_of_Z z.
Proof. unfold py_float_of_int. by repeat case_match; intros [= <-]. Qed.

(** ** Monotonicity of the two float operations of [is_viable] *)

Lemma fmul_finite_mono m1 e1 m2 e2 mr er :
  valid_binary prec emax (S754_finite false m1 e1) = true ->
  valid_binary prec emax (S754_finite false m2 e2) = true ->
  valid_binary prec emax (S754_finite false mr er) = true ->
  SFleb (S754_finite false m1 e1) (S754_finite false m2 e2) = true ->
  SFleb (fmul (S754_finite false m1 e1) (S754_finite false mr er))
        (fmul (S754_finite false m2 e2) (S754_finite false mr er)) = true.
Proof.
  intros V1 V2 Vr Hle.
  destruct (finite_val m1 e1) as (N1 & Q1 & HQ1 & HN1 & Hv1).
  destruct (finite_val m2 e2) as (N2 & Q2 & HQ2 & HN2 & Hv2).
  destruct (finite_val mr er) as (N' & Q' & HQ' & HN' & Hv').
  pose proof (SFleb_val _ _ _ _ _ _ _ _ V1 V2 Hle Hv1 Hv2 HQ1 HQ2) as Hord.
  destruct (fmul_rounded false m1 e1 false mr er _ _ _ _ V1 Vr Hv1 Hv')
    as (A1 & D1 & E1 & R1 & W1).
  destruct (fmul_rounded false m2 e2 false mr er _ _ _ _ V2 Vr Hv2 Hv')
    as (A2 & D2 & E2 & R2 & W2).
  eapply rounded_mono; try eassumption; nia.
Qed.

(** Raising a non-negative cutoff does not lower the threshold
    [cutoff * r] for a non-negative reference count [r]. *)
Lemma fmul_mono c1 c2 r rf :
  valid_binary prec emax c1 = true -> valid_binary prec emax c2 = true ->
  SFleb (S754_zero false) c1 = true -> SFleb c1 c2 = true ->
  0 <= r -> py_float_of_int r = Ok rf ->
  fmul c2 rf <> S754_nan ->
  SFleb (fmul c1 rf) (fmul c2 rf) = true.
Proof.
  intros V1 V2 H0 Hle Hr Hrf Hnan.
  apply py_float_of_int_Ok in Hrf as Hrf'. subst rf.
  destruct (Z.eq_dec r 0) as [->|Hr0].
  - change (float_of_Z 0) with (S754_zero false) in *.
    destruct c1 as [[]|[]| |[] m1 e1], c2 as [[]|[]| |[] m2 e2]; done.
  - unfold py_float_of_int in Hrf.
    destruct (float_of_Z_pos_cases r ltac:(lia)) as [Hi|(mr & er & Hf & Vr)];
      [by rewrite Hi in Hrf|].
    rewrite Hf in *.
    assert (HR : forall m e,
      valid_binary prec emax (S754_finite false m e) = true ->
      exists A D E,
        rounded (fmul (S754_finite false m e) (S754_finite false mr er))
          false A D E).
    { intros m e V.
      destruct (finite_val m e) as (N & Q & _ & _ & Hv).
      destruct (finite_val mr er) as (N' & Q' & _ & _ & Hv').
      destruct (fmul_rounded false m e false mr er _ _ _ _ V Vr Hv Hv')
        as (A & D & E & R & _). eauto. }
    destruct c1 as [[]|[]| |[] m1 e1], c2 as [[]|[]| |[] m2 e2]; try done.
    + destruct (HR m2 e2 V2) as (A & D & E & R).
      eapply SFleb_zero_rounded; eassumption.
    + destruct (HR m2 e2 V2) as (A & D & E & R).
      eapply SFleb_zero_rounded; eassumption.
    + destruct (HR m1 e1 V1) as (A & D & E & R).
      eapply SFleb_rounded_inf; eassumption.
    + by apply fmul_finite_mono.
Qed.

Lemma fdiv_finite_mono m1 e1 m2 e2 mn en :
  valid_binary prec emax (S754_finite false m1 e1) = true ->
  valid_binary prec emax (S754_finite false m2 e2) = true ->
  SFleb (S754_finite false m1 e1) (S754_finite false m2 e2) = true ->
  SFleb (fdiv (S754_finite false m1 e1) (S754_finite false mn en))
        (fdiv (S754_finite false m2 e2) (S754_finite false mn en)) = true.
Proof.
  intros V1 V2 Hle.
  destruct (finite_val m1 e1) as (N1 & Q1 & HQ1 & HN1 & Hv1).
  destruct (finite_val m2 e2) as (N2 & Q2 & HQ2 & HN2 & Hv2).
  destruct (finite_val mn en) as (N' & Q' & HQ' & HN' & Hv').
  pose proof (SFleb_val _ _ _ _ _ _ _ _ V1 V2 Hle Hv1 Hv2 HQ1 HQ2) as Hord.
  destruct (fdiv_rounded false m1 e1 false mn en _ _ _ _ Hv1 Hv')
    as (A1 & D1 & E1 & R1 & W1).
  destruct (fdiv_rounded false m2 e2 false mn en _ _ _ _ Hv2 Hv')
    as (A2 & D2 & E2 & R2 & W2).
  eapply rounded_mono; try eassumption; nia.
Qed.

(** The proportion [a / n] does not decrease with the count [a]. *)
Lemma proportion_mono a b n nf :
  0 <= a <= b -> b <= n -> 0 < n -> py_float_of_int n = Ok nf ->
  py_float_of_int a = Ok (float_of_Z a)
  /\ py_float_of_int b = Ok (float_of_Z b)
  /\ (exists mn en, nf = S754_finite false mn en)
  /\ SFleb (fdiv (float_of_Z a) nf) (fdiv (float_of_Z b) nf) = true.
Proof.
  intros Hab Hbn Hn Hnf.
  destruct (py_float_of_int_below a n nf ltac:(lia) Hnf) as [Ha ->].
  destruct (py_float_of_int_below b n _ ltac:(lia) Hnf) as [Hb _].
  split; [done|]. split; [done|].
  unfold py_float_of_int in Hnf, Ha, Hb.
  destruct (float_of_Z_pos_cases n Hn) as [Hi|(mn & en & Hf & Vn)];
    [by rewrite Hi in Hnf|].
  rewrite Hf. split; [eauto|].
  pose proof (float_of_Z_mono a b Hab) as Hle.
  assert (HR : forall m e, exists A D E,
    rounded (fdiv (S754_finite false m e) (S754_finite false mn en)) false A D E).
  { intros m e.
    destruct (finite_val m e) as (N & Q & _ & _ & Hv).
    destruct (finite_val mn en) as (N' & Q' & _ & _ & Hv').
    destruct (fdiv_rounded false m e false mn en _ _ _ _ Hv Hv')
      as (A & D & E & R & _). eauto. }
  destruct (Z.eq_dec b 0) as [->|Hb0].
  { assert (a = 0) as -> by lia. reflexivity. }
  destruct (float_of_Z_pos_cases b ltac:(lia)) as [Hi|(mb & eb & Hfb & Vb)];
    [by rewrite Hi in Hb|].
  rewrite Hfb in *.
  destruct (Z.eq_dec a 0) as [->|Ha0].
  { change (float_of_Z 0) with (S754_zero false).
    destruct (HR mb eb) as (A & D & E & R).
    change (fdiv (S754_zero false) (S754_finite false mn en)) with (S754_zero false).
    eapply SFleb_zero_rounded; eassumption. }
  destruct (float_of_Z_pos_cases a ltac:(lia)) as [Hi|(ma & ea & Hfa & Va)];
    [by rewrite Hi in Ha|].
  rewrite Hfa in *. by apply fdiv_finite_mono.
Qed.

(** * The viability classifier *)

Lemma keys_length (P : gmap string Z) : length (keys P) = size P.
Proof. unfold keys. by rewrite length_fmap, length_map_to_list. Qed.

Lemma keys_elem (P : gmap string Z) i : i ∈ keys P <-> is_Some (P !! i).
Proof.
  unfold keys. rewrite list_elem_of_fmap. split.
  - intros ([k v] & -> & Hin). apply elem_of_map_to_list in Hin. by exists v.
  - intros [v Hv]. exists (i, v). split; [done|]. by apply elem_of_map_to_list.
Qed.

Lemma functional_spec self sperm i g r rf :
  proteome sperm !! i = Some g -> ref self !! i = Some r ->
  py_float_of_int r = Ok rf ->
  functional self sperm i
  = Ok (spec_functional (ref self) (cutoff self) (proteome sperm) i).
Proof.
  intros Hg Hr Hrf. unfold functional, spec_functional, getitem.
  rewrite Hg, Hr. rewrite !result_bind_eq, Hrf.
  by rewrite (py_float_of_int_Ok _ _ Hrf).
Qed.

(** The counting loop of [is_viable]. *)
Lemma count_loop_spec self sperm l acc :
  (forall i, i ∈ l -> exists g r rf,
     proteome sperm !! i = Some g /\ ref self !! i = Some r
     /\ py_float_of_int r = Ok rf) ->
  foldR (fun (prot_count : Z) i =>
           b ← functional self sperm i;
           mret (if b : bool then prot_count + 1 else prot_count)) acc l
  = Ok (acc + Z.of_nat (length
          (filter (fun i => spec_functional (ref self) (cutoff self)
                              (proteome sperm) i = true) l))).
Proof.
  revert acc; induction l as [|i l IH]; intros acc Hl.
  - simpl. f_equal. lia.
  - destruct (Hl i ltac:(left)) as (g & r & rf & Hg & Hr & Hrf).
    rewrite foldR_cons, result_bind_eq, (functional_spec _ _ _ _ _ _ Hg Hr Hrf).
    cbv beta iota. unfold mret at 1, result_ret.
    rewrite IH by (intros j Hj; apply Hl; by right).
    f_equal. rewrite filter_cons.
    destruct (spec_functional _ _ _ i); case_decide; try done;
      simpl length; lia.
Qed.

Lemma functional_inv self sperm i b :
  functional self sperm i = Ok b ->
  exists g r rf, proteome sperm !! i = Some g /\ ref self !! i = Some r
                 /\ py_float_of_int r = Ok rf.
Proof.
  unfold functional, getitem.
  destruct (proteome sperm !! i) as [g|] eqn:Hg; [|done].
  destruct (ref self !! i) as [r|] eqn:Hr; [|done].
  rewrite !result_bind_eq.
  destruct (py_float_of_int r) as [rf|] eqn:Hrf; [|done]. intros _. eauto 10.
Qed.

Lemma count_loop_inv self sperm l acc n :
  foldR (fun (prot_count : Z) i =>
           b ← functional self sperm i;
           mret (if b : bool then prot_count + 1 else prot_count)) acc l = Ok n ->
  forall i, i ∈ l -> exists g r rf,
    proteome sperm !! i = Some g /\ ref self !! i = Some r
    /\ py_float_of_int r = Ok rf.
Proof.
  revert acc; induction l as [|j l IH]; intros acc Hn i Hi.
  - by apply elem_of_nil in Hi.
  - rewrite foldR_cons, result_bind_eq in Hn.
    destruct (functional self sperm j) as [b|e] eqn:Hf; simpl in Hn; [|done].
    apply elem_of_cons in Hi as [->|Hi].
    + eapply functional_inv; eassumption.
    + eapply IH; eassumption.
Qed.

(** C3 (viability classifier): whenever [is_viable] returns, its verdict is
    the specification's: true iff the number of proteins [i] with
    [gamete[i] >= cutoff * reference[i]], divided by the number of proteins
    of the gamete, is [>= crucial_prot], all in double arithmetic.  It
    returns on every gamete with at least one protein whose proteins all
    have a convertible reference count.  Both comparisons are inclusive: a
    count equal to its threshold is functional and a proportion equal to
    [crucial_prot] is viable. *)
Theorem is_viable_spec (self : Spermatogenesis) (sperm : Cell) :
  (forall b, is_viable self sperm = Ok b ->
     b = spec_is_viable (ref self) (cutoff self) (crucial_prot self)
           (proteome sperm))
  /\ (proteome sperm <> ∅ ->
      Z.of_nat (size (proteome sperm)) < 2 ^ 63 ->
      covered (ref self) (proteome sperm) ->
      exists b, is_viable self sperm = Ok b)
  /\ (forall i g r,
        proteome sperm !! i = Some g -> ref self !! i = Some r ->
        SFeqb (float_of_Z g) (fmul (cutoff self) (float_of_Z r)) = true ->
        spec_functional (ref self) (cutoff self) (proteome sperm) i = true)
  /\ (SFeqb (spec_proportion (ref self) (cutoff self) (proteome sperm))
        (crucial_prot self) = true ->
      spec_is_viable (ref self) (cutoff self) (crucial_prot self)
        (proteome sperm) = true).
Proof.
  split; [|split; [|split]].
  - intros b. unfold is_viable. rewrite result_bind_eq.
    destruct (foldR _ 0 (keys (proteome sperm))) as [cnt|e] eqn:Hloop; [|done].
    pose proof (count_loop_inv _ _ _ _ _ Hloop) as Hcov.
    rewrite count_loop_spec in Hloop by done. injection Hloop as <-.
    rewrite result_bind_eq, Z.add_0_l, keys_length.
    destruct (py_float_of_int (Z.of_nat (size (proteome sperm))))
      as [nf|e] eqn:Hnf; [|done].
    apply py_float_of_int_Ok in Hnf as ->.
    rewrite result_bind_eq.
    set (cnt := Z.of_nat (length (filter _ _))).
    destruct (py_float_of_int cnt) as [c|e] eqn:Hc; [|done].
    apply py_float_of_int_Ok in Hc as ->.
    rewrite result_bind_eq. unfold py_truediv.
    destruct (float_of_Z (Z.of_nat (size (proteome sperm)))) eqn:Hn;
      try done; cbv beta iota; intros [= <-];
      unfold spec_is_viable, spec_proportion; fold cnt; rewrite Hn;
      by destruct (fge _ _).
  - intros Hne Hsize Href. unfold is_viable.
    rewrite result_bind_eq, count_loop_spec.
    2:{ intros i Hi. apply keys_elem in Hi as Hi'. destruct Hi' as [g Hg].
        destruct (Href i ltac:(eauto)) as (r & rf & Hr & Hrf). eauto 10. }
    rewrite result_bind_eq, Z.add_0_l, keys_length.
    assert (Hpos : 0 < Z.of_nat (size (proteome sperm))).
    { apply map_size_non_empty_iff in Hne. lia. }
    destruct (float_of_Z_small _ (conj Hpos Hsize)) as (mn & en & Hn).
    assert (Hnf : py_float_of_int (Z.of_nat (size (proteome sperm)))
                  = Ok (S754_finite false mn en)).
    { unfold py_float_of_int. by rewrite Hn. }
    rewrite Hnf, result_bind_eq.
    set (cnt := Z.of_nat (length (filter _ _))).
    assert (Hcnt : 0 <= cnt <= Z.of_nat (size (proteome sperm))).
    { unfold cnt. split; [lia|]. rewrite <- keys_length.
      apply inj_le, length_filter. }
    destruct (py_float_of_int_below cnt _ _ Hcnt Hnf) as [Hc _].
    rewrite Hc, result_bind_eq. simpl py_truediv. cbv beta iota. eauto.
  - intros i g r Hg Hr Heq. unfold spec_functional. rewrite Hg, Hr.
    by apply SFeqb_fge in Heq as [? _].
  - intros Heq. unfold spec_is_viable. by apply SFeqb_fge in Heq as [? _].
Qed.

(** ** Raising the cutoff *)

Lemma sum_bools_from (l : list bool) acc :
  foldl (fun acc (b : bool) => acc + (if b then 1 else 0)) acc l
  = acc + sum_bools l.
Proof.
  unfold sum_bools. revert acc; induction l as [|b l IH]; intros acc; simpl.
  - lia.
  - rewrite IH, (IH (0 + _)). lia.
Qed.

Lemma sum_bools_cons b l :
  sum_bools (b :: l) = (if b then 1 else 0) + sum_bools l.
Proof. unfold sum_bools at 1. simpl. by rewrite sum_bools_from. Qed.

Section Cutoffs.

(** Two valid doubles with [0 <= c1 <= c2], and a simulator whose reference
    has no negative count. *)
Context (c1 c2 : float) (self : Spermatogenesis).
Hypothesis valid_c1 : valid_binary prec emax c1 = true.
Hypothesis valid_c2 : valid_binary prec emax c2 = true.
Hypothesis c1_nonneg : fge c1 (S754_zero false) = true.
Hypothesis c1_le_c2 : fge c2 c1 = true.
Hypothesis ref_nonneg : nonneg (ref self).

(** A count that reaches the threshold under [c2] reaches it under [c1]. *)
Lemma fge_fmul_mono r rf g :
  0 <= r -> py_float_of_int r = Ok rf ->
  fge g (fmul c2 rf) = true -> fge g (fmul c1 rf) = true.
Proof.
  unfold fge in *. intros Hr Hrf Hg.
  eapply SFleb_trans; [|exact Hg].
  eapply fmul_mono; try eassumption.
  intros Hnan. rewrite Hnan in Hg. done.
Qed.

Lemma functional_agree sperm i :
  agree (fun b1 b2 : bool => b2 = true -> b1 = true)
    (functional (with_cutoff self c1) sperm i)
    (functional (with_cutoff self c2) sperm i).
Proof.
  unfold functional, getitem. simpl.
  destruct (proteome sperm !! i) as [g|]; [|right; eauto].
  destruct (ref self !! i) as [r|] eqn:Hr; [|right; eauto].
  rewrite !result_bind_eq.
  destruct (py_float_of_int r) as [rf|e] eqn:Hrf; [|right; eauto].
  left. eexists _, _. split; [reflexivity|]. split; [reflexivity|].
  eapply fge_fmul_mono; try eassumption. exact (ref_nonneg i r Hr).
Qed.

Lemma count_loop_agree sperm l acc1 acc2 :
  0 <= acc2 <= acc1 ->
  agree (fun n1 n2 => 0 <= n2 <= n1 /\ n1 <= acc1 + Z.of_nat (length l))
    (foldR (fun (prot_count : Z) i =>
              b ← functional (with_cutoff self c1) sperm i;
              mret (if b : bool then prot_count + 1 else prot_count)) acc1 l)
    (foldR (fun (prot_count : Z) i =>
              b ← functional (with_cutoff self c2) sperm i;
              mret (if b : bool then prot_count + 1 else prot_count)) acc2 l).
Proof.
  revert acc1 acc2.
  induction l as [|i l IH]; intros acc1 acc2 Hacc.
  - left. exists acc1, acc2. simpl. repeat split; try done; lia.
  - destruct (functional_agree sperm i)
      as [(b1 & b2 & Hf1 & Hf2 & Hb)|(e & Hf1 & Hf2)].
    + set (a1 := if b1 then acc1 + 1 else acc1).
      set (a2 := if b2 then acc2 + 1 else acc2).
      assert (Ha : 0 <= a2 <= a1 /\ a1 <= acc1 + 1).
      { unfold a1, a2. destruct b1, b2; lia. }
      rewrite (foldR_cons_ok _ acc1 i l a1) by (by rewrite result_bind_eq, Hf1).
      rewrite (foldR_cons_ok _ acc2 i l a2) by (by rewrite result_bind_eq, Hf2).
      destruct (IH a1 a2 ltac:(lia))
        as [(n1 & n2 & -> & -> & Hn)|(e & -> & ->)]; [|right; eauto].
      left. exists n1, n2. repeat split; try done; try lia.
      simpl length. lia.
    + right. exists e.
      rewrite !(foldR_cons_raise _ _ i l e); [done|..];
        by rewrite result_bind_eq, ?Hf1, ?Hf2.
Qed.

(** A gamete viable under [c2] is viable under [c1]. *)
Lemma is_viable_agree sperm :
  agree (fun b1 b2 : bool => b2 = true -> b1 = true)
    (is_viable (with_cutoff self c1) sperm)
    (is_viable (with_cutoff self c2) sperm).
Proof.
  unfold is_viable. rewrite !result_bind_eq.
  destruct (count_loop_agree sperm (keys (proteome sperm)) 0 0 ltac:(lia))
    as [(n1 & n2 & -> & -> & Hn)|(e & -> & ->)]; [|right; eauto].
  rewrite !result_bind_eq.
  set (len := Z.of_nat (length (keys (proteome sperm)))) in *.
  destruct (py_float_of_int len) as [nf|e] eqn:Hnf; [|right; eauto].
  destruct (Z.eq_dec len 0) as [Hz|Hz].
  - assert (n1 = 0 /\ n2 = 0) as [-> ->] by lia. rewrite Hz in Hnf.
    injection Hnf as <-. right. exists ZeroDivisionError. done.
  - destruct (proportion_mono n2 n1 len nf ltac:(lia) ltac:(lia) ltac:(lia) Hnf)
      as (-> & -> & (mn & en & ->) & Hp).
    left. rewrite !result_bind_eq. simpl py_truediv. cbv beta iota.
    unfold mret, result_ret. simpl crucial_prot.
    eexists _, _. split; [reflexivity|]. split; [reflexivity|].
    destruct (fge (fdiv (float_of_Z n2) _) _) eqn:H2; [|done].
    intros _. unfold fge in *.
    by rewrite (SFleb_trans _ _ _ H2 Hp).
Qed.

Lemma classify_all_agree sperms :
  agree (fun l1 l2 => sum_bools l2 <= sum_bools l1)
    (mapR (is_viable (with_cutoff self c1)) sperms)
    (mapR (is_viable (with_cutoff self c2)) sperms).
Proof.
  induction sperms as [|sperm sperms IH].
  - left. exists [], []. done.
  - rewrite !mapR_cons.
    destruct (is_viable_agree sperm)
      as [(b1 & b2 & -> & -> & Hb)|(e & -> & ->)]; [|right; eauto].
    destruct IH as [(l1 & l2 & -> & -> & Hl)|(e & -> & ->)]; [|right; eauto].
    left. eexists _, _. split; [reflexivity|]. split; [reflexivity|].
    rewrite !sum_bools_cons. destruct b1, b2; lia.
Qed.

Lemma get_viable_sprems_agree :
  agree (fun n1 n2 => n2 <= n1)
    (get_viable_sprems (with_cutoff self c1))
    (get_viable_sprems (with_cutoff self c2)).
Proof.
  unfold get_viable_sprems. simpl load.
  destruct (load self) as [sperms|]; [|right; eauto].
  rewrite !result_bind_eq.
  destruct (classify_all_agree sperms)
    as [(l1 & l2 & -> & -> & Hl)|(e & -> & ->)]; [left|right; eauto].
  eexists _, _. split; [reflexivity|]. split; [reflexivity|done].
Qed.

End Cutoffs.

(** ** The same draws under two cutoffs *)

Lemma make_sperms_loop_with_cutoff n self c sperms g :
  make_sperms_loop n (with_cutoff self c) sperms g
  = match make_sperms_loop n self sperms g with
    | Ok (self', sperms', g') => Ok (with_cutoff self' c, sperms', g')
    | Raise e => Raise e
    end.
Proof.
  revert self sperms g; induction n as [|n IH]; intros self sperms g.
  - reflexivity.
  - simpl make_sperms_loop. rewrite !bind_eq.
    change (do_meiosis (with_cutoff self c) g) with (do_meiosis self g).
    destruct (do_meiosis self g) as [[one_round g1]|e]; [|done].
    rewrite !bind_eq. simpl ref. simpl cv.
    destruct (randomize_proteome (ref self) (cv self) g1) as [[rp g2]|e]; [|done].
    apply (IH (generate_spermatogonia self rp)).
Qed.

Lemma make_sperms_with_cutoff self c t g :
  make_sperms (with_cutoff self c) t g
  = match make_sperms self t g with
    | Ok (self', g') => Ok (with_cutoff self' c, g')
    | Raise e => Raise e
    end.
Proof.
  unfold make_sperms. rewrite !bind_eq, make_sperms_loop_with_cutoff.
  by destruct (make_sperms_loop (Z.to_nat t) self [] g) as [[[self' sperms'] g']|e].
Qed.

Lemma make_sperms_loop_ref n self sperms g self' sperms' g' :
  make_sperms_loop n self sperms g = Ok (self', sperms', g') ->
  ref self' = ref self.
Proof.
  revert self sperms g; induction n as [|n IH]; intros self sperms g;
    simpl make_sperms_loop.
  - by intros [= <- _ _].
  - rewrite !bind_eq.
    destruct (do_meiosis self g) as [[one_round g1]|e]; [|done].
    rewrite !bind_eq.
    destruct (randomize_proteome (ref self) (cv self) g1) as [[rp g2]|e]; [|done].
    intros H. by apply IH in H.
Qed.

Lemma make_sperms_ref self t g self' g' :
  make_sperms self t g = Ok (self', g') -> ref self' = ref self.
Proof.
  unfold make_sperms. rewrite bind_eq.
  destruct (make_sperms_loop (Z.to_nat t) self [] g)
    as [[[self1 sperms1] g1]|e] eqn:Hl; [|done].
  intros [= <- _]. simpl. eapply make_sperms_loop_ref; eassumption.
Qed.

(** C5 (monotonicity in the cutoff): with the reference, [crucial_prot] and
    the gametes fixed, for valid doubles [0 <= cutoff1 <= cutoff2] and a
    reference without negative counts, the number of viable gametes under
    [cutoff2] is at most the number under [cutoff1] (or counting fails with
    the same exception under both).  The same holds for whole runs from the
    same generator state: the draws, hence the gametes, do not depend on the
    cutoff. *)
Theorem viable_count_antitone (self : Spermatogenesis) (cutoff1 cutoff2 : float) :
  valid_binary prec emax cutoff1 = true ->
  valid_binary prec emax cutoff2 = true ->
  fge cutoff1 (S754_zero false) = true ->
  fge cutoff2 cutoff1 = true ->
  nonneg (ref self) ->
  agree (fun n1 n2 => n2 <= n1)
    (get_viable_sprems (with_cutoff self cutoff1))
    (get_viable_sprems (with_cutoff self cutoff2))
  /\ forall t g,
       agree (fun r1 r2 => r2.1 <= r1.1 /\ r1.2 = r2.2)
         (viable_after (with_cutoff self cutoff1) t g)
         (viable_after (with_cutoff self cutoff2) t g).
Proof.
  intros V1 V2 H0 Hle Hnn.
  split; [by apply get_viable_sprems_agree|].
  intros t g. unfold viable_after. rewrite !bind_eq, !make_sperms_with_cutoff.
  destruct (make_sperms self t g) as [[self' g']|e] eqn:Hm; [|right; eauto].
  rewrite !lift_eq.
  destruct (get_viable_sprems_agree cutoff1 cutoff2 self' V1 V2 H0 Hle)
    as [(n1 & n2 & -> & -> & Hn)|(e & -> & ->)]; [|left|right; eauto].
  - by rewrite (make_sperms_ref _ _ _ _ _ Hm).
  - eexists _, _. split; [reflexivity|]. split; [reflexivity|done].
Qed.

(** ** Errors *)

Lemma is_viable_empty self sperm :
  proteome sperm = ∅ -> is_viable self sperm = Raise ZeroDivisionError.
Proof.
  intros He. unfold is_viable, keys. rewrite He, map_to_list_empty. reflexivity.
Qed.

(** C6 (amended): [fission] fails with numpy's [ValueError] as soon as some
    count of the parent proteome is negative, and [is_viable] fails with
    [ZeroDivisionError] on a gamete without proteins; the code has no
    [InvalidProteomeState] error. *)
Theorem invalid_state_errors (P : gmap string Z) (i : string) (n : Z)
  (g : RandomState) (self : Spermatogenesis) (sperm : Cell) :
  P !! i = Some n -> n < 0 -> proteome sperm = ∅ ->
  fission P g = Raise ValueError
  /\ is_viable self sperm = Raise ZeroDivisionError.
Proof.
  intros Hi Hn He. split.
  - eapply fission_negative; eassumption.
  - by apply is_viable_empty.
Qed.

(** C6 (as stated, refuted): on the proteome [{A: -1}] and on the empty
    gamete the exceptions raised are [ValueError] and [ZeroDivisionError],
    not [InvalidProteomeState]. *)
Lemma invalid_state_not_reported :
  fission P_neg g0 = Raise ValueError
  /\ fission P_neg g0 <> Raise InvalidProteomeState
  /\ is_viable s0 (mkCell ∅) = Raise ZeroDivisionError
  /\ is_viable s0 (mkCell ∅) <> Raise InvalidProteomeState.
Proof. repeat split; try done; vm_compute; congruence. Qed.

(** ** A negative coefficient of variation *)

Lemma binary_round_aux_sign s m e l :
  binary_round_aux prec emax s m e l = S754_nan
  \/ signbit (binary_round_aux prec emax s m e l) = s.
Proof.
  unfold binary_round_aux.
  destruct (shr_fexp prec emax m e l) as [mrs' e'].
  destruct (shr_fexp prec emax _ e' loc_Exact) as [mrs'' e''].
  destruct (shr_m mrs''); auto. destruct (_ <=? _); auto.
Qed.

(** The product of a double with clear sign bit and one with set sign
    bit has its sign bit set, unless it is NaN. *)
Lemma signbit_fmul_neg mean_f cv0 :
  signbit mean_f = false -> signbit cv0 = true ->
  signbit (fmul mean_f cv0) = true \/ fmul mean_f cv0 = S754_nan.
Proof.
  destruct mean_f as [[]|[]| |[] mm em], cv0 as [[]|[]| |[] mc ec];
    try done; auto.
  intros _ _. unfold fmul. simpl SFmul.
  destruct (binary_round_aux_sign true (Zpos (mm * mc)) (em + ec) loc_Exact);
    auto.
Qed.

Lemma py_float_of_int_raises z e :
  py_float_of_int z = Raise e -> e = OverflowError.
Proof. unfold py_float_of_int. by repeat case_match; intros [= <-]. Qed.

(** With the sign bit of [cv] set, drawing the count of a protein whose
    reference count is not negative fails where the count is converted
    or in the sampler. *)
Lemma draw_count_negative_cv self_ref self_cv i r g :
  self_ref !! i = Some r -> 0 <= r -> signbit self_cv = true ->
  draw_count self_ref self_cv i g
  = match py_float_of_int r with
    | Ok _ => Raise ValueError
    | Raise e => Raise e
    end.
Proof.
  intros Hr Hr0 Hc. unfold draw_count, getitem.
  rewrite bind_eq, lift_eq, Hr, bind_eq, lift_eq.
  destruct (py_float_of_int r) as [f|e] eqn:Hf; [|done].
  rewrite bind_eq.
  apply py_float_of_int_Ok in Hf as Hf'. subst f.
  assert (Hs : signbit (float_of_Z r) = false).
  { destruct (Z.eq_dec r 0) as [->|Hne]; [done|].
    destruct (float_of_Z_pos_cases r ltac:(lia)) as [-> |(m & e & -> & _)];
      done. }
  unfold normal.
  destruct (signbit_fmul_neg _ _ Hs Hc) as [-> | ->]; [done|].
  simpl signbit. cbv beta iota. rewrite lift_eq.
  replace (fadd (float_of_Z r) (fmul S754_nan (gauss g (gauss_pos g))))
    with S754_nan; [done|].
  unfold fadd, fmul. simpl SFmul. by destruct (float_of_Z r).
Qed.

Lemma randomize_negative_cv self_ref self_cv g :
  self_ref <> ∅ -> nonneg self_ref -> signbit self_cv = true ->
  exists e,
    randomize_proteome self_ref self_cv g = Raise e
    /\ (e = ValueError \/ e = OverflowError)
    /\ (convertible self_ref -> e = ValueError).
Proof.
  intros Hne Hnn Hc. unfold randomize_proteome.
  destruct (keys self_ref) as [|i l] eqn:Hk.
  { exfalso. apply Hne, map_size_empty_inv.
    by rewrite <- keys_length, Hk. }
  assert (Hi : i ∈ keys self_ref) by (rewrite Hk; left).
  apply keys_elem in Hi as [r Hr].
  pose proof (draw_count_negative_cv _ _ _ r g Hr (Hnn i r Hr) Hc) as Hd.
  destruct (py_float_of_int r) as [f|e] eqn:Hf.
  - exists ValueError. split; [|by auto].
    apply foldM_cons_raise. by rewrite bind_eq, Hd.
  - exists e. apply py_float_of_int_raises in Hf as He. subst e.
    split; [apply foldM_cons_raise; by rewrite bind_eq, Hd|].
    split; [by auto|]. intros Hconv.
    destruct (Hconv i r Hr) as [f Hf']. congruence.
Qed.

(** C7 (amended): construction checks the type of [cutoff] and
    [crucial_prot], not their range: with two floats, whatever their values,
    its outcome is that of sampling the founder, and the thresholds are
    stored as given; it never raises [InvalidConfiguration].  A [cv] whose
    sign bit is set (a negative [cv], [-0.0] included) is rejected at
    construction when the reference is not empty and its counts are
    non-negative: by a [ValueError] when every reference count is within
    the range of doubles (for a finite negative [cv], that of the sampler
    on the negative scale), and by a [ValueError] or the [OverflowError] of
    the conversion to [float] when some count is beyond it. *)
Theorem init_checks_no_range (ref0 : gmap string Z) (x y cv0 : float)
  (g : RandomState) :
  __init__ ref0 (PyFloat x) (PyFloat y) cv0 g
  = match randomize_proteome ref0 cv0 g with
    | Ok (random_proteome, g') =>
        Ok (mkSpermatogenesis ref0 cv0 (mkCell random_proteome) x y None, g')
    | Raise e => Raise e
    end
  /\ (forall c p, __init__ ref0 c p cv0 g <> Raise InvalidConfiguration)
  /\ (ref0 <> ∅ -> nonneg ref0 -> convertible ref0 -> signbit cv0 = true ->
      __init__ ref0 (PyFloat x) (PyFloat y) cv0 g = Raise ValueError)
  /\ (ref0 <> ∅ -> nonneg ref0 -> signbit cv0 = true ->
      exists e, __init__ ref0 (PyFloat x) (PyFloat y) cv0 g = Raise e
                /\ (e = ValueError \/ e = OverflowError)).
Proof.
  split; [reflexivity|]. split; [|split].
  - intros c p.
    destruct c; try done. destruct p; try done. rewrite init_float.
    destruct (randomize_proteome ref0 cv0 g) as [[rp g']|e] eqn:Hr; [done|].
    intros [= ->].
    by destruct (randomize_proteome_raises _ _ _ _ Hr) as [?|[?|?]].
  - intros Hne Hnn Hconv Hc.
    destruct (randomize_negative_cv ref0 cv0 g Hne Hnn Hc) as (e & He & _ & Hv).
    by rewrite init_float, He, (Hv Hconv).
  - intros Hne Hnn Hc.
    destruct (randomize_negative_cv ref0 cv0 g Hne Hnn Hc) as (e & He & Hcases & _).
    exists e. by rewrite init_float, He.
Qed.

(** C7 (as stated, refuted): constructing with [cutoff = crucial_prot = 2.0]
    succeeds and stores both values. *)
Lemma init_accepts_out_of_range :
  exists self g,
    __init__ P0 (PyFloat f_two) (PyFloat f_two) f_fifth g0 = Ok (self, g)
    /\ cutoff self = f_two /\ crucial_prot self = f_two.
Proof. eexists _, _. split; [vm_compute; reflexivity|done]. Qed.

(** * Further properties *)

(** ** The daughters of [fission] *)

Lemma dict_of_zip_eq ks vs :
  NoDup ks -> length ks = length vs ->
  dict_of_zip ks vs = list_to_map (zip ks vs).
Proof.
  intros Hnd Hlen. apply map_eq. intros i. unfold dict_of_zip.
  rewrite foldl_insert_lookup by (rewrite fst_zip by lia; done).
  rewrite lookup_empty. by destruct (list_to_map (zip ks vs) !! i).
Qed.

Lemma dict_of_zip_dom ks vs :
  NoDup ks -> length ks = length vs ->
  dom (dict_of_zip ks vs) = list_to_set ks.
Proof.
  intros Hnd Hlen. rewrite dict_of_zip_eq by done.
  rewrite dom_list_to_map_L, fst_zip by lia. done.
Qed.

Lemma keys_dom (P : gmap string Z) : list_to_set (keys P) = dom P.
Proof.
  apply set_eq. intros i.
  rewrite elem_of_list_to_set, keys_elem, elem_of_dom. done.
Qed.

Lemma sum_Permutation (l1 l2 : list Z) :
  l1 ≡ₚ l2 -> foldr Z.add 0 l1 = foldr Z.add 0 l2.
Proof. induction 1; simpl; lia. Qed.

Lemma dict_of_zip_total ks vs :
  NoDup ks -> length ks = length vs ->
  total (dict_of_zip ks vs) = foldr Z.add 0 vs.
Proof.
  intros Hnd Hlen. rewrite dict_of_zip_eq by done. unfold total, values.
  rewrite (sum_Permutation _ (zip ks vs).*2).
  - by rewrite snd_zip by lia.
  - apply fmap_Permutation, map_to_list_to_map. by rewrite fst_zip by lia.
Qed.

Lemma sum_zip_with_sub (vs ds : list Z) :
  length vs = length ds ->
  foldr Z.add 0 (zip_with Z.sub vs ds) = foldr Z.add 0 vs - foldr Z.add 0 ds.
Proof.
  revert ds; induction vs as [|v vs IH]; intros [|d ds]; simpl; try done.
  intros [= Hlen]. rewrite IH by done. lia.
Qed.

(** The generator after a returning pass of binomial draws. *)
Lemma mapM_binomial_state vs g ds g' :
  mapM binomial_sum vs g = Ok (ds, g') ->
  coins g' = coins g /\ gauss g' = gauss g /\ gauss_pos g' = gauss_pos g
  /\ Z.of_nat (coin_pos g') = Z.of_nat (coin_pos g) + foldr Z.add 0 vs
  /\ Forall (fun v => 0 <= v) vs.
Proof.
  revert g ds g'; induction vs as [|v vs IH]; intros g ds g'; simpl mapM.
  - intros [= _ <-]. repeat split; try done; simpl; lia.
  - rewrite bind_eq. unfold binomial_sum at 1.
    destruct (Z.ltb_spec v 0) as [|Hv]; [done|].
    rewrite bind_eq.
    destruct (mapM binomial_sum vs _) as [[ds' g2]|e] eqn:Hds; [|done].
    intros [= _ <-]. apply IH in Hds as (Hc & Hg & Hgp & Hcp & Hall).
    simpl in *. repeat split; try done; [lia|by constructor].
Qed.

Lemma fission_state (P : gmap string Z) g d1 d2 g' :
  fission P g = Ok (d1, d2, g') ->
  coins g' = coins g /\ gauss g' = gauss g /\ gauss_pos g' = gauss_pos g
  /\ Z.of_nat (coin_pos g') = Z.of_nat (coin_pos g) + total P.
Proof.
  unfold fission. rewrite bind_eq.
  destruct (mapM binomial_sum (values P) g) as [[ds g1]|e] eqn:Hds; [|done].
  intros [= _ _ <-]. apply mapM_binomial_state in Hds as (? & ? & ? & ? & _).
  done.
Qed.

Lemma fission_totals (P : gmap string Z) g d1 d2 g' :
  fission P g = Ok (d1, d2, g') ->
  total (proteome d1) + total (proteome d2) = total P.
Proof.
  intros (ds & Hall & -> & ->)%fission_inv.
  pose proof (Forall2_length _ _ _ Hall) as Hlen.
  pose proof (keys_values_length P) as Hkv.
  rewrite (dict_of_zip_total _ ds) by (apply keys_NoDup || congruence).
  rewrite dict_of_zip_total;
    [|apply keys_NoDup|rewrite length_zip_with; lia].
  rewrite sum_zip_with_sub by done. unfold total. lia.
Qed.

Lemma fission_dom (P : gmap string Z) g d1 d2 g' :
  fission P g = Ok (d1, d2, g') ->
  dom (proteome d1) = dom P /\ dom (proteome d2) = dom P.
Proof.
  intros (ds & Hall & -> & ->)%fission_inv.
  pose proof (Forall2_length _ _ _ Hall) as Hlen.
  pose proof (keys_values_length P) as Hkv.
  rewrite (dict_of_zip_dom _ ds) by (apply keys_NoDup || congruence).
  rewrite dict_of_zip_dom;
    [|apply keys_NoDup|rewrite length_zip_with; lia].
  by rewrite keys_dom.
Qed.

Lemma fission_returns_nonneg (P : gmap string Z) g d1 d2 g' :
  fission P g = Ok (d1, d2, g') -> nonneg P.
Proof.
  intros Hf i n Hi.
  destruct (fission_shares P g d1 d2 g' i n Hf Hi) as (a & Ha & _). lia.
Qed.

(** X1 (keys of the daughters): every returning call of [fission] gives
    both daughters exactly the protein keys of the parent. *)
Theorem fission_keys (P : gmap string Z) (g : RandomState) (d1 d2 : Cell)
  (g' : RandomState) :
  fission P g = Ok (d1, d2, g') ->
  dom (proteome d1) = dom P /\ dom (proteome d2) = dom P.
Proof. apply fission_dom. Qed.

(** X2 (bounds of the daughters): whenever [fission] returns, the parent
    had no negative count, and every count of either daughter lies between
    0 and the parent's count, so that division alone never makes a count
    negative. *)
Theorem fission_daughters_bounded (P : gmap string Z) (g : RandomState)
  (d1 d2 : Cell) (g' : RandomState) :
  fission P g = Ok (d1, d2, g') ->
  nonneg P
  /\ forall i n, P !! i = Some n ->
       exists a b, proteome d1 !! i = Some a /\ proteome d2 !! i = Some b
                   /\ 0 <= a <= n /\ 0 <= b <= n.
Proof.
  intros Hf. split; [eapply fission_returns_nonneg; eassumption|].
  intros i n Hi.
  destruct (fission_shares P g d1 d2 g' i n Hf Hi) as (a & Ha & H1 & H2).
  exists a, (n - a). repeat split; try done; lia.
Qed.

(** X3 (one coin per protein copy): a returning call of [fission] consumes
    as many Bernoulli samples as the parent has protein copies and no normal
    deviate, and leaves both tapes as they are. *)
Theorem fission_draws (P : gmap string Z) (g : RandomState) (d1 d2 : Cell)
  (g' : RandomState) :
  fission P g = Ok (d1, d2, g') ->
  Z.of_nat (coin_pos g') = Z.of_nat (coin_pos g) + total P
  /\ gauss_pos g' = gauss_pos g
  /\ coins g' = coins g /\ gauss g' = gauss g.
Proof.
  intros (? & ? & ? & ?)%fission_state. done.
Qed.

(** ** The gametes of [do_meiosis] *)

Lemma do_meiosis_state self g gametes g' :
  do_meiosis self g = Ok (gametes, g') ->
  coins g' = coins g /\ gauss g' = gauss g /\ gauss_pos g' = gauss_pos g
  /\ Z.of_nat (coin_pos g')
     = Z.of_nat (coin_pos g) + 2 * total (proteome (spermatogonia self)).
Proof.
  intros (c1 & c2 & s1 & s2 & s3 & s4 & g1 & g2 & Hf1 & Hf2 & Hf3 & _)%do_meiosis_inv.
  pose proof (fission_totals _ _ _ _ _ Hf1) as Ht.
  apply fission_state in Hf1 as (Hc1 & Hg1 & Hp1 & Hn1).
  apply fission_state in Hf2 as (Hc2 & Hg2 & Hp2 & Hn2).
  apply fission_state in Hf3 as (Hc3 & Hg3 & Hp3 & Hn3).
  repeat split; try congruence. lia.
Qed.

Lemma do_meiosis_dom self g gametes g' :
  do_meiosis self g = Ok (gametes, g') ->
  Forall (fun s => dom (proteome s) = dom (proteome (spermatogonia self))
                   /\ nonneg (proteome s)) gametes.
Proof.
  intros (c1 & c2 & s1 & s2 & s3 & s4 & g1 & g2 & Hf1 & Hf2 & Hf3 & ->)%do_meiosis_inv.
  destruct (fission_dom _ _ _ _ _ Hf1) as [D1 D2].
  destruct (fission_dom _ _ _ _ _ Hf2) as [D3 D4].
  destruct (fission_dom _ _ _ _ _ Hf3) as [D5 D6].
  destruct (fission_nonneg _ _ _ _ _ Hf2) as [N1 N2].
  destruct (fission_nonneg _ _ _ _ _ Hf3) as [N3 N4].
  repeat constructor; try done; congruence.
Qed.

(** X4 (conservation through meiosis): the four gametes of a returning
    call of [do_meiosis] carry the founder's keys, and for every protein
    their four counts are non-negative and add up to the founder's count. *)
Theorem do_meiosis_conserves (self : Spermatogenesis) (g : RandomState)
  (gametes : list Cell) (g' : RandomState) :
  do_meiosis self g = Ok (gametes, g') ->
  exists s1 s2 s3 s4,
    gametes = [s1; s2; s3; s4]
    /\ Forall (fun s => dom (proteome s) = dom (proteome (spermatogonia self)))
         gametes
    /\ forall i n, proteome (spermatogonia self) !! i = Some n ->
         exists a1 a2 a3 a4,
           proteome s1 !! i = Some a1 /\ proteome s2 !! i = Some a2
           /\ proteome s3 !! i = Some a3 /\ proteome s4 !! i = Some a4
           /\ 0 <= a1 /\ 0 <= a2 /\ 0 <= a3 /\ 0 <= a4
           /\ a1 + a2 + a3 + a4 = n.
Proof.
  intros Hm. pose proof (do_meiosis_dom _ _ _ _ Hm) as Hdom.
  apply do_meiosis_inv in Hm
    as (c1 & c2 & s1 & s2 & s3 & s4 & g1 & g2 & Hf1 & Hf2 & Hf3 & ->).
  exists s1, s2, s3, s4. split; [done|]. split.
  { eapply Forall_impl; [exact Hdom|]. by intros s [? _]. }
  intros i n Hi.
  destruct (fission_shares _ _ _ _ _ i n Hf1 Hi) as (a & Ha & Hc1 & Hc2).
  destruct (fission_shares _ _ _ _ _ i a Hf2 Hc1) as (a1 & Ha1 & H1 & H2).
  destruct (fission_shares _ _ _ _ _ i (n - a) Hf3 Hc2) as (a3 & Ha3 & H3 & H4).
  exists a1, (a - a1), a3, (n - a - a3). repeat split; try done; lia.
Qed.

(** X5 (two coins per protein copy): a returning call of [do_meiosis]
    consumes twice as many Bernoulli samples as the founder has protein
    copies, and no normal deviate. *)
Theorem do_meiosis_draws (self : Spermatogenesis) (g : RandomState)
  (gametes : list Cell) (g' : RandomState) :
  do_meiosis self g = Ok (gametes, g') ->
  Z.of_nat (coin_pos g')
  = Z.of_nat (coin_pos g) + 2 * total (proteome (spermatogonia self))
  /\ gauss_pos g' = gauss_pos g
  /\ coins g' = coins g /\ gauss g' = gauss g.
Proof.
  intros (? & ? & ? & ?)%do_meiosis_state. done.
Qed.

(** ** The sampled founder *)

Lemma draw_count_state self_ref self_cv i g n g' :
  draw_count self_ref self_cv i g = Ok (n, g') ->
  g' = mkRandomState (coins g) (coin_pos g) (gauss g) (S (gauss_pos g))
  /\ is_Some (self_ref !! i).
Proof.
  unfold draw_count. rewrite bind_eq, lift_eq. unfold getitem.
  destruct (self_ref !! i) as [mean|]; [|done].
  rewrite bind_eq, lift_eq.
  destruct (py_float_of_int mean) as [mean_f|]; [|done].
  rewrite bind_eq. unfold normal.
  destruct (signbit _); [done|]. rewrite lift_eq.
  destruct (py_int_of_float _); [|done]. intros [= _ <-]. eauto.
Qed.

Lemma randomize_fold_state self_ref self_cv l (acc : gmap string Z) g rp g' :
  foldM (fun random_proteome i =>
           n ← draw_count self_ref self_cv i;
           mret (<[i := n]> random_proteome)) acc l g = Ok (rp, g') ->
  dom rp = dom acc ∪ list_to_set l
  /\ coins g' = coins g /\ coin_pos g' = coin_pos g /\ gauss g' = gauss g
  /\ gauss_pos g' = (gauss_pos g + length l)%nat.
Proof.
  revert acc g; induction l as [|i l IH]; intros acc g; simpl foldM.
  - intros [= <- <-]. split; [simpl; by rewrite (right_id_L ∅ (∪))|].
    repeat split; simpl; try done; try lia.
  - rewrite !bind_eq.
    destruct (draw_count self_ref self_cv i g) as [[n g1]|e] eqn:Hd; [|done].
    apply draw_count_state in Hd as [-> _]. simpl.
    intros (Hdom & ? & ? & ? & Hp)%IH. simpl in *.
    split.
    { rewrite Hdom, dom_insert_L. simpl.
      by rewrite (comm_L (∪) {[i]} (dom acc)), (assoc_L (∪)). }
    repeat split; try done. lia.
Qed.

(** X6 (keys of the founder): a returning call of [randomize_proteome]
    yields a proteome with exactly the keys of the reference, consumes one
    normal deviate per key and no Bernoulli sample. *)
Theorem randomize_proteome_keys (self_ref : gmap string Z) (self_cv : float)
  (g : RandomState) (rp : gmap string Z) (g' : RandomState) :
  randomize_proteome self_ref self_cv g = Ok (rp, g') ->
  dom rp = dom self_ref
  /\ gauss_pos g' = (gauss_pos g + size self_ref)%nat
  /\ coin_pos g' = coin_pos g
  /\ coins g' = coins g /\ gauss g' = gauss g.
Proof.
  intros (Hdom & ? & ? & ? & Hp)%randomize_fold_state.
  rewrite keys_length in Hp. rewrite keys_dom, dom_empty_L in Hdom.
  repeat split; try done. by rewrite Hdom, (left_id_L ∅ (∪)).
Qed.

(** An integer below [2^53] converts to a double without rounding. *)
Lemma float_of_Z_exact n :
  0 < n < 2 ^ 53 ->
  exists p k, float_of_Z n = S754_finite false p (- k)
              /\ 0 <= k /\ Zpos p = n * 2 ^ k.
Proof.
  intros Hn.
  destruct (float_of_Z_rounded n ltac:(lia)) as (A & D & R & V).
  pose proof (Zdigits2_pos n ltac:(lia)) as Hd.
  pose proof (Zdigits2_le n 53 ltac:(lia) ltac:(lia) ltac:(lia)) as Hd'.
  pose proof (Zdigits2_bounds n ltac:(lia)) as Hb.
  set (k := 53 - Zdigits2 n) in *.
  destruct V as (a & b & Ha & Hb0 & HE & HV).
  destruct R as (Hf & HD & HA & _ & _).
  assert (b = a + k) as -> by lia.
  rewrite Z.pow_add_r in HV by lia.
  assert (0 < 2 ^ a) by (apply Z.pow_pos_nonneg; lia).
  assert (0 < 2 ^ k) by (apply Z.pow_pos_nonneg; lia).
  assert (HAeq : A = n * 2 ^ k * D) by nia.
  rewrite HAeq, rne_exact in Hf by done.
  assert (Hlt : n * 2 ^ k < 2 ^ 53).
  { replace 53 with (Zdigits2 n + k) at 1 by lia.
    rewrite Z.pow_add_r by lia. nia. }
  unfold pack in Hf. change (2 ^ prec) with (2 ^ 53) in Hf.
  change (emax - prec) with 971 in Hf.
  destruct (n * 2 ^ k) as [|p|p] eqn:Hp; [nia| |nia].
  destruct (Z.ltb_spec (Zpos p) (2 ^ 53)); [|lia].
  destruct (Z.leb_spec (Zdigits2 n - 53) 971); [|lia].
  exists p, k. replace (- k) with (Zdigits2 n - 53) by lia.
  split; [done|]. split; [lia|done].
Qed.

(** [int(float(n)) == n] for a count below [2^53]. *)
Lemma int_of_float_of_int n :
  0 <= n < 2 ^ 53 ->
  py_float_of_int n = Ok (float_of_Z n)
  /\ py_int_of_float (float_of_Z n) = Ok n
  /\ is_finite (float_of_Z n) = true
  /\ signbit (float_of_Z n) = false.
Proof.
  intros Hn. destruct (Z.eq_dec n 0) as [->|Hne]; [done|].
  destruct (float_of_Z_exact n ltac:(lia)) as (p & k & Hf & Hk & Hp).
  unfold py_float_of_int. rewrite Hf. repeat split.
  simpl. f_equal. rewrite Z.shiftl_div_pow2 by lia.
  rewrite Z.opp_involutive, Hp. apply Z.div_mul.
  assert (0 < 2 ^ k) by (apply Z.pow_pos_nonneg; lia). lia.
Qed.

Lemma draw_count_cv_zero self_ref i n g :
  self_ref !! i = Some n -> 0 <= n < 2 ^ 53 ->
  is_finite (gauss g (gauss_pos g)) = true ->
  draw_count self_ref (S754_zero false) i g = Ok (n, skip_gauss 1 g).
Proof.
  intros Hi Hn Hz. destruct (int_of_float_of_int n Hn) as (Hf & Hr & Hfin & Hs).
  unfold draw_count, getitem.
  rewrite bind_eq, lift_eq, Hi, bind_eq, lift_eq, Hf, bind_eq.
  assert (Hstd : fmul (float_of_Z n) (S754_zero false) = S754_zero false).
  { by destruct (float_of_Z n) as [[]|[]| |[] m e]. }
  rewrite Hstd. unfold normal. simpl signbit. cbv beta iota.
  assert (Hx : fadd (float_of_Z n) (fmul (S754_zero false) (gauss g (gauss_pos g)))
               = float_of_Z n).
  { destruct (gauss g (gauss_pos g)) as [[]|[]| |[] mz ez]; try done;
      by destruct (float_of_Z n) as [[]|[]| |[] m e]. }
  rewrite Hx, lift_eq, Hr. unfold skip_gauss.
  by replace (gauss_pos g + 1)%nat with (S (gauss_pos g)) by lia.
Qed.

Lemma randomize_fold_cv_zero self_ref l (acc : gmap string Z) g :
  (forall i, i ∈ l -> exists n, self_ref !! i = Some n /\ 0 <= n < 2 ^ 53) ->
  finite_deviates g ->
  exists rp,
    foldM (fun random_proteome i =>
             n ← draw_count self_ref (S754_zero false) i;
             mret (<[i := n]> random_proteome)) acc l g
    = Ok (rp, skip_gauss (length l) g)
    /\ forall j, rp !! j = if decide (j ∈ l) then self_ref !! j else acc !! j.
Proof.
  revert acc g; induction l as [|i l IH]; intros acc g Hl Hg; simpl foldM.
  - exists acc. split.
    + unfold skip_gauss. simpl. rewrite Nat.add_0_r. by destruct g.
    + intros j. case_decide as Hj; [by apply elem_of_nil in Hj|done].
  - destruct (Hl i ltac:(left)) as (n & Hi & Hn).
    rewrite !bind_eq, (draw_count_cv_zero _ _ n g Hi Hn (Hg _)). simpl.
    destruct (IH (<[i := n]> acc) (skip_gauss 1 g)) as (rp & Hrp & Hlook).
    { intros j Hj. apply Hl. by right. }
    { intros k. apply Hg. }
    exists rp. split.
    + rewrite Hrp. unfold skip_gauss. simpl. do 2 f_equal. f_equal. lia.
    + intros j. rewrite Hlook.
      destruct (decide (j = i)) as [->|Hne].
      * rewrite lookup_insert_eq, Hi.
        rewrite (decide_True (P := i ∈ i :: l)) by left.
        by case_decide.
      * rewrite lookup_insert_ne by done.
        destruct (decide (j ∈ l)) as [Hj|Hj].
        -- by rewrite decide_True by (by right).
        -- rewrite decide_False; [done|].
           intros [?|?]%elem_of_cons; done.
Qed.

Lemma randomize_cv_zero self_ref g :
  exact_counts self_ref -> finite_deviates g ->
  randomize_proteome self_ref (S754_zero false) g
  = Ok (self_ref, skip_gauss (size self_ref) g).
Proof.
  intros Hex Hg. unfold randomize_proteome.
  destruct (randomize_fold_cv_zero self_ref (keys self_ref) ∅ g)
    as (rp & -> & Hlook); [|done|].
  { intros i [n Hi]%keys_elem. exists n. split; [done|]. exact (Hex i n Hi). }
  rewrite keys_length. do 2 f_equal. apply map_eq. intros j.
  rewrite Hlook. case_decide as Hj; [done|].
  rewrite lookup_empty. symmetry. apply eq_None_not_Some.
  by rewrite <- keys_elem.
Qed.

(** X7 (no noise): with [cv = 0.0], reference counts from 0 to below
    [2^53] and finite deviates, the sampled founder is the reference itself,
    and the constructor stores the reference as the first spermatogonium. *)
Theorem randomize_proteome_cv_zero (self_ref : gmap string Z)
  (x y : float) (g : RandomState) :
  exact_counts self_ref -> finite_deviates g ->
  randomize_proteome self_ref (S754_zero false) g
  = Ok (self_ref, skip_gauss (size self_ref) g)
  /\ __init__ self_ref (PyFloat x) (PyFloat y) (S754_zero false) g
     = Ok (mkSpermatogenesis self_ref (S754_zero false) (mkCell self_ref)
             x y None,
           skip_gauss (size self_ref) g).
Proof.
  intros Hex Hg. split; [by apply randomize_cv_zero|].
  by rewrite init_float, randomize_cv_zero.
Qed.

(** ** A negative reference count *)

Lemma float_of_Z_neg_sign r :
  r < 0 ->
  float_of_Z r = S754_nan \/ signbit (float_of_Z r) = true.
Proof.
  intros Hr. destruct r as [|p|p]; try lia.
  unfold float_of_Z, binary_normalize, binary_round.
  destruct (shl_align _ _ _) as [mz ez]. apply binary_round_aux_sign.
Qed.

Lemma fmul_neg_sign x c :
  signbit x = true -> signbit c = false ->
  fmul x c = S754_nan \/ signbit (fmul x c) = true.
Proof.
  destruct x as [[]|[]| |[] mx ex], c as [[]|[]| |[] mc ec]; try done; auto.
  intros _ _. apply (binary_round_aux_sign true).
Qed.

Lemma draw_count_negative_ref self_ref self_cv i r g :
  self_ref !! i = Some r -> r < 0 -> signbit self_cv = false ->
  draw_count self_ref self_cv i g = Raise ValueError
  \/ draw_count self_ref self_cv i g = Raise OverflowError.
Proof.
  intros Hi Hr Hc. unfold draw_count, getitem.
  rewrite bind_eq, lift_eq, Hi, bind_eq, lift_eq. unfold py_float_of_int.
  assert (Hnan : forall f z, fadd f (fmul S754_nan z) = S754_nan)
    by (by intros [[]|[]| |[] m e] z).
  destruct (float_of_Z_neg_sign r Hr) as [->|Hs].
  { left. rewrite bind_eq. unfold normal.
    change (fmul S754_nan self_cv) with S754_nan. simpl signbit. cbv beta iota.
    by rewrite Hnan. }
  destruct (float_of_Z r) as [s|s| |s m e] eqn:Hf; [|by right|done|];
    simpl in Hs; subst s; left; rewrite bind_eq; unfold normal.
  - destruct (fmul_neg_sign (S754_zero true) self_cv eq_refl Hc) as [-> | ->];
      [|done].
    simpl signbit. cbv beta iota. by rewrite Hnan.
  - destruct (fmul_neg_sign (S754_finite true m e) self_cv eq_refl Hc)
      as [-> | ->]; [|done].
    simpl signbit. cbv beta iota. by rewrite Hnan.
Qed.

Lemma draw_count_raises_key self_ref self_cv i r g e :
  self_ref !! i = Some r ->
  draw_count self_ref self_cv i g = Raise e ->
  e = ValueError \/ e = OverflowError.
Proof.
  intros Hi. unfold draw_count, getitem.
  rewrite bind_eq, lift_eq, Hi, bind_eq, lift_eq. unfold py_float_of_int.
  destruct (float_of_Z r) as [s|s| |s m ex] eqn:Hm;
    try (intros [= <-]; by auto);
    rewrite bind_eq; unfold normal;
    (destruct (signbit _); [intros [= <-]; by auto|]);
    rewrite lift_eq; unfold py_int_of_float;
    (destruct (fadd _ _); intros [= <-] || intros [=]; auto).
Qed.

Lemma randomize_fold_negative self_ref self_cv l (acc : gmap string Z) g i r :
  (forall j, j ∈ l -> is_Some (self_ref !! j)) ->
  i ∈ l -> self_ref !! i = Some r -> r < 0 -> signbit self_cv = false ->
  exists e,
    foldM (fun random_proteome i =>
             n ← draw_count self_ref self_cv i;
             mret (<[i := n]> random_proteome)) acc l g = Raise e
    /\ (e = ValueError \/ e = OverflowError).
Proof.
  intros Hl Hin Hi Hr Hc. revert acc g.
  induction l as [|j l IH]; intros acc g; [by apply elem_of_nil in Hin|].
  simpl foldM. rewrite !bind_eq.
  destruct (draw_count self_ref self_cv j g) as [[n g1]|e] eqn:Hd.
  - simpl. apply elem_of_cons in Hin as [->|Hin].
    + destruct (draw_count_negative_ref _ _ _ _ g Hi Hr Hc); congruence.
    + apply IH; [|done]. intros k Hk. apply Hl. by right.
  - exists e. split; [done|].
    destruct (Hl j ltac:(left)) as [rj Hj].
    eapply draw_count_raises_key; eassumption.
Qed.

(** X8 (negative reference count): a negative reference count stops
    construction.  With a [cv] whose sign bit is clear, sampling the founder
    raises [ValueError] or [OverflowError] (a count or a sampled value
    beyond the doubles), whatever the generator state, and so does the
    constructor. *)
Theorem init_negative_reference (ref0 : gmap string Z) (x y cv0 : float)
  (g : RandomState) (i : string) (r : Z) :
  ref0 !! i = Some r -> r < 0 -> signbit cv0 = false ->
  exists e,
    randomize_proteome ref0 cv0 g = Raise e
    /\ __init__ ref0 (PyFloat x) (PyFloat y) cv0 g = Raise e
    /\ (e = ValueError \/ e = OverflowError).
Proof.
  intros Hi Hr Hc.
  destruct (randomize_fold_negative ref0 cv0 (keys ref0) ∅ g i r)
    as (e & He & Hcases); try done.
  { intros j Hj. by apply keys_elem. }
  { apply keys_elem. eauto. }
  exists e. split; [exact He|]. split; [|done].
  rewrite init_float. unfold randomize_proteome. by rewrite He.
Qed.

(** ** A negative founder count *)

Lemma do_meiosis_negative self i n g :
  proteome (spermatogonia self) !! i = Some n -> n < 0 ->
  do_meiosis self g = Raise ValueError.
Proof.
  intros Hi Hn. unfold do_meiosis.
  by rewrite bind_eq, (fission_negative _ i n g Hi Hn).
Qed.

(** X9 (negative founder count): a negative founder count is not
    rejected where it is sampled; the failure comes with the next meiosis.
    On an object whose spermatogonium holds a negative count, [do_meiosis]
    and every [make_sperms] of at least one trial raise [ValueError]. *)
Theorem make_sperms_negative_founder (self : Spermatogenesis) (i : string)
  (n t : Z) (g : RandomState) :
  proteome (spermatogonia self) !! i = Some n -> n < 0 -> 0 < t ->
  do_meiosis self g = Raise ValueError
  /\ make_sperms self t g = Raise ValueError.
Proof.
  intros Hi Hn Ht. split; [eapply do_meiosis_negative; eassumption|].
  unfold make_sperms. rewrite bind_eq.
  destruct (Z.to_nat t) as [|k] eqn:Hk; [lia|].
  simpl make_sperms_loop.
  by rewrite bind_eq, (do_meiosis_negative _ i n g Hi Hn).
Qed.

(** ** More about the classifier *)

(** What a returning call of [is_viable] has computed. *)
Lemma is_viable_inv self sperm b :
  is_viable self sperm = Ok b ->
  covered (ref self) (proteome sperm)
  /\ 0 < Z.of_nat (size (proteome sperm))
  /\ (exists mn en,
        float_of_Z (Z.of_nat (size (proteome sperm))) = S754_finite false mn en)
  /\ 0 <= functional_count self sperm <= Z.of_nat (size (proteome sperm))
  /\ b = fge (fdiv (float_of_Z (functional_count self sperm))
                   (float_of_Z (Z.of_nat (size (proteome sperm)))))
             (crucial_prot self).
Proof.
  unfold is_viable. rewrite result_bind_eq.
  destruct (foldR _ 0 (keys (proteome sperm))) as [cnt|e] eqn:Hloop; [|done].
  pose proof (count_loop_inv _ _ _ _ _ Hloop) as Hcov.
  rewrite count_loop_spec in Hloop by done. injection Hloop as <-.
  rewrite result_bind_eq, Z.add_0_l, keys_length.
  fold (functional_count self sperm).
  assert (Hcnt : 0 <= functional_count self sperm
                 <= Z.of_nat (size (proteome sperm))).
  { unfold functional_count. split; [lia|]. rewrite <- keys_length.
    apply inj_le, length_filter. }
  destruct (py_float_of_int (Z.of_nat (size (proteome sperm))))
    as [nf|e] eqn:Hnf; [|done].
  destruct (Z.eq_dec (Z.of_nat (size (proteome sperm))) 0) as [Hz|Hz].
  { rewrite Hz in *. injection Hnf as <-.
    assert (functional_count self sperm = 0) as -> by lia. done. }
  destruct (proportion_mono _ _ _ nf (conj (proj1 Hcnt) (Z.le_refl _))
              (proj2 Hcnt) ltac:(lia) Hnf) as (Hc & _ & (mn & en & ->) & _).
  apply py_float_of_int_Ok in Hnf as Hnf'.
  rewrite Hc, !result_bind_eq. simpl py_truediv. cbv beta iota.
  intros [= <-]. split.
  { intros i [g Hg]. destruct (Hcov i) as (g' & r & rf & _ & Hr & Hrf).
    - apply keys_elem. eauto.
    - eauto. }
  split; [lia|]. split; [eauto|]. split; [done|].
  rewrite <- Hnf'. by destruct (fge _ _).
Qed.

(** The proportion of functional proteins is a double between 0 and 1. *)
Lemma proportion_bounds cnt n mn en :
  0 <= cnt <= n -> float_of_Z n = S754_finite false mn en ->
  SFleb (S754_zero false) (fdiv (float_of_Z cnt) (float_of_Z n)) = true
  /\ SFleb (fdiv (float_of_Z cnt) (float_of_Z n)) (float_of_Z 1) = true.
Proof.
  intros Hcnt Hn.
  assert (Hpos : 0 < n).
  { destruct (Z.eq_dec n 0) as [->|]; [done|lia]. }
  assert (Hnf : py_float_of_int n = Ok (S754_finite false mn en)).
  { unfold py_float_of_int. by rewrite Hn. }
  destruct (proportion_mono cnt n n _ ltac:(lia) ltac:(lia) Hpos Hnf)
    as (_ & _ & _ & Hle).
  destruct (proportion_mono 0 cnt n _ ltac:(lia) ltac:(lia) Hpos Hnf)
    as (_ & _ & _ & Hge).
  rewrite Hn in *. split; [exact Hge|].
  eapply SFleb_trans; [exact Hle|].
  destruct (finite_val mn en) as (N & Q & HQ & HN & Hv).
  destruct (fdiv_rounded false mn en false mn en _ _ _ _ Hv Hv)
    as (A1 & D1 & E1 & R1 & W1).
  destruct (float_of_Z_rounded 1 ltac:(lia)) as (A2 & D2 & R2 & W2).
  eapply rounded_mono; try eassumption; nia.
Qed.

Lemma count_loop_missing_key self sperm l acc i :
  convertible (ref self) ->
  (forall j, j ∈ l -> is_Some (proteome sperm !! j)) ->
  i ∈ l -> ref self !! i = None ->
  foldR (fun (prot_count : Z) i =>
           b ← functional self sperm i;
           mret (if b : bool then prot_count + 1 else prot_count)) acc l
  = Raise KeyError.
Proof.
  intros Hconv Hl Hin Hi. revert acc.
  induction l as [|j l IH]; intros acc; [by apply elem_of_nil in Hin|].
  destruct (Hl j ltac:(left)) as [gj Hgj].
  destruct (ref self !! j) as [r|] eqn:Hr.
  - destruct (Hconv j r Hr) as [rf Hrf].
    rewrite foldR_cons, result_bind_eq,
      (functional_spec _ _ _ _ _ _ Hgj Hr Hrf).
    cbv beta iota. unfold mret at 1, result_ret.
    apply IH.
    + intros k Hk. apply Hl. by right.
    + apply elem_of_cons in Hin as [->|Hin]; [congruence|done].
  - apply foldR_cons_raise. unfold functional, getitem.
    by rewrite Hgj, Hr.
Qed.

(** X10 (unknown protein): on a gamete with a protein that the reference
    lacks, [is_viable] raises [KeyError] (the reference counts being within
    the range of doubles). *)
Theorem is_viable_missing_key (self : Spermatogenesis) (sperm : Cell)
  (i : string) :
  convertible (ref self) ->
  is_Some (proteome sperm !! i) -> ref self !! i = None ->
  is_viable self sperm = Raise KeyError.
Proof.
  intros Hconv Hg Hr. unfold is_viable.
  rewrite result_bind_eq, (count_loop_missing_key _ _ _ _ i); try done.
  - intros j Hj. by apply keys_elem.
  - by apply keys_elem.
Qed.

(** X11 ([crucial_prot] out of range): a [crucial_prot] above 1.0 (or
    NaN) makes every gamete non-viable, and a [crucial_prot] of at most 0.0
    makes every gamete that [is_viable] classifies viable: the proportion of
    functional proteins lies between 0.0 and 1.0. *)
Theorem is_viable_crucial_prot_out_of_range (self : Spermatogenesis)
  (sperm : Cell) :
  (SFleb (crucial_prot self) (float_of_Z 1) = false ->
   is_viable self sperm <> Ok true)
  /\ (SFleb (crucial_prot self) (S754_zero false) = true ->
      forall b, is_viable self sperm = Ok b -> b = true).
Proof.
  split.
  - intros Hp Hv.
    apply is_viable_inv in Hv as (_ & _ & (mn & en & Hn) & Hcnt & Hb).
    destruct (proportion_bounds _ _ mn en Hcnt Hn) as [_ Hle].
    symmetry in Hb. unfold fge in Hb.
    by rewrite (SFleb_trans _ _ _ Hb Hle) in Hp.
  - intros Hp b Hv.
    apply is_viable_inv in Hv as (_ & _ & (mn & en & Hn) & Hcnt & ->).
    destruct (proportion_bounds _ _ mn en Hcnt Hn) as [Hge _].
    unfold fge. eapply SFleb_trans; eassumption.
Qed.

(** X12 (reference count 0): a protein whose reference count is 0 is
    functional in every gamete that holds a non-negative count of it, for
    every finite [cutoff]: the threshold is [cutoff * 0]. *)
Theorem functional_zero_reference (self : Spermatogenesis) (sperm : Cell)
  (i : string) (n : Z) :
  ref self !! i = Some 0 -> proteome sperm !! i = Some n -> 0 <= n ->
  is_finite (cutoff self) = true ->
  functional self sperm i = Ok true.
Proof.
  intros Hr Hg Hn Hc. unfold functional, getitem.
  rewrite Hg, Hr, !result_bind_eq.
  change (py_float_of_int 0) with (Ok (S754_zero false)).
  cbv beta iota. unfold mret, result_ret. f_equal. unfold fge.
  assert (Hthr : exists s, fmul (cutoff self) (S754_zero false) = S754_zero s).
  { destruct (cutoff self) as [s|s| |s m e]; try done; by eexists. }
  destruct Hthr as [s ->].
  destruct (Z.eq_dec n 0) as [->|Hne]; [by destruct s|].
  destruct (float_of_Z_pos_cases n ltac:(lia)) as [-> |(m & e & -> & _)];
    by destruct s.
Qed.

(** ** Raising [crucial_prot] *)

(** The proportion that [is_viable] compares with [crucial_prot]. *)
Lemma is_viable_proportion self sperm :
  exists r : result float,
    forall p, is_viable (with_crucial_prot self p) sperm
              = match r with
                | Ok prot_prop => Ok (fge prot_prop p)
                | Raise e => Raise e
                end.
Proof.
  exists (prot_count ← foldR (fun (prot_count : Z) i =>
                               b ← functional self sperm i;
                               mret (if b : bool then prot_count + 1
                                     else prot_count))
                            0 (keys (proteome sperm));
          n ← py_float_of_int (Z.of_nat (length (keys (proteome sperm))));
          c ← py_float_of_int prot_count;
          py_truediv c n).
  intros p. unfold is_viable.
  change (fun (prot_count : Z) i =>
            b ← functional (with_crucial_prot self p) sperm i;
            mret (if b : bool then prot_count + 1 else prot_count))
    with (fun (prot_count : Z) i =>
            b ← functional self sperm i;
            mret (if b : bool then prot_count + 1 else prot_count)).
  rewrite !result_bind_eq.
  destruct (foldR _ 0 (keys (proteome sperm))) as [cnt|e]; [|done].
  rewrite !result_bind_eq.
  destruct (py_float_of_int (Z.of_nat _)) as [nf|e]; [|done].
  rewrite !result_bind_eq.
  destruct (py_float_of_int cnt) as [c|e]; [|done].
  rewrite !result_bind_eq.
  destruct (py_truediv c nf) as [prop|e]; [|done].
  simpl crucial_prot. by destruct (fge prop p).
Qed.

Lemma is_viable_crucial_agree self p1 p2 sperm :
  fge p2 p1 = true ->
  agree (fun b1 b2 : bool => b2 = true -> b1 = true)
    (is_viable (with_crucial_prot self p1) sperm)
    (is_viable (with_crucial_prot self p2) sperm).
Proof.
  intros Hp. destruct (is_viable_proportion self sperm) as [[prop|e] Hr];
    rewrite !Hr; [left|right; eauto].
  eexists _, _. split; [reflexivity|]. split; [reflexivity|].
  unfold fge in *. intros H2. eapply SFleb_trans; eassumption.
Qed.

Lemma classify_all_crucial_agree self p1 p2 sperms :
  fge p2 p1 = true ->
  agree (fun l1 l2 => sum_bools l2 <= sum_bools l1)
    (mapR (is_viable (with_crucial_prot self p1)) sperms)
    (mapR (is_viable (with_crucial_prot self p2)) sperms).
Proof.
  intros Hp. induction sperms as [|sperm sperms IH].
  - left. exists [], []. done.
  - rewrite !mapR_cons.
    destruct (is_viable_crucial_agree self p1 p2 sperm Hp)
      as [(b1 & b2 & -> & -> & Hb)|(e & -> & ->)]; [|right; eauto].
    destruct IH as [(l1 & l2 & -> & -> & Hl)|(e & -> & ->)]; [|right; eauto].
    left. eexists _, _. split; [reflexivity|]. split; [reflexivity|].
    rewrite !sum_bools_cons. destruct b1, b2; lia.
Qed.

Lemma get_viable_sprems_crucial_agree self p1 p2 :
  fge p2 p1 = true ->
  agree (fun n1 n2 => n2 <= n1)
    (get_viable_sprems (with_crucial_prot self p1))
    (get_viable_sprems (with_crucial_prot self p2)).
Proof.
  intros Hp. unfold get_viable_sprems. simpl load.
  destruct (load self) as [sperms|]; [|right; eauto].
  rewrite !result_bind_eq.
  destruct (classify_all_crucial_agree self p1 p2 sperms Hp)
    as [(l1 & l2 & -> & -> & Hl)|(e & -> & ->)]; [left|right; eauto].
  eexists _, _. split; [reflexivity|]. split; [reflexivity|done].
Qed.

Lemma make_sperms_loop_with_crucial_prot n self p sperms g :
  make_sperms_loop n (with_crucial_prot self p) sperms g
  = match make_sperms_loop n self sperms g with
    | Ok (self', sperms', g') => Ok (with_crucial_prot self' p, sperms', g')
    | Raise e => Raise e
    end.
Proof.
  revert self sperms g; induction n as [|n IH]; intros self sperms g.
  - reflexivity.
  - simpl make_sperms_loop. rewrite !bind_eq.
    change (do_meiosis (with_crucial_prot self p) g) with (do_meiosis self g).
    destruct (do_meiosis self g) as [[one_round g1]|e]; [|done].
    rewrite !bind_eq. simpl ref. simpl cv.
    destruct (randomize_proteome (ref self) (cv self) g1) as [[rp g2]|e]; [|done].
    apply (IH (generate_spermatogonia self rp)).
Qed.

Lemma make_sperms_with_crucial_prot self p t g :
  make_sperms (with_crucial_prot self p) t g
  = match make_sperms self t g with
    | Ok (self', g') => Ok (with_crucial_prot self' p, g')
    | Raise e => Raise e
    end.
Proof.
  unfold make_sperms. rewrite !bind_eq, make_sperms_loop_with_crucial_prot.
  by destruct (make_sperms_loop (Z.to_nat t) self [] g) as [[[self' sperms'] g']|e].
Qed.

(** X13 (monotonicity in [crucial_prot]): with the reference, the cutoff
    and the gametes fixed, raising [crucial_prot] never raises the number of
    viable gametes (or counting fails with the same exception under both
    values), on a stored load and for whole runs from the same generator
    state. *)
Theorem viable_count_antitone_crucial_prot (self : Spermatogenesis)
  (p1 p2 : float) :
  fge p2 p1 = true ->
  agree (fun n1 n2 => n2 <= n1)
    (get_viable_sprems (with_crucial_prot self p1))
    (get_viable_sprems (with_crucial_prot self p2))
  /\ forall t g,
       agree (fun r1 r2 => r2.1 <= r1.1 /\ r1.2 = r2.2)
         (viable_after (with_crucial_prot self p1) t g)
         (viable_after (with_crucial_prot self p2) t g).
Proof.
  intros Hp. split; [by apply get_viable_sprems_crucial_agree|].
  intros t g. unfold viable_after.
  rewrite !bind_eq, !make_sperms_with_crucial_prot.
  destruct (make_sperms self t g) as [[self' g']|e] eqn:Hm; [|right; eauto].
  rewrite !lift_eq.
  destruct (get_viable_sprems_crucial_agree self' p1 p2 Hp)
    as [(n1 & n2 & -> & -> & Hn)|(e & -> & ->)]; [left|right; eauto].
  eexists _, _. split; [reflexivity|]. split; [reflexivity|done].
Qed.

(** ** More copies *)

Lemma is_viable_eq self sperm mn en :
  covered (ref self) (proteome sperm) ->
  float_of_Z (Z.of_nat (size (proteome sperm))) = S754_finite false mn en ->
  is_viable self sperm
  = Ok (fge (fdiv (float_of_Z (functional_count self sperm))
                  (float_of_Z (Z.of_nat (size (proteome sperm)))))
            (crucial_prot self)).
Proof.
  intros Href Hn. unfold is_viable.
  rewrite result_bind_eq, count_loop_spec.
  2:{ intros i Hi. apply keys_elem in Hi as Hi'. destruct Hi' as [g Hg].
      destruct (Href i ltac:(eauto)) as (r & rf & Hr & Hrf). eauto 10. }
  rewrite result_bind_eq, Z.add_0_l, keys_length.
  fold (functional_count self sperm).
  assert (Hnf : py_float_of_int (Z.of_nat (size (proteome sperm)))
                = Ok (S754_finite false mn en)).
  { unfold py_float_of_int. by rewrite Hn. }
  rewrite Hnf, result_bind_eq.
  assert (Hcnt : 0 <= functional_count self sperm
                 <= Z.of_nat (size (proteome sperm))).
  { unfold functional_count. split; [lia|]. rewrite <- keys_length.
    apply inj_le, length_filter. }
  destruct (py_float_of_int_below _ _ _ Hcnt Hnf) as [Hc _].
  rewrite Hc, result_bind_eq, Hn. simpl py_truediv. cbv beta iota.
  unfold mret, result_ret. by destruct (fge _ _).
Qed.

Lemma length_filter_impl (f1 f2 : string -> bool) (l : list string) :
  (forall i, i ∈ l -> f1 i = true -> f2 i = true) ->
  (length (filter (fun i => f1 i = true) l)
   <= length (filter (fun i => f2 i = true) l))%nat.
Proof.
  induction l as [|i l IH]; intros H; [done|].
  rewrite !filter_cons.
  specialize (IH (fun j Hj => H j ltac:(by right))).
  specialize (H i ltac:(by left)).
  destruct (f1 i), (f2 i); repeat case_decide; simpl; try done; try lia.
Qed.

(** X14 (more copies): a gamete that holds, protein by protein, at least
    as many copies as a viable gamete with non-negative counts and the same
    proteins is viable too. *)
Theorem is_viable_more_copies (self : Spermatogenesis) (s1 s2 : Cell) :
  nonneg (proteome s1) ->
  dom (proteome s1) = dom (proteome s2) ->
  (forall i a b, proteome s1 !! i = Some a -> proteome s2 !! i = Some b ->
                 a <= b) ->
  is_viable self s1 = Ok true -> is_viable self s2 = Ok true.
Proof.
  intros Hnn Hdom Hle Hv.
  apply is_viable_inv in Hv as (Hcov & Hpos & (mn & en & Hn) & Hcnt & Hb).
  assert (Hsize : size (proteome s2) = size (proteome s1)).
  { by rewrite <- !size_dom, Hdom. }
  assert (Hsome : forall i, is_Some (proteome s2 !! i)
                            <-> is_Some (proteome s1 !! i)).
  { intros i. by rewrite <- !elem_of_dom, Hdom. }
  assert (Hcov2 : covered (ref self) (proteome s2)).
  { intros i Hi. apply Hcov. by apply Hsome. }
  rewrite (is_viable_eq self s2 mn en Hcov2) by (by rewrite Hsize).
  f_equal. rewrite Hsize.
  assert (Hcount : functional_count self s1 <= functional_count self s2).
  { unfold functional_count. apply inj_le.
    assert (Hperm : keys (proteome s1) ≡ₚ keys (proteome s2)).
    { apply NoDup_Permutation; try apply keys_NoDup.
      intros i. by rewrite !keys_elem, Hsome. }
    rewrite <- Hperm. apply length_filter_impl.
    intros i _. unfold spec_functional.
    destruct (proteome s1 !! i) as [a|] eqn:Ha; [|done].
    destruct (Hsome i) as [_ [b Hb2]]; [eauto|]. rewrite Hb2.
    destruct (ref self !! i) as [r|]; [|done].
    unfold fge. intros Hthr. eapply SFleb_trans; [exact Hthr|].
    apply float_of_Z_mono. split; [exact (Hnn i a Ha)|eauto]. }
  assert (Hcnt2 : functional_count self s2 <= Z.of_nat (size (proteome s1))).
  { rewrite <- Hsize. unfold functional_count. rewrite <- keys_length.
    apply inj_le, length_filter. }
  assert (Hnf : py_float_of_int (Z.of_nat (size (proteome s1)))
                = Ok (S754_finite false mn en)).
  { unfold py_float_of_int. by rewrite Hn. }
  destruct (proportion_mono _ _ _ _ (conj (proj1 Hcnt) Hcount) Hcnt2 Hpos Hnf)
    as (_ & _ & _ & Hmono).
  rewrite <- Hn in Hmono. symmetry in Hb. unfold fge in *.
  eapply SFleb_trans; eassumption.
Qed.

(** ** Every protein required *)

Lemma float_of_Z_exact_val n :
  0 < n < 2 ^ 53 ->
  exists p e, float_of_Z n = S754_finite false p e /\ val_eq (Zpos p) 1 e n 1.
Proof.
  intros Hn. destruct (float_of_Z_exact n Hn) as (p & k & Hf & Hk & Hp).
  exists p, (- k). split; [done|].
  exists 0, k. rewrite Hp. simpl (2 ^ 0). repeat split; lia.
Qed.

Lemma f_below_one_rounded :
  rounded f_below_one false (2 ^ 53 - 1) 1 (-53)
  /\ val_eq (2 ^ 53 - 1) 1 (-53) (2 ^ 53 - 1) (2 ^ 53).
Proof.
  split.
  - unfold rounded. split; [vm_compute; reflexivity|]. lia.
  - exists 0, 53. repeat split; try lia.
Qed.

(** Fewer functional proteins than proteins: the proportion is below 1. *)
Lemma proportion_below_one cnt n :
  0 <= cnt < n -> n < 2 ^ 53 ->
  SFleb (float_of_Z 1) (fdiv (float_of_Z cnt) (float_of_Z n)) = false.
Proof.
  intros Hcnt Hn.
  destruct (float_of_Z_exact_val n ltac:(lia)) as (pn & en & Hfn & Vn).
  rewrite Hfn. destruct (Z.eq_dec cnt 0) as [->|Hne]; [done|].
  destruct (float_of_Z_exact_val cnt ltac:(lia)) as (pc & ec & Hfc & Vc).
  rewrite Hfc.
  destruct (fdiv_rounded false pc ec false pn en _ _ _ _ Vc Vn)
    as (A & D & E & R & W).
  destruct f_below_one_rounded as [R2 W2].
  assert (Hle : SFleb (fdiv (S754_finite false pc ec) (S754_finite false pn en))
                      f_below_one = true).
  { eapply rounded_mono; try eassumption; lia. }
  destruct (SFleb (float_of_Z 1) _) eqn:H1; [|done].
  by pose proof (SFleb_trans _ _ _ H1 Hle).
Qed.

(** Every protein functional: the proportion reaches 1. *)
Lemma proportion_one n mn en :
  float_of_Z n = S754_finite false mn en ->
  SFleb (float_of_Z 1) (fdiv (float_of_Z n) (float_of_Z n)) = true.
Proof.
  intros ->.
  destruct (finite_val mn en) as (N & Q & HQ & HN & Hv).
  destruct (fdiv_rounded false mn en false mn en _ _ _ _ Hv Hv)
    as (A1 & D1 & E1 & R1 & W1).
  destruct (float_of_Z_rounded 1 ltac:(lia)) as (A2 & D2 & R2 & W2).
  eapply rounded_mono; try eassumption; nia.
Qed.

Lemma length_filter_all (f : string -> bool) (l : list string) :
  length (filter (fun i => f i = true) l) = length l
  <-> forall i, i ∈ l -> f i = true.
Proof.
  induction l as [|i l IH].
  - split; [|done]. intros _ j Hj. by apply elem_of_nil in Hj.
  - rewrite filter_cons.
    pose proof (length_filter (fun i => f i = true) l) as Hlen.
    destruct IH as [IH1 IH2].
    destruct (f i) eqn:Hi; case_decide as Hd; try done; simpl.
    + split.
      * intros [= Hl]. specialize (IH1 Hl).
        intros j [->|Hj]%elem_of_cons; auto.
      * intros Hl. f_equal. apply IH2. intros j Hj. apply Hl. by right.
    + split; [lia|]. intros Hl. specialize (Hl i ltac:(by left)). congruence.
Qed.

(** X15 (every protein required): with [crucial_prot = 1.0], a gamete
    with fewer than [2^53] proteins that [is_viable] classifies is viable
    exactly when each of its proteins reaches its threshold. *)
Theorem is_viable_all_required (self : Spermatogenesis) (sperm : Cell)
  (b : bool) :
  crucial_prot self = float_of_Z 1 ->
  Z.of_nat (size (proteome sperm)) < 2 ^ 53 ->
  is_viable self sperm = Ok b ->
  (b = true <->
   forall i, is_Some (proteome sperm !! i) -> functional self sperm i = Ok true).
Proof.
  intros Hp Hsize Hv.
  apply is_viable_inv in Hv as (Hcov & Hpos & (mn & en & Hn) & Hcnt & ->).
  rewrite Hp. unfold fge.
  assert (Hfun : forall i, is_Some (proteome sperm !! i) ->
            functional self sperm i
            = Ok (spec_functional (ref self) (cutoff self) (proteome sperm) i)).
  { intros i Hi. destruct (Hcov i Hi) as (r & rf & Hr & Hrf).
    destruct Hi as [g Hg]. eapply functional_spec; eassumption. }
  assert (Hall : functional_count self sperm = Z.of_nat (size (proteome sperm))
                 <-> forall i, is_Some (proteome sperm !! i) ->
                       functional self sperm i = Ok true).
  { unfold functional_count. rewrite <- keys_length, Nat2Z.inj_iff.
    rewrite length_filter_all. split.
    - intros H i Hi. rewrite (Hfun i Hi). f_equal. apply H. by apply keys_elem.
    - intros H i Hi%keys_elem. specialize (H i Hi).
      rewrite (Hfun i Hi) in H. by injection H. }
  rewrite <- Hall. split.
  - intros H1.
    destruct (Z.eq_dec (functional_count self sperm)
                (Z.of_nat (size (proteome sperm)))) as [|Hne]; [done|].
    by rewrite proportion_below_one in H1 by lia.
  - intros ->. eapply proportion_one; eassumption.
Qed.

(** ** Counting the viable gametes *)

Lemma sum_bools_bounds (l : list bool) : 0 <= sum_bools l <= Z.of_nat (length l).
Proof.
  induction l as [|b l IH]; [done|].
  rewrite sum_bools_cons. simpl length. destruct b; lia.
Qed.

Lemma sum_bools_app (l1 l2 : list bool) :
  sum_bools (l1 ++ l2) = sum_bools l1 + sum_bools l2.
Proof.
  induction l1 as [|b l1 IH]; [done|].
  simpl app. rewrite !sum_bools_cons, IH. lia.
Qed.

Lemma mapR_length {A B} (f : A -> result B) l l' :
  mapR f l = Ok l' -> length l' = length l.
Proof.
  revert l'; induction l as [|x l IH]; intros l'.
  - by intros [= <-].
  - rewrite mapR_cons. destruct (f x) as [y|e]; [|done].
    destruct (mapR f l) as [ys|e]; [|done].
    intros [= <-]. simpl. f_equal. by apply IH.
Qed.

Lemma mapR_app {A B} (f : A -> result B) l1 l2 :
  mapR f (l1 ++ l2)
  = match mapR f l1 with
    | Ok ys1 => match mapR f l2 with
                | Ok ys2 => Ok (ys1 ++ ys2)
                | Raise e => Raise e
                end
    | Raise e => Raise e
    end.
Proof.
  induction l1 as [|x l1 IH].
  - simpl. by destruct (mapR f l2).
  - simpl app. rewrite !mapR_cons, IH.
    destruct (f x) as [y|e]; [|done].
    destruct (mapR f l1) as [ys1|e]; [|done].
    by destruct (mapR f l2).
Qed.

(** X16 (counting too early): on the object that the constructor returns,
    [load] does not exist yet, and [get_viable_sprems] raises
    [AttributeError]. *)
Theorem get_viable_sprems_before_make_sperms (ref0 : gmap string Z)
  (c p : pyobj) (cv0 : float) (g : RandomState) (self : Spermatogenesis)
  (g' : RandomState) :
  __init__ ref0 c p cv0 g = Ok (self, g') ->
  load self = None /\ get_viable_sprems self = Raise AttributeError.
Proof.
  destruct c; try done. destruct p; try done. rewrite init_float.
  destruct (randomize_proteome ref0 cv0 g) as [[rp g1]|e]; [|done].
  by intros [= <- _].
Qed.

(** X17 (bounds of the count): the count of viable gametes lies between 0
    and the number of stored gametes. *)
Theorem get_viable_sprems_bounds (self : Spermatogenesis) (n : Z) :
  get_viable_sprems self = Ok n ->
  exists sperms, load self = Some sperms
                 /\ 0 <= n <= Z.of_nat (length sperms).
Proof.
  unfold get_viable_sprems. destruct (load self) as [sperms|]; [|done].
  rewrite result_bind_eq.
  destruct (mapR (is_viable self) sperms) as [viable|e] eqn:Hv; [|done].
  intros [= <-]. exists sperms. split; [done|].
  rewrite <- (mapR_length _ _ _ Hv). apply sum_bools_bounds.
Qed.

(** X18 (counts add up): the viable count of two batches of gametes
    stored together is the sum of the counts of the batches, and the first
    gamete on which [is_viable] raises decides the exception. *)
Theorem get_viable_sprems_app (self : Spermatogenesis) (l1 l2 : list Cell) :
  get_viable_sprems (with_load self (l1 ++ l2))
  = match get_viable_sprems (with_load self l1) with
    | Ok n1 => match get_viable_sprems (with_load self l2) with
               | Ok n2 => Ok (n1 + n2)
               | Raise e => Raise e
               end
    | Raise e => Raise e
    end.
Proof.
  unfold get_viable_sprems. simpl load. cbv beta iota.
  rewrite !result_bind_eq.
  change (is_viable (with_load self (l1 ++ l2))) with (is_viable self).
  change (is_viable (with_load self l1)) with (is_viable self).
  change (is_viable (with_load self l2)) with (is_viable self).
  rewrite mapR_app.
  destruct (mapR (is_viable self) l1) as [ys1|e]; [|done].
  destruct (mapR (is_viable self) l2) as [ys2|e]; [|done].
  unfold mret, result_ret. by rewrite sum_bools_app.
Qed.

(** ** More about the driver *)

Lemma make_sperms_loop_with_load n self l sperms g :
  make_sperms_loop n (with_load self l) sperms g
  = match make_sperms_loop n self sperms g with
    | Ok (self', sperms', g') => Ok (with_load self' l, sperms', g')
    | Raise e => Raise e
    end.
Proof.
  revert self sperms g; induction n as [|n IH]; intros self sperms g.
  - reflexivity.
  - simpl make_sperms_loop. rewrite !bind_eq.
    change (do_meiosis (with_load self l) g) with (do_meiosis self g).
    destruct (do_meiosis self g) as [[one_round g1]|e]; [|done].
    rewrite !bind_eq. simpl ref. simpl cv.
    destruct (randomize_proteome (ref self) (cv self) g1) as [[rp g2]|e]; [|done].
    apply (IH (generate_spermatogonia self rp)).
Qed.

Lemma make_sperms_loop_config n self sperms g self' sperms' g' :
  make_sperms_loop n self sperms g = Ok (self', sperms', g') ->
  ref self' = ref self /\ cv self' = cv self
  /\ cutoff self' = cutoff self /\ crucial_prot self' = crucial_prot self
  /\ load self' = load self.
Proof.
  revert self sperms g; induction n as [|n IH]; intros self sperms g;
    simpl make_sperms_loop.
  - by intros [= <- _ _].
  - rewrite !bind_eq.
    destruct (do_meiosis self g) as [[one_round g1]|e]; [|done].
    rewrite !bind_eq.
    destruct (randomize_proteome (ref self) (cv self) g1) as [[rp g2]|e]; [|done].
    intros H. by apply IH in H.
Qed.

(** X19 (what [make_sperms] changes): the founder and the load only.  A
    returning call leaves [ref], [cv], [cutoff] and [crucial_prot] as they
    were; and it replaces the load, so that its outcome does not depend on
    the gametes stored before. *)
Theorem make_sperms_keeps_config (self : Spermatogenesis) (t : Z)
  (g : RandomState) :
  (forall self' g', make_sperms self t g = Ok (self', g') ->
     ref self' = ref self /\ cv self' = cv self
     /\ cutoff self' = cutoff self /\ crucial_prot self' = crucial_prot self)
  /\ (forall l, make_sperms (with_load self l) t g = make_sperms self t g).
Proof.
  split.
  - intros self' g'. unfold make_sperms. rewrite bind_eq.
    destruct (make_sperms_loop (Z.to_nat t) self [] g)
      as [[[self1 sperms1] g1]|e] eqn:Hl; [|done].
    intros [= <- _]. simpl.
    apply make_sperms_loop_config in Hl as (? & ? & ? & ? & _). done.
  - intros l. unfold make_sperms.
    rewrite !bind_eq, make_sperms_loop_with_load.
    by destruct (make_sperms_loop (Z.to_nat t) self [] g)
      as [[[self1 sperms1] g1]|e].
Qed.

(** X20 (no trial): for [t <= 0] the loop of [make_sperms] does not run;
    it stores an empty load, leaves the founder and the generator untouched,
    and the count of viable gametes is then 0. *)
Theorem make_sperms_no_trial (self : Spermatogenesis) (t : Z)
  (g : RandomState) :
  t <= 0 ->
  make_sperms self t g = Ok (with_load self [], g)
  /\ viable_after self t g = Ok (0, g).
Proof.
  intros Ht. unfold viable_after, make_sperms.
  replace (Z.to_nat t) with O by lia. done.
Qed.

Lemma make_sperms_loop_state n self sperms g self' sperms' g' :
  make_sperms_loop n self sperms g = Ok (self', sperms', g') ->
  coins g' = coins g /\ gauss g' = gauss g
  /\ gauss_pos g' = (gauss_pos g + n * size (ref self))%nat.
Proof.
  revert self sperms g; induction n as [|n IH]; intros self sperms g;
    simpl make_sperms_loop.
  - intros [= _ _ <-]. repeat split; lia.
  - rewrite !bind_eq.
    destruct (do_meiosis self g) as [[one_round g1]|e] eqn:Hm; [|done].
    rewrite !bind_eq.
    destruct (randomize_proteome (ref self) (cv self) g1) as [[rp g2]|e] eqn:Hr;
      [|done].
    apply do_meiosis_state in Hm as (Hc1 & Hg1 & Hp1 & _).
    apply randomize_fold_state in Hr as (_ & Hc2 & _ & Hg2 & Hp2).
    rewrite keys_length in Hp2.
    intros (Hc3 & Hg3 & Hp3)%IH. simpl in Hp3.
    repeat split; try congruence. lia.
Qed.

(** X21 (one founder per trial): a returning call of [make_sperms t]
    consumes [t] times as many normal deviates as the reference has proteins
    (a new founder is drawn after every round of meiosis, the last one
    included), and leaves both tapes as they are. *)
Theorem make_sperms_deviates (self : Spermatogenesis) (t : Z)
  (g : RandomState) (self' : Spermatogenesis) (g' : RandomState) :
  make_sperms self t g = Ok (self', g') ->
  gauss_pos g' = (gauss_pos g + Z.to_nat t * size (ref self))%nat
  /\ coins g' = coins g /\ gauss g' = gauss g.
Proof.
  unfold make_sperms. rewrite bind_eq.
  destruct (make_sperms_loop (Z.to_nat t) self [] g)
    as [[[self1 sperms1] g1]|e] eqn:Hl; [|done].
  intros [= _ <-]. apply make_sperms_loop_state in Hl as (? & ? & ?). done.
Qed.

(** ** Whole runs *)

Lemma make_sperms_loop_gametes n self sperms g self' sperms' g' :
  make_sperms_loop n self sperms g = Ok (self', sperms', g') ->
  dom (proteome (spermatogonia self)) = dom (ref self) ->
  Forall (fun s => dom (proteome s) = dom (ref self)) sperms ->
  Forall (fun s => dom (proteome s) = dom (ref self)) sperms'.
Proof.
  revert self sperms g; induction n as [|n IH]; intros self sperms g;
    simpl make_sperms_loop.
  - by intros [= _ <- _].
  - rewrite !bind_eq.
    destruct (do_meiosis self g) as [[one_round g1]|e] eqn:Hm; [|done].
    rewrite !bind_eq.
    destruct (randomize_proteome (ref self) (cv self) g1) as [[rp g2]|e] eqn:Hr;
      [|done].
    intros Hl Hd Hall.
    apply (IH _ _ _ Hl).
    + simpl. apply randomize_fold_state in Hr as (Hdom & _).
      by rewrite Hdom, keys_dom, dom_empty_L, (left_id_L ∅ (∪)).
    + simpl. apply Forall_app. split; [done|].
      apply do_meiosis_dom in Hm.
      eapply Forall_impl; [exact Hm|]. intros s [Hs _]. congruence.
Qed.

Lemma make_sperms_loop_nonneg n self sperms g self' sperms' g' :
  make_sperms_loop n self sperms g = Ok (self', sperms', g') ->
  Forall (fun s => nonneg (proteome s)) sperms ->
  Forall (fun s => nonneg (proteome s)) sperms'
  /\ (n <> O ->
      dom (proteome (spermatogonia self')) = dom (ref self)).
Proof.
  revert self sperms g; induction n as [|n IH]; intros self sperms g;
    simpl make_sperms_loop.
  - by intros [= _ <- _].
  - rewrite !bind_eq.
    destruct (do_meiosis self g) as [[one_round g1]|e] eqn:Hm; [|done].
    rewrite !bind_eq.
    destruct (randomize_proteome (ref self) (cv self) g1) as [[rp g2]|e] eqn:Hr;
      [|done].
    intros Hl Hall.
    destruct (IH _ _ _ Hl) as [Hnn Hdom].
    { apply Forall_app. split; [done|]. apply do_meiosis_dom in Hm.
      eapply Forall_impl; [exact Hm|]. by intros s [_ Hs]. }
    split; [done|]. intros _.
    destruct n as [|n]; [|by apply Hdom].
    simpl in Hl. injection Hl as <- _ _. simpl.
    apply randomize_fold_state in Hr as (Hd & _).
    by rewrite Hd, keys_dom, dom_empty_L, (left_id_L ∅ (∪)).
Qed.

(** X23 (the stored gametes are valid cells): after a returning call of
    [make_sperms] on an object whose spermatogonium has the keys of the
    reference (as the constructor leaves it), every stored gamete has
    exactly the keys of the reference and no negative count; the
    spermatogonium kept for the next call has the keys of the reference
    too. *)
Theorem make_sperms_gametes_valid (self : Spermatogenesis) (t : Z)
  (g : RandomState) (self' : Spermatogenesis) (g' : RandomState) :
  dom (proteome (spermatogonia self)) = dom (ref self) ->
  make_sperms self t g = Ok (self', g') ->
  exists sperms,
    load self' = Some sperms
    /\ Forall (fun s => dom (proteome s) = dom (ref self)
                        /\ nonneg (proteome s)) sperms
    /\ dom (proteome (spermatogonia self')) = dom (ref self).
Proof.
  intros Hdom. unfold make_sperms. rewrite bind_eq.
  destruct (make_sperms_loop (Z.to_nat t) self [] g)
    as [[[self1 sperms1] g1]|e] eqn:Hl; [|done].
  intros [= <- _]. exists sperms1. split; [done|].
  pose proof (make_sperms_loop_gametes _ _ _ _ _ _ _ Hl Hdom (Forall_nil_2 _))
    as Hkeys.
  destruct (make_sperms_loop_nonneg _ _ _ _ _ _ _ Hl (Forall_nil_2 _))
    as [Hnn Hfounder].
  split.
  - apply Forall_forall. intros s Hs.
    rewrite Forall_forall in Hkeys. rewrite Forall_forall in Hnn. auto.
  - simpl. destruct (Z.to_nat t) as [|n] eqn:Ht; [|by apply Hfounder].
    simpl in Hl. by injection Hl as <- _ _.
Qed.

Lemma draw_count_convertible self_ref self_cv i g n g' :
  draw_count self_ref self_cv i g = Ok (n, g') ->
  exists r rf, self_ref !! i = Some r /\ py_float_of_int r = Ok rf.
Proof.
  unfold draw_count. rewrite bind_eq, lift_eq. unfold getitem.
  destruct (self_ref !! i) as [mean|]; [|done].
  rewrite bind_eq, lift_eq.
  destruct (py_float_of_int mean) as [mean_f|] eqn:Hf; [|done].
  intros _. eauto.
Qed.

Lemma valid_founders_covered self_ref self_cv g (P : gmap string Z) :
  valid_founders self_ref self_cv g -> dom P = dom self_ref ->
  covered self_ref P.
Proof.
  intros Hv Hdom i Hi.
  destruct (Hv g i eq_refl) as (n & g' & Hd & _).
  { apply keys_elem. by rewrite <- elem_of_dom, <- Hdom, elem_of_dom. }
  eapply draw_count_convertible; eassumption.
Qed.

(** Classifying gametes that all return gives a count within bounds. *)
Lemma classify_all_ok self sperms :
  Forall (fun s => exists b, is_viable self s = Ok b) sperms ->
  exists viable, mapR (is_viable self) sperms = Ok viable.
Proof.
  induction 1 as [|s sperms [b Hb] _ [viable IH]]; [by exists []|].
  exists (b :: viable). by rewrite mapR_cons, Hb, IH.
Qed.

(** X24 (a whole run): for a reference with at least one protein and a
    tape of deviates that only yields valid founders, constructing the
    simulator, making the gametes of [t] trials and counting the viable ones
    raises nothing, and the count lies between 0 and [4 * t]. *)
Theorem run_returns_count (ref0 : gmap string Z) (x y cv0 : float) (t : Z)
  (g : RandomState) :
  ref0 <> ∅ -> Z.of_nat (size ref0) < 2 ^ 63 ->
  valid_founders ref0 cv0 g -> 0 <= t ->
  exists self g1 n g2,
    __init__ ref0 (PyFloat x) (PyFloat y) cv0 g = Ok (self, g1)
    /\ viable_after self t g1 = Ok (n, g2)
    /\ 0 <= n <= 4 * t.
Proof.
  intros Hne Hsize Hv Ht.
  destruct (randomize_proteome_ok ref0 cv0 g Hv g eq_refl)
    as (rp & g1 & Hr & Hrp & Hg1).
  pose proof (randomize_fold_state _ _ _ _ _ _ _ Hr) as (Hdom & _).
  rewrite keys_dom, dom_empty_L, (left_id_L ∅ (∪)) in Hdom.
  set (self := mkSpermatogenesis ref0 cv0 (mkCell rp) x y None).
  assert (Hv1 : valid_founders (ref self) (cv self) g1).
  { intros g3 i Hg3. apply Hv. congruence. }
  destruct (make_sperms_loop_ok (Z.to_nat t) self [] g1 Hrp Hv1)
    as (self' & sperms' & g2 & Hl & Hlen & _ & Href & _ & Hcut & Hcru & _).
  pose proof (make_sperms_loop_gametes _ _ _ _ _ _ _ Hl Hdom (Forall_nil_2 _))
    as Hall.
  set (self2 := mkSpermatogenesis (ref self') (cv self') (spermatogonia self')
                  (cutoff self') (crucial_prot self') (Some sperms')).
  assert (Hpos : 0 < Z.of_nat (size ref0)).
  { apply map_size_non_empty_iff in Hne. lia. }
  destruct (float_of_Z_small _ (conj Hpos Hsize)) as (mn & en & Hn).
  destruct (classify_all_ok self2 sperms') as [viable Hviable].
  { eapply Forall_impl; [exact Hall|]. intros s Hs. simpl in Hs.
    assert (Hss : size (proteome s) = size ref0) by (by rewrite <- !size_dom, Hs).
    eexists. apply (is_viable_eq self2 s mn en).
    - simpl. rewrite Href. simpl. eapply valid_founders_covered; eassumption.
    - by rewrite Hss. }
  exists self, g1, (sum_bools viable), g2.
  split; [by rewrite init_float, Hr|]. split.
  - unfold viable_after, make_sperms. rewrite !bind_eq, Hl.
    cbv beta iota. fold self2. unfold mret, M_ret, ret. rewrite lift_eq.
    unfold get_viable_sprems. simpl load. cbv beta iota.
    by rewrite result_bind_eq, Hviable.
  - pose proof (sum_bools_bounds viable) as Hb.
    rewrite (mapR_length _ _ _ Hviable), Hlen in Hb. simpl in Hb. lia.
Qed.

Lemma keys_empty : keys (∅ : gmap string Z) = [].
Proof. unfold keys. by rewrite map_to_list_empty. Qed.

Lemma valid_founders_empty self_cv g : valid_founders ∅ self_cv g.
Proof. intros g' i _ Hi. rewrite keys_empty in Hi. by apply elem_of_nil in Hi. Qed.

(** X25 (empty reference): an empty reference is accepted by the
    constructor and by [make_sperms], which stores gametes without proteins;
    the failure comes with the count: [get_viable_sprems] raises
    [ZeroDivisionError] as soon as one trial was made. *)
Theorem empty_reference_fails_at_counting (x y cv0 : float) (t : Z)
  (g : RandomState) :
  0 < t ->
  exists self self' g',
    __init__ ∅ (PyFloat x) (PyFloat y) cv0 g = Ok (self, g)
    /\ make_sperms self t g = Ok (self', g')
    /\ retained self' = Z.to_nat (4 * t)
    /\ get_viable_sprems self' = Raise ZeroDivisionError.
Proof.
  intros Ht.
  set (self := mkSpermatogenesis ∅ cv0 (mkCell ∅) x y None).
  assert (Hnn : nonneg (proteome (spermatogonia self))) by apply map_Forall_empty.
  destruct (make_sperms_loop_ok (Z.to_nat t) self [] g Hnn
              (valid_founders_empty _ _))
    as (self' & sperms' & g' & Hl & Hlen & _).
  pose proof (make_sperms_loop_gametes _ _ _ _ _ _ _ Hl eq_refl (Forall_nil_2 _))
    as Hall.
  eexists self, _, g'. split.
  { rewrite init_float. unfold randomize_proteome. by rewrite keys_empty. }
  split; [unfold make_sperms; rewrite bind_eq, Hl; reflexivity|].
  split; [unfold retained; simpl; rewrite Hlen; simpl; lia|].
  unfold get_viable_sprems. simpl load. cbv beta iota.
  destruct sperms' as [|s sperms']; [simpl in Hlen; lia|].
  apply Forall_cons in Hall as [Hs _]. simpl in Hs.
  rewrite dom_empty_L in Hs. apply dom_empty_inv_L in Hs.
  by rewrite result_bind_eq, mapR_cons, (is_viable_empty _ _ Hs).
Qed.

(** * Instances *)

(** With zero deviates every founder is the reference itself. *)
Lemma valid_founders_zero_tape g :
  gauss g = (fun _ => S754_zero false) ->
  valid_founders P0 f_fifth g.
Proof.
  intros Hg [c cp ga gp] i Hg' Hi. simpl in Hg'. rewrite Hg in Hg'. subst ga.
  assert (Hk : keys P0 = ["A"; "B"]%string) by (vm_compute; reflexivity).
  rewrite Hk in Hi.
  apply elem_of_cons in Hi as [->|Hi];
    [|apply elem_of_cons in Hi as [->|Hi]; [|by apply elem_of_nil in Hi]].
  - eexists _, _. split; [vm_compute; reflexivity|lia].
  - eexists _, _. split; [vm_compute; reflexivity|lia].
Qed.

(** Checking the two predicates on given dictionaries by evaluation. *)
Lemma nonneg_check (P : gmap string Z) :
  forallb (fun kv => 0 <=? kv.2) (map_to_list P) = true -> nonneg P.
Proof.
  intros H i n Hi. apply elem_of_map_to_list, list_elem_of_In in Hi.
  rewrite forallb_forall in H. apply H in Hi. simpl in Hi. lia.
Qed.

Lemma covered_check (reference gamete : gmap string Z) :
  forallb (fun kv => match reference !! kv.1 with
                     | Some r => match py_float_of_int r with
                                 | Ok _ => true
                                 | Raise _ => false
                                 end
                     | None => false
                     end) (map_to_list gamete) = true ->
  covered reference gamete.
Proof.
  intros H i [g Hg]. apply elem_of_map_to_list, list_elem_of_In in Hg.
  rewrite forallb_forall in H. apply H in Hg. simpl in Hg.
  destruct (reference !! i) as [r|]; [|done].
  destruct (py_float_of_int r) as [rf|] eqn:Hrf; [|done]. eauto.
Qed.

(** Conservation on the proteome [{A: 100, B: 7}]. *)
Lemma fission_conserves_witness :
  nonneg P0 /\
  exists d1 d2 g',
    fission P0 g0 = Ok (d1, d2, g') /\
    forall i n, P0 !! i = Some n ->
      exists a b, proteome d1 !! i = Some a /\ proteome d2 !! i = Some b
                  /\ a + b = n.
Proof.
  assert (H : nonneg P0) by (apply nonneg_check; vm_compute; reflexivity).
  split; [exact H|].
  destruct (fission_conserves P0 g0) as [Hsum Hret].
  destruct (Hret H) as (d1 & d2 & g' & Hf).
  exists d1, d2, g'. split; [exact Hf|exact (Hsum d1 d2 g' Hf)].
Defined.

(** Meiosis of the founder of [s0]. *)
Lemma do_meiosis_four_witness :
  nonneg (proteome (spermatogonia s0))
  /\ exists c1 c2 s1 s2 s3 s4 g1 g2 g3,
       fission (proteome (spermatogonia s0)) g0 = Ok (c1, c2, g1)
       /\ fission (proteome c1) g1 = Ok (s1, s2, g2)
       /\ fission (proteome c2) g2 = Ok (s3, s4, g3)
       /\ do_meiosis s0 g0 = Ok ([s1; s2; s3; s4], g3).
Proof.
  assert (H : nonneg (proteome (spermatogonia s0)))
    by (apply nonneg_check; vm_compute; reflexivity).
  split; [exact H|].
  destruct (do_meiosis_four s0 g0) as [Hinv Hret].
  destruct (Hret H) as (gametes & g3 & Hm).
  destruct (Hinv gametes g3 Hm)
    as (c1 & c2 & s1 & s2 & s3 & s4 & g1 & g2 & Hf1 & Hf2 & Hf3 & Hg).
  exists c1, c2, s1, s2, s3, s4, g1, g2, g3.
  rewrite <- Hg. repeat split; assumption.
Defined.

(** A gamete on both boundaries is viable: 50 copies of A against the
    threshold 50.0, and one functional protein out of two against 0.5. *)
Lemma is_viable_spec_witness :
  proteome sperm_boundary <> ∅
  /\ Z.of_nat (size (proteome sperm_boundary)) < 2 ^ 63
  /\ covered (ref s0) (proteome sperm_boundary)
  /\ is_viable s0 sperm_boundary = Ok true
  /\ spec_is_viable (ref s0) (cutoff s0) (crucial_prot s0)
       (proteome sperm_boundary) = true.
Proof.
  assert (H1 : proteome sperm_boundary <> ∅)
    by (apply map_size_non_empty_iff; vm_compute; discriminate).
  assert (H2 : Z.of_nat (size (proteome sperm_boundary)) < 2 ^ 63)
    by (vm_compute; reflexivity).
  assert (H3 : covered (ref s0) (proteome sperm_boundary))
    by (apply covered_check; vm_compute; reflexivity).
  split; [exact H1|]. split; [exact H2|]. split; [exact H3|].
  destruct (is_viable_spec s0 sperm_boundary) as (Hspec & Hret & _).
  destruct (Hret H1 H2 H3) as [b Hb].
  rewrite Hb, (Hspec b Hb). split; vm_compute; reflexivity.
Defined.

(** Three trials from [s0]: twelve gametes. *)
Lemma make_sperms_count_witness :
  0 < 3
  /\ nonneg (proteome (spermatogonia s0))
  /\ valid_founders (ref s0) (cv s0) g0
  /\ exists self' g' sperms,
       make_sperms s0 3 g0 = Ok (self', g')
       /\ load self' = Some sperms
       /\ Z.of_nat (length sperms) = 4 * 3.
Proof.
  assert (H1 : 0 < 3) by lia.
  assert (H2 : nonneg (proteome (spermatogonia s0)))
    by (apply nonneg_check; vm_compute; reflexivity).
  assert (H3 : valid_founders (ref s0) (cv s0) g0)
    by (apply valid_founders_zero_tape; reflexivity).
  split; [exact H1|]. split; [exact H2|]. split; [exact H3|].
  destruct (make_sperms_count s0 3 g0 H1) as [Hlen Hret].
  destruct (Hret H2 H3) as (self' & g' & Hm).
  destruct (Hlen self' g' Hm) as (sperms & Hload & Hn).
  exists self', g', sperms. repeat split; assumption.
Defined.

(** Three stored gametes: all viable at the cutoff 0.5, none at 2.0. *)
Lemma viable_count_antitone_witness :
  valid_binary prec emax f_half = true
  /\ valid_binary prec emax f_two = true
  /\ fge f_half (S754_zero false) = true
  /\ fge f_two f_half = true
  /\ nonneg (ref s0_loaded)
  /\ get_viable_sprems (with_cutoff s0_loaded f_half) = Ok 3
  /\ get_viable_sprems (with_cutoff s0_loaded f_two) = Ok 0
  /\ agree (fun n1 n2 => n2 <= n1)
       (get_viable_sprems (with_cutoff s0_loaded f_half))
       (get_viable_sprems (with_cutoff s0_loaded f_two)).
Proof.
  assert (H5 : nonneg (ref s0_loaded))
    by (apply nonneg_check; vm_compute; reflexivity).
  split; [reflexivity|]. split; [reflexivity|]. split; [reflexivity|].
  split; [reflexivity|]. split; [exact H5|].
  split; [vm_compute; reflexivity|]. split; [vm_compute; reflexivity|].
  exact (proj1 (viable_count_antitone s0_loaded f_half f_two
                  eq_refl eq_refl eq_refl eq_refl H5)).
Defined.

(** The proteome [{A: -1}] and the gamete without proteins. *)
Lemma invalid_state_errors_witness :
  P_neg !! "A"%string = Some (-1) /\ -1 < 0 /\ proteome (mkCell ∅) = ∅
  /\ fission P_neg g0 = Raise ValueError
  /\ is_viable s0 (mkCell ∅) = Raise ZeroDivisionError.
Proof.
  assert (H1 : P_neg !! "A"%string = Some (-1)) by reflexivity.
  assert (H2 : -1 < 0) by lia.
  assert (H3 : proteome (mkCell ∅) = ∅) by reflexivity.
  split; [exact H1|]. split; [exact H2|]. split; [exact H3|].
  exact (invalid_state_errors P_neg "A" (-1) g0 s0 (mkCell ∅) H1 H2 H3).
Defined.

(** The proteome [{A: 0}]. *)
Lemma fission_zero_count_witness :
  P_zero !! "A"%string = Some 0 /\ nonneg P_zero
  /\ exists d1 d2 g',
       fission P_zero g0 = Ok (d1, d2, g')
       /\ proteome d1 !! "A"%string = Some 0
       /\ proteome d2 !! "A"%string = Some 0.
Proof.
  assert (H1 : P_zero !! "A"%string = Some 0) by reflexivity.
  assert (H2 : nonneg P_zero) by (apply nonneg_check; vm_compute; reflexivity).
  split; [exact H1|]. split; [exact H2|].
  destruct (fission_zero_count P_zero "A" g0 H1) as [Hz Hret].
  destruct (Hret H2) as (d1 & d2 & g' & Hf).
  exists d1, d2, g'. split; [exact Hf|exact (Hz d1 d2 g' Hf)].
Defined.


(** A negative [cv] stops construction in the sampler. *)
Example init_negative_cv :
  __init__ P0 (PyFloat f_half) (PyFloat f_half) f_minus_fifth g0
  = Raise ValueError.
Proof. vm_compute. reflexivity. Qed.

(** [0.5 * 100] is exactly [50.0], and 50 copies reach it. *)
Example boundary_threshold :
  fmul f_half (float_of_Z 100) = float_of_Z 50
  /\ functional s0 sperm_boundary "A" = Ok true
  /\ functional s0 sperm_boundary "B" = Ok false.
Proof. repeat split; vm_compute; reflexivity. Qed.

(** The arithmetic is that of doubles: [0.1 * 3] is [0.30000000000000004],
    above [0.3], so that with [cutoff = 0.1] a reference count of 3 asks for
    more than [3 / 10]; and [2^53 + 1] converts to [2^53]. *)
Example double_rounding :
  fmul f_tenth (float_of_Z 3) = S754_finite false 5404319552844596 (-54)
  /\ fdiv (float_of_Z 3) (float_of_Z 10)
     = S754_finite false 5404319552844595 (-54)
  /\ float_of_Z (2 ^ 53 + 1) = float_of_Z (2 ^ 53).
Proof. repeat split; vm_compute; reflexivity. Qed.

(** ** Instances of the further properties *)

Lemma map_Forall_check (f : Z -> bool) (Q : Z -> Prop) (P : gmap string Z) :
  (forall n, f n = true -> Q n) ->
  forallb (fun kv => f kv.2) (map_to_list P) = true ->
  map_Forall (fun _ n => Q n) P.
Proof.
  intros HfQ H i n Hi. apply elem_of_map_to_list, list_elem_of_In in Hi.
  rewrite forallb_forall in H. apply H in Hi. by apply HfQ.
Qed.

Lemma exact_counts_check (P : gmap string Z) :
  forallb (fun kv => (0 <=? kv.2) && (kv.2 <? 2 ^ 53)) (map_to_list P) = true ->
  exact_counts P.
Proof.
  apply (map_Forall_check (fun n => (0 <=? n) && (n <? 2 ^ 53))).
  intros n [H1 H2]%andb_prop. lia.
Qed.

Lemma convertible_check (P : gmap string Z) :
  forallb (fun kv => match py_float_of_int kv.2 with
                     | Ok _ => true
                     | Raise _ => false
                     end) (map_to_list P) = true ->
  convertible P.
Proof.
  apply (map_Forall_check (fun n => match py_float_of_int n with
                                    | Ok _ => true
                                    | Raise _ => false
                                    end)).
  intros n Hn. destruct (py_float_of_int n) as [f|]; [eauto|done].
Qed.

Lemma pointwise_le_check (P1 P2 : gmap string Z) :
  forallb (fun kv => match P2 !! kv.1 with
                     | Some b => kv.2 <=? b
                     | None => true
                     end) (map_to_list P1) = true ->
  forall i a b, P1 !! i = Some a -> P2 !! i = Some b -> a <= b.
Proof.
  intros H i a b Ha Hb. apply elem_of_map_to_list, list_elem_of_In in Ha.
  rewrite forallb_forall in H. apply H in Ha. simpl in Ha.
  rewrite Hb in Ha. lia.
Qed.

Lemma dom_check (P1 P2 : gmap string Z) :
  forallb (fun kv => bool_decide (is_Some (P2 !! kv.1))) (map_to_list P1) = true ->
  forallb (fun kv => bool_decide (is_Some (P1 !! kv.1))) (map_to_list P2) = true ->
  dom P1 = dom P2.
Proof.
  intros H1 H2. apply set_eq. intros i. rewrite !elem_of_dom.
  rewrite forallb_forall in H1. rewrite forallb_forall in H2.
  split; intros [v Hv]; apply elem_of_map_to_list, list_elem_of_In in Hv.
  - apply H1 in Hv. by apply bool_decide_eq_true in Hv.
  - apply H2 in Hv. by apply bool_decide_eq_true in Hv.
Qed.

(** The daughters of [{A: 100, B: 7}] have the keys A and B. *)
Lemma fission_keys_witness :
  exists d1 d2 g',
    fission P0 g0 = Ok (d1, d2, g')
    /\ dom (proteome d1) = dom P0 /\ dom (proteome d2) = dom P0.
Proof.
  destruct (fission_ok P0 g0) as (d1 & d2 & g' & Hf);
    [apply nonneg_check; vm_compute; reflexivity|].
  exists d1, d2, g'. split; [exact Hf|exact (fission_keys P0 g0 d1 d2 g' Hf)].
Defined.

(** The daughters of [{A: 100, B: 7}]. *)
Lemma fission_daughters_bounded_witness :
  exists d1 d2 g',
    fission P0 g0 = Ok (d1, d2, g')
    /\ nonneg P0
    /\ forall i n, P0 !! i = Some n ->
         exists a b, proteome d1 !! i = Some a /\ proteome d2 !! i = Some b
                     /\ 0 <= a <= n /\ 0 <= b <= n.
Proof.
  destruct (fission_ok P0 g0) as (d1 & d2 & g' & Hf);
    [apply nonneg_check; vm_compute; reflexivity|].
  exists d1, d2, g'.
  split; [exact Hf|exact (fission_daughters_bounded P0 g0 d1 d2 g' Hf)].
Defined.

(** Splitting [{A: 100, B: 7}] takes 107 coins. *)
Lemma fission_draws_witness :
  total P0 = 107
  /\ exists d1 d2 g',
       fission P0 g0 = Ok (d1, d2, g')
       /\ Z.of_nat (coin_pos g') = Z.of_nat (coin_pos g0) + total P0
       /\ gauss_pos g' = gauss_pos g0
       /\ coins g' = coins g0 /\ gauss g' = gauss g0.
Proof.
  split; [vm_compute; reflexivity|].
  destruct (fission_ok P0 g0) as (d1 & d2 & g' & Hf);
    [apply nonneg_check; vm_compute; reflexivity|].
  exists d1, d2, g'. split; [exact Hf|exact (fission_draws P0 g0 d1 d2 g' Hf)].
Defined.

(** Meiosis of the founder of [s0]. *)
Lemma do_meiosis_conserves_witness :
  exists gametes g' s1 s2 s3 s4,
    do_meiosis s0 g0 = Ok (gametes, g')
    /\ gametes = [s1; s2; s3; s4]
    /\ Forall (fun s => dom (proteome s) = dom (proteome (spermatogonia s0)))
         gametes
    /\ forall i n, proteome (spermatogonia s0) !! i = Some n ->
         exists a1 a2 a3 a4,
           proteome s1 !! i = Some a1 /\ proteome s2 !! i = Some a2
           /\ proteome s3 !! i = Some a3 /\ proteome s4 !! i = Some a4
           /\ 0 <= a1 /\ 0 <= a2 /\ 0 <= a3 /\ 0 <= a4
           /\ a1 + a2 + a3 + a4 = n.
Proof.
  destruct (do_meiosis_ok s0 g0) as (gametes & g' & Hm & _);
    [apply nonneg_check; vm_compute; reflexivity|].
  destruct (do_meiosis_conserves s0 g0 gametes g' Hm)
    as (s1 & s2 & s3 & s4 & H).
  exists gametes, g', s1, s2, s3, s4. split; [exact Hm|exact H].
Defined.

(** Meiosis of the founder of [s0] takes 214 coins. *)
Lemma do_meiosis_draws_witness :
  exists gametes g',
    do_meiosis s0 g0 = Ok (gametes, g')
    /\ Z.of_nat (coin_pos g')
       = Z.of_nat (coin_pos g0) + 2 * total (proteome (spermatogonia s0))
    /\ gauss_pos g' = gauss_pos g0
    /\ coins g' = coins g0 /\ gauss g' = gauss g0.
Proof.
  destruct (do_meiosis_ok s0 g0) as (gametes & g' & Hm & _);
    [apply nonneg_check; vm_compute; reflexivity|].
  exists gametes, g'.
  split; [exact Hm|exact (do_meiosis_draws s0 g0 gametes g' Hm)].
Defined.

(** A founder for the reference [{A: 100, B: 7}]. *)
Lemma randomize_proteome_keys_witness :
  exists rp g',
    randomize_proteome P0 f_fifth g0 = Ok (rp, g')
    /\ dom rp = dom P0
    /\ gauss_pos g' = (gauss_pos g0 + size P0)%nat
    /\ coin_pos g' = coin_pos g0
    /\ coins g' = coins g0 /\ gauss g' = gauss g0.
Proof.
  destruct (randomize_proteome_ok P0 f_fifth g0
              (valid_founders_zero_tape g0 eq_refl) g0 eq_refl)
    as (rp & g' & Hr & _).
  exists rp, g'.
  split; [exact Hr|exact (randomize_proteome_keys P0 f_fifth g0 rp g' Hr)].
Defined.

(** Without noise the founder of [{A: 100, B: 7}] is [{A: 100, B: 7}]. *)
Lemma randomize_proteome_cv_zero_witness :
  exact_counts P0 /\ finite_deviates g_minus
  /\ randomize_proteome P0 (S754_zero false) g_minus
     = Ok (P0, skip_gauss (size P0) g_minus)
  /\ __init__ P0 (PyFloat f_half) (PyFloat f_half) (S754_zero false) g_minus
     = Ok (mkSpermatogenesis P0 (S754_zero false) (mkCell P0)
             f_half f_half None,
           skip_gauss (size P0) g_minus).
Proof.
  assert (H1 : exact_counts P0)
    by (apply exact_counts_check; vm_compute; reflexivity).
  assert (H2 : finite_deviates g_minus) by (intros k; reflexivity).
  split; [exact H1|]. split; [exact H2|].
  exact (randomize_proteome_cv_zero P0 f_half f_half g_minus H1 H2).
Defined.

(** The reference [{A: -1}] with the default [cv]. *)
Lemma init_negative_reference_witness :
  P_neg !! "A"%string = Some (-1) /\ -1 < 0 /\ signbit f_fifth = false
  /\ exists e,
       randomize_proteome P_neg f_fifth g0 = Raise e
       /\ __init__ P_neg (PyFloat f_half) (PyFloat f_half) f_fifth g0 = Raise e
       /\ (e = ValueError \/ e = OverflowError).
Proof.
  assert (H1 : P_neg !! "A"%string = Some (-1)) by reflexivity.
  assert (H2 : -1 < 0) by lia.
  assert (H3 : signbit f_fifth = false) by reflexivity.
  split; [exact H1|]. split; [exact H2|]. split; [exact H3|].
  exact (init_negative_reference P_neg f_half f_half f_fifth g0 "A" (-1)
           H1 H2 H3).
Defined.

(** A gamete with a protein C against the reference [{A: 100, B: 7}]. *)
Lemma is_viable_missing_key_witness :
  convertible (ref s0)
  /\ is_Some (proteome sperm_unknown !! "C"%string)
  /\ ref s0 !! "C"%string = None
  /\ is_viable s0 sperm_unknown = Raise KeyError.
Proof.
  assert (H1 : convertible (ref s0))
    by (apply convertible_check; vm_compute; reflexivity).
  assert (H2 : is_Some (proteome sperm_unknown !! "C"%string))
    by (exists 1; reflexivity).
  assert (H3 : ref s0 !! "C"%string = None) by reflexivity.
  split; [exact H1|]. split; [exact H2|]. split; [exact H3|].
  exact (is_viable_missing_key s0 sperm_unknown "C" H1 H2 H3).
Defined.

(** [crucial_prot = 2.0] and [crucial_prot = 0.0] on a gamete of [s0]. *)
Lemma is_viable_crucial_prot_out_of_range_witness :
  SFleb (crucial_prot (with_crucial_prot s0 f_two)) (float_of_Z 1) = false
  /\ is_viable (with_crucial_prot s0 f_two) sperm_more <> Ok true
  /\ SFleb (crucial_prot (with_crucial_prot s0 (S754_zero false)))
       (S754_zero false) = true
  /\ is_viable (with_crucial_prot s0 (S754_zero false))
       (mkCell {[ "A" := 0; "B" := 0 ]}) = Ok true.
Proof.
  assert (H1 : SFleb (crucial_prot (with_crucial_prot s0 f_two)) (float_of_Z 1)
               = false) by reflexivity.
  assert (H2 : SFleb (crucial_prot (with_crucial_prot s0 (S754_zero false)))
                 (S754_zero false) = true) by reflexivity.
  split; [exact H1|].
  split; [exact (proj1 (is_viable_crucial_prot_out_of_range
                          (with_crucial_prot s0 f_two) sperm_more) H1)|].
  split; [exact H2|].
  destruct (is_viable (with_crucial_prot s0 (S754_zero false))
              (mkCell {[ "A" := 0; "B" := 0 ]})) as [b|e] eqn:Hv;
    [|vm_compute in Hv; discriminate Hv].
  f_equal.
  exact (proj2 (is_viable_crucial_prot_out_of_range
                  (with_crucial_prot s0 (S754_zero false))
                  (mkCell {[ "A" := 0; "B" := 0 ]})) H2 b Hv).
Defined.

(** The reference [{A: 0}] and a gamete without copies of A. *)
Lemma functional_zero_reference_witness :
  ref s_zero !! "A"%string = Some 0
  /\ proteome (mkCell P_zero) !! "A"%string = Some 0 /\ 0 <= 0
  /\ is_finite (cutoff s_zero) = true
  /\ functional s_zero (mkCell P_zero) "A" = Ok true.
Proof.
  assert (H1 : ref s_zero !! "A"%string = Some 0) by reflexivity.
  assert (H2 : proteome (mkCell P_zero) !! "A"%string = Some 0) by reflexivity.
  assert (H3 : 0 <= 0) by lia.
  assert (H4 : is_finite (cutoff s_zero) = true) by reflexivity.
  split; [exact H1|]. split; [exact H2|]. split; [exact H3|].
  split; [exact H4|].
  exact (functional_zero_reference s_zero (mkCell P_zero) "A" 0 H1 H2 H3 H4).
Defined.

(** Three stored gametes under [crucial_prot] 0.5 and 2.0. *)
Lemma viable_count_antitone_crucial_prot_witness :
  fge f_two f_half = true
  /\ get_viable_sprems (with_crucial_prot s0_loaded f_half) = Ok 3
  /\ get_viable_sprems (with_crucial_prot s0_loaded f_two) = Ok 0
  /\ agree (fun n1 n2 => n2 <= n1)
       (get_viable_sprems (with_crucial_prot s0_loaded f_half))
       (get_viable_sprems (with_crucial_prot s0_loaded f_two)).
Proof.
  split; [reflexivity|].
  split; [vm_compute; reflexivity|]. split; [vm_compute; reflexivity|].
  exact (proj1 (viable_count_antitone_crucial_prot s0_loaded f_half f_two
                  eq_refl)).
Defined.

(** [{A: 60, B: 5}] against the viable [{A: 50, B: 3}]. *)
Lemma is_viable_more_copies_witness :
  nonneg (proteome sperm_boundary)
  /\ dom (proteome sperm_boundary) = dom (proteome sperm_more)
  /\ (forall i a b, proteome sperm_boundary !! i = Some a ->
        proteome sperm_more !! i = Some b -> a <= b)
  /\ is_viable s0 sperm_boundary = Ok true
  /\ is_viable s0 sperm_more = Ok true.
Proof.
  assert (H1 : nonneg (proteome sperm_boundary))
    by (apply nonneg_check; vm_compute; reflexivity).
  assert (H2 : dom (proteome sperm_boundary) = dom (proteome sperm_more))
    by (apply dom_check; vm_compute; reflexivity).
  assert (H3 : forall i a b, proteome sperm_boundary !! i = Some a ->
                 proteome sperm_more !! i = Some b -> a <= b)
    by (apply pointwise_le_check; vm_compute; reflexivity).
  assert (H4 : is_viable s0 sperm_boundary = Ok true)
    by (vm_compute; reflexivity).
  split; [exact H1|]. split; [exact H2|]. split; [exact H3|].
  split; [exact H4|].
  exact (is_viable_more_copies s0 sperm_boundary sperm_more H1 H2 H3 H4).
Defined.

(** Counting on a freshly constructed simulator. *)
Lemma get_viable_sprems_before_make_sperms_witness :
  exists self g',
    __init__ P0 (PyFloat f_half) (PyFloat f_half) f_fifth g0 = Ok (self, g')
    /\ load self = None
    /\ get_viable_sprems self = Raise AttributeError.
Proof.
  eexists _, _. split; [vm_compute; reflexivity|].
  refine (get_viable_sprems_before_make_sperms P0 (PyFloat f_half)
            (PyFloat f_half) f_fifth g0 _ _ _).
  vm_compute. reflexivity.
Defined.

(** Three viable gametes out of three stored ones. *)
Lemma get_viable_sprems_bounds_witness :
  get_viable_sprems s0_loaded = Ok 3
  /\ exists sperms, load s0_loaded = Some sperms
                    /\ 0 <= 3 <= Z.of_nat (length sperms).
Proof.
  assert (H : get_viable_sprems s0_loaded = Ok 3) by (vm_compute; reflexivity).
  split; [exact H|exact (get_viable_sprems_bounds s0_loaded 3 H)].
Defined.

(** [make_sperms(-1)]. *)
Lemma make_sperms_no_trial_witness :
  -1 <= 0
  /\ make_sperms s0 (-1) g0 = Ok (with_load s0 [], g0)
  /\ viable_after s0 (-1) g0 = Ok (0, g0).
Proof.
  assert (H : -1 <= 0) by lia.
  split; [exact H|exact (make_sperms_no_trial s0 (-1) g0 H)].
Defined.

(** Three trials with a reference of two proteins: six deviates. *)
Lemma make_sperms_deviates_witness :
  exists self' g',
    make_sperms s0 3 g0 = Ok (self', g')
    /\ gauss_pos g' = (gauss_pos g0 + Z.to_nat 3 * size (ref s0))%nat
    /\ coins g' = coins g0 /\ gauss g' = gauss g0.
Proof.
  destruct (make_sperms_loop_ok (Z.to_nat 3) s0 [] g0) as
    (self' & sperms' & g' & Hl & _);
    [apply nonneg_check; vm_compute; reflexivity
    |apply valid_founders_zero_tape; reflexivity|].
  assert (Hm : make_sperms s0 3 g0
               = Ok (mkSpermatogenesis (ref self') (cv self')
                       (spermatogonia self') (cutoff self')
                       (crucial_prot self') (Some sperms'), g'))
    by (unfold make_sperms; rewrite bind_eq, Hl; reflexivity).
  eexists _, g'. split; [exact Hm|].
  exact (make_sperms_deviates s0 3 g0 _ g' Hm).
Defined.

(** A run of three trials for the reference [{A: 100, B: 7}]. *)
Lemma run_returns_count_witness :
  P0 <> ∅ /\ Z.of_nat (size P0) < 2 ^ 63
  /\ valid_founders P0 f_fifth g0 /\ 0 <= 3
  /\ exists self g1 n g2,
       __init__ P0 (PyFloat f_half) (PyFloat f_half) f_fifth g0 = Ok (self, g1)
       /\ viable_after self 3 g1 = Ok (n, g2)
       /\ 0 <= n <= 4 * 3.
Proof.
  assert (H1 : P0 <> ∅) by (apply map_size_non_empty_iff; vm_compute; discriminate).
  assert (H2 : Z.of_nat (size P0) < 2 ^ 63) by (vm_compute; reflexivity).
  assert (H3 : valid_founders P0 f_fifth g0)
    by (apply valid_founders_zero_tape; reflexivity).
  assert (H4 : 0 <= 3) by lia.
  split; [exact H1|]. split; [exact H2|]. split; [exact H3|].
  split; [exact H4|].
  exact (run_returns_count P0 f_half f_half f_fifth 3 g0 H1 H2 H3 H4).
Defined.

(** One trial with the empty reference. *)
Lemma empty_reference_fails_at_counting_witness :
  0 < 1
  /\ exists self self' g',
       __init__ ∅ (PyFloat f_half) (PyFloat f_half) f_fifth g0 = Ok (self, g0)
       /\ make_sperms self 1 g0 = Ok (self', g')
       /\ retained self' = Z.to_nat (4 * 1)
       /\ get_viable_sprems self' = Raise ZeroDivisionError.
Proof.
  assert (H : 0 < 1) by lia.
  split; [exact H|].
  exact (empty_reference_fails_at_counting f_half f_half f_fifth 1 g0 H).
Defined.

(** With [crucial_prot = 1.0], [{A: 50, B: 3}] is not viable (B is below
    its threshold 3.5) and [{A: 60, B: 5}] is. *)
Lemma is_viable_all_required_witness :
  crucial_prot s0_strict = float_of_Z 1
  /\ Z.of_nat (size (proteome sperm_more)) < 2 ^ 53
  /\ is_viable s0_strict sperm_more = Ok true
  /\ (forall i, is_Some (proteome sperm_more !! i) ->
        functional s0_strict sperm_more i = Ok true)
  /\ is_viable s0_strict sperm_boundary = Ok false.
Proof.
  assert (H1 : crucial_prot s0_strict = float_of_Z 1) by reflexivity.
  assert (H2 : Z.of_nat (size (proteome sperm_more)) < 2 ^ 53)
    by (vm_compute; reflexivity).
  assert (H3 : is_viable s0_strict sperm_more = Ok true)
    by (vm_compute; reflexivity).
  split; [exact H1|]. split; [exact H2|]. split; [exact H3|].
  split; [|vm_compute; reflexivity].
  exact (proj1 (is_viable_all_required s0_strict sperm_more true H1 H2 H3)
           eq_refl).
Defined.

(** The reference [{A: 1}] with [cv = 2.0] and the deviate -1.0: the
    constructor returns a founder with -1 copy of A, and the first
    [make_sperms] fails. *)
Lemma make_sperms_negative_founder_witness :
  exists self g',
    __init__ P_one (PyFloat f_half) (PyFloat f_half) f_two g_minus
    = Ok (self, g')
    /\ proteome (spermatogonia self) !! "A"%string = Some (-1)
    /\ -1 < 0 /\ 0 < 1
    /\ do_meiosis self g' = Raise ValueError
    /\ make_sperms self 1 g' = Raise ValueError.
Proof.
  eexists _, _. split; [vm_compute; reflexivity|].
  assert (H2 : -1 < 0) by lia. assert (H3 : 0 < 1) by lia.
  split; [reflexivity|]. split; [exact H2|]. split; [exact H3|].
  refine (make_sperms_negative_founder _ "A" (-1) 1 _ _ H2 H3).
  reflexivity.
Defined.

(** [make_sperms] on an object that already holds gametes. *)
Lemma make_sperms_keeps_config_witness :
  make_sperms (with_load s0 [sperm_boundary]) 1 g0 = make_sperms s0 1 g0
  /\ exists self' g',
       make_sperms s0 1 g0 = Ok (self', g')
       /\ ref self' = ref s0 /\ cv self' = cv s0
       /\ cutoff self' = cutoff s0 /\ crucial_prot self' = crucial_prot s0.
Proof.
  split; [exact (proj2 (make_sperms_keeps_config s0 1 g0) [sperm_boundary])|].
  destruct (make_sperms s0 1 g0) as [[self' g']|e] eqn:Hm;
    [|vm_compute in Hm; discriminate Hm].
  exists self', g'. split; [reflexivity|].
  exact (proj1 (make_sperms_keeps_config s0 1 g0) self' g' Hm).
Defined.

(** Three trials from [s0]: twelve valid gametes. *)
Lemma make_sperms_gametes_valid_witness :
  dom (proteome (spermatogonia s0)) = dom (ref s0)
  /\ exists self' g' sperms,
       make_sperms s0 3 g0 = Ok (self', g')
       /\ load self' = Some sperms
       /\ Forall (fun s => dom (proteome s) = dom (ref s0)
                           /\ nonneg (proteome s)) sperms
       /\ dom (proteome (spermatogonia self')) = dom (ref s0).
Proof.
  assert (H1 : dom (proteome (spermatogonia s0)) = dom (ref s0)) by reflexivity.
  split; [exact H1|].
  destruct (make_sperms_loop_ok (Z.to_nat 3) s0 [] g0) as
    (self' & sperms' & g' & Hl & _);
    [apply nonneg_check; vm_compute; reflexivity
    |apply valid_founders_zero_tape; reflexivity|].
  assert (Hm : make_sperms s0 3 g0
               = Ok (mkSpermatogenesis (ref self') (cv self')
                       (spermatogonia self') (cutoff self')
                       (crucial_prot self') (Some sperms'), g'))
    by (unfold make_sperms; rewrite bind_eq, Hl; reflexivity).
  destruct (make_sperms_gametes_valid s0 3 g0 _ g' H1 Hm)
    as (sperms & Hload & Hall & Hf).
  eexists _, g', sperms. split; [exact Hm|]. split; [exact Hload|].
  split; [exact Hall|exact Hf].
Defined.

(** A negative [cv] with the reference [{A: 100, B: 7}], and with a
    reference count of [10^400]. *)
Lemma init_checks_no_range_witness :
  (P0 <> ∅ /\ nonneg P0 /\ convertible P0 /\ signbit f_minus_fifth = true
   /\ __init__ P0 (PyFloat f_half) (PyFloat f_half) f_minus_fifth g0
      = Raise ValueError)
  /\ (P_huge <> ∅ /\ nonneg P_huge
      /\ __init__ P_huge (PyFloat f_half) (PyFloat f_half) f_minus_fifth g0
         = Raise OverflowError
      /\ exists e,
           __init__ P_huge (PyFloat f_half) (PyFloat f_half) f_minus_fifth g0
           = Raise e
           /\ (e = ValueError \/ e = OverflowError)).
Proof.
  assert (H1 : P0 <> ∅) by (apply map_size_non_empty_iff; vm_compute; discriminate).
  assert (H2 : nonneg P0) by (apply nonneg_check; vm_compute; reflexivity).
  assert (H3 : convertible P0) by (apply convertible_check; vm_compute; reflexivity).
  assert (H4 : signbit f_minus_fifth = true) by reflexivity.
  assert (H5 : P_huge <> ∅)
    by (apply map_size_non_empty_iff; vm_compute; discriminate).
  assert (H6 : nonneg P_huge) by (apply nonneg_check; vm_compute; reflexivity).
  split.
  - split; [exact H1|]. split; [exact H2|]. split; [exact H3|].
    split; [exact H4|].
    exact (proj1 (proj2 (proj2 (init_checks_no_range P0 f_half f_half
                                  f_minus_fifth g0))) H1 H2 H3 H4).
  - split; [exact H5|]. split; [exact H6|].
    split; [vm_compute; reflexivity|].
    exact (proj2 (proj2 (proj2 (init_checks_no_range P_huge f_half f_half
                                  f_minus_fifth g0))) H5 H6 H4).
Defined.
